(** * Multi-provider metric registry with smart-TTL caching

    A shallow embedding of [tradingagents/dataflows/crypto_cache.py] and
    [tradingagents/dataflows/metric_registry.py], and the properties of the
    TTL policy, the cache manager, provider health tracking, provider
    fallback and batch fetching that hold of them.

    Conventions of the embedding:
    - Python [int] is [Z]; Python [str] is [string]; [None] returned by a
      function whose result is otherwise a value is [None] of an [option],
      or the JSON value [JNull] where it is stored as a value.
    - A [dict] whose iteration order the code relies on is an association
      list in insertion order; a [dict] used only as a map is a [gmap].
    - Code that may raise returns an [outcome]; [try ... except Exception]
      is a match on it. *)

From stdpp Require Import gmap strings list numbers sorting pretty.
From Stdlib Require Import ZArith Lia Ascii.

Set Default Proof Using "Type".
Set Warnings "-register-all,-clear-no-such-hyp".

(** ** Python dictionaries kept in insertion order *)

Section Dict.
Context {V : Type}.

(** [d.get(k)], [None] when the key is absent. *)
Fixpoint dict_get (k : string) (d : list (string * V)) : option V :=
  match d with
  | [] => None
  | (k', v) :: d' => if String.eqb k k' then Some v else dict_get k d'
  end.

(** [d.get(k, dflt)]. *)
Definition dict_get_default (k : string) (dflt : V) (d : list (string * V)) : V :=
  match dict_get k d with
  | Some v => v
  | None => dflt
  end.

(** [d[k] = v]: an existing key keeps its place, a new key goes last. *)
Fixpoint dict_set (k : string) (v : V) (d : list (string * V)) : list (string * V) :=
  match d with
  | [] => [(k, v)]
  | (k', v') :: d' =>
      if String.eqb k k' then (k', v) :: d' else (k', v') :: dict_set k v d'
  end.

(** [d.update(other)]. *)
Definition dict_update (d other : list (string * V)) : list (string * V) :=
  foldl (λ acc kv, dict_set kv.1 kv.2 acc) d other.

End Dict.

(** ** crypto_cache.py: SmartTTLStrategy *)

Module SmartTTLStrategy.

(** [class DataVolatility(Enum)]. *)
Inductive DataVolatility : Type :=
| ULTRA_HIGH
| HIGH
| MEDIUM
| LOW
| VERY_LOW.

(** [TTL_MAPPING]: base TTL in seconds of each volatility class. *)
Definition TTL_MAPPING (v : DataVolatility) : Z :=
  match v with
  | ULTRA_HIGH => 10
  | HIGH => 30
  | MEDIUM => 60
  | LOW => 300
  | VERY_LOW => 900
  end.

(** [DATA_TYPE_VOLATILITY], in the order the source writes it. *)
Definition DATA_TYPE_VOLATILITY : list (string * DataVolatility) :=
  [ ("order_book", ULTRA_HIGH);
    ("order_book_depth", ULTRA_HIGH);
    ("live_price", ULTRA_HIGH);
    ("spread_analysis", ULTRA_HIGH);
    ("price_data", HIGH);
    ("ohlcv_1m", HIGH);
    ("ohlcv_5m", HIGH);
    ("volume_analysis", HIGH);
    ("arbitrage_opportunities", HIGH);
    ("whale_movements", MEDIUM);
    ("exchange_flows", MEDIUM);
    ("ohlcv_1h", MEDIUM);
    ("market_sentiment", MEDIUM);
    ("technical_indicators", MEDIUM);
    ("network_metrics", LOW);
    ("active_addresses", LOW);
    ("hash_rate", LOW);
    ("transactions_count", LOW);
    ("ohlcv_4h", LOW);
    ("ohlcv_1d", LOW);
    ("market_cap", VERY_LOW);
    ("supply_metrics", VERY_LOW);
    ("token_info", VERY_LOW);
    ("historical_data", VERY_LOW) ].

(** [int(n * 0.5)] for an [int] n: the product with the float 0.5 is exact
    for every n below 2^53 (here n is at most 1800), and [int] truncates
    towards zero. *)
Definition int_times_half (n : Z) : Z := Z.quot n 2.

(** [get_ttl(cls, data_type, market_hours=True, high_volatility_period=False)]. *)
Definition get_ttl (data_type : string) (market_hours high_volatility_period : bool) : Z :=
  let base_volatility := dict_get_default data_type MEDIUM DATA_TYPE_VOLATILITY in
  let base_ttl := TTL_MAPPING base_volatility in
  let base_ttl := if negb market_hours then (base_ttl * 2)%Z else base_ttl in
  let base_ttl :=
    if high_volatility_period then Z.max (int_times_half base_ttl) 5 else base_ttl in
  base_ttl.

End SmartTTLStrategy.

(** ** The TTL policy as section 4.1 of the specification words it *)

Module TTLSpec.
Import SmartTTLStrategy.

(** The volatility class of a tag, MEDIUM when the tag is unmapped. *)
Definition class_of (tag : string) : DataVolatility :=
  match dict_get tag DATA_TYPE_VOLATILITY with
  | Some c => c
  | None => MEDIUM
  end.

Definition double_off_hours (market_hours : bool) (ttl : Z) : Z :=
  if market_hours then ttl else (2 * ttl)%Z.

Definition halve_with_floor (high_volatility_period : bool) (ttl : Z) : Z :=
  if high_volatility_period then Z.max (ttl / 2) 5 else ttl.

Definition resolve_ttl (tag : string) (market_hours high_volatility_period : bool) : Z :=
  halve_with_floor high_volatility_period
    (double_off_hours market_hours (TTL_MAPPING (class_of tag))).
End TTLSpec.


(** ** Python values, exceptions and outcomes *)

(** Values that [json.loads] produces and [json.dumps] accepts natively.
    Numbers are integers here; the payloads are opaque to the code. *)
Inductive json : Type :=
| JNull
| JBool (b : bool)
| JNum (n : Z)
| JStr (s : string)
| JArr (items : list json)
| JObj (fields : list (string * json)).

(** What a loader hands back: a JSON-like value ([None] is [PJson JNull])
    or a [pandas.DataFrame], of which only its columns and rows matter. *)
Inductive pyvalue : Type :=
| PJson (j : json)
| PFrame (columns : list string) (rows : list (list json)).

(** The exceptions the modelled code meets; all derive from [Exception]. *)
Inductive exn : Type :=
| ConnectionError
| ResponseError
| JSONDecodeError
| TypeError
| KeyError
| ValueError
| LoaderError (msg : string).

Inductive outcome (A : Type) : Type :=
| Ok (a : A)
| Raise (e : exn).
Arguments Ok {A} a.
Arguments Raise {A} e.

Definition is_raise {A} (o : outcome A) : bool :=
  match o with
  | Ok _ => false
  | Raise _ => true
  end.

(** Sequencing of code that may raise. *)
Global Instance outcome_ret : MRet outcome := @Ok.
Global Instance outcome_bind : MBind outcome :=
  λ A B f o, match o with
             | Ok a => f a
             | Raise e => Raise e
             end.

(** [v is None]. *)
Definition is_none (v : pyvalue) : bool :=
  match v with
  | PJson JNull => true
  | _ => false
  end.

(** [isinstance(v, pd.DataFrame) and v.empty]: a frame is empty when one of
    its axes has length zero. *)
Definition is_empty_frame (v : pyvalue) : bool :=
  match v with
  | PFrame [] _ => true
  | PFrame _ [] => true
  | _ => false
  end.

Definition json_null_dec (j : json) : {j = JNull} + {j ≠ JNull}.
Proof. destruct j; (by left) || (by right). Defined.

(** [j[k]] for a string key: a [dict] without the key raises [KeyError],
    any other JSON value raises [TypeError]. *)
Definition subscript (j : json) (k : string) : outcome json :=
  match j with
  | JObj fields =>
      match dict_get k fields with
      | Some v => Ok v
      | None => Raise KeyError
      end
  | _ => Raise TypeError
  end.

(** ** Strings as the code uses them *)

Module Str.

(** [needle in hay] on strings. *)
Fixpoint contains (needle hay : string) : bool :=
  if String.prefix needle hay then true
  else match hay with
       | EmptyString => false
       | String _ hay' => contains needle hay'
       end.

Definition lower_ascii (c : Ascii.ascii) : Ascii.ascii :=
  let n := Ascii.nat_of_ascii c in
  if (65 <=? n)%nat && (n <=? 90)%nat then Ascii.ascii_of_nat (n + 32) else c.

(** [s.lower()], on ASCII letters. *)
Fixpoint lower (s : string) : string :=
  match s with
  | EmptyString => EmptyString
  | String c s' => String (lower_ascii c) (lower s')
  end.

(** [s.split(sep)] for a one-character separator: [cur] collects, in
    reverse, the characters of the part being read. *)
Fixpoint split_aux (sep : Ascii.ascii) (cur : string) (s : string) : list string :=
  match s with
  | EmptyString => [String.rev cur]
  | String c s' =>
      if Ascii.eqb c sep then String.rev cur :: split_aux sep EmptyString s'
      else split_aux sep (String c cur) s'
  end.

Definition split (sep : Ascii.ascii) (s : string) : list string :=
  split_aux sep EmptyString s.

(** [c not in s] for a character. *)
Fixpoint no_char (c : Ascii.ascii) (s : string) : bool :=
  match s with
  | EmptyString => true
  | String c' s' => negb (Ascii.eqb c' c) && no_char c s'
  end.

(** Stable insertion sort of dictionary items by key, the order of
    [sorted(params.items())]: keys of a [dict] are distinct, so comparing
    two items never gets to their values. *)
Fixpoint insert_item {V} (kv : string * V) (l : list (string * V)) : list (string * V) :=
  match l with
  | [] => [kv]
  | kv' :: l' =>
      if String.leb kv.1 kv'.1 then kv :: l else kv' :: insert_item kv l'
  end.

Definition sorted_items {V} (d : list (string * V)) : list (string * V) :=
  foldr insert_item [] d.

End Str.

(** ** The Python runtime and library functions the code calls *)

(** These are outside the repository; the code's behaviour is stated for
    every implementation of them. [wire] is the type of the serialised
    payloads that the cache backend stores. *)
Class Runtime : Type := {
  wire : Type;
  (** truth value of a payload read back from the backend (a [str] is
      falsy when empty) *)
  wire_truthy : wire → bool;
  (** [json.dumps(obj, default=str)], after [default] has been applied *)
  json_dumps : json → outcome wire;
  (** [json.loads(s)] *)
  json_loads : wire → outcome json;
  (** [hashlib.md5(s.encode()).hexdigest()] *)
  md5_hexdigest : string → string;
  (** [str(items)] of a list of (key, value) tuples *)
  str_items : list (string * json) → string;
  (** the decimal text of [hash(str(params))] *)
  hash_str : option (list (string * json)) → string;
  (** [str(v)] of a JSON value that is not a string *)
  str_json : json → string;
  (** [str(df)] of a data frame *)
  str_frame : list string → list (list json) → string;
  (** [datetime.isoformat()] of a clock reading in seconds since the epoch *)
  isoformat : Z → string;
}.

(** The key-value store behind the cache manager (the [redis.Redis]
    client). Every operation takes the clock reading at which it runs and
    may raise. *)
Class Backend `{Runtime} : Type := {
  redis : Type;
  redis_ping : redis → outcome unit;
  redis_get : redis → Z → string → outcome (option wire) * redis;
  redis_setex : redis → Z → string → Z → wire → outcome unit * redis;
  redis_mget : redis → Z → list string → outcome (list (option wire)) * redis;
  (** a pipeline of [setex] commands, run by [execute()] *)
  redis_pipeline_setex :
    redis → Z → list (string * Z * wire) → outcome (list bool) * redis;
}.

(** ** crypto_cache.py: CryptoCacheManager *)

Module CryptoCacheManager.
Section Manager.
Context `{BE : Backend}.

(** The [cache_stats] dictionary. *)
Record cache_stats : Type := {
  hits : Z;
  misses : Z;
  sets : Z;
  batch_requests : Z;
  batch_hits : Z;
}.

Record t : Type := {
  default_ttl : Z;
  redis_client : redis;
  cache_enabled : bool;
  stats : cache_stats;
}.

Definition with_redis (m : t) (r : redis) : t :=
  {| default_ttl := default_ttl m; redis_client := r;
     cache_enabled := cache_enabled m; stats := stats m |}.

Definition with_stats (m : t) (s : cache_stats) : t :=
  {| default_ttl := default_ttl m; redis_client := redis_client m;
     cache_enabled := cache_enabled m; stats := s |}.

Definition count_hit (m : t) : t :=
  let s := stats m in
  with_stats m {| hits := hits s + 1; misses := misses s; sets := sets s;
                  batch_requests := batch_requests s; batch_hits := batch_hits s |}.

Definition count_miss (m : t) : t :=
  let s := stats m in
  with_stats m {| hits := hits s; misses := misses s + 1; sets := sets s;
                  batch_requests := batch_requests s; batch_hits := batch_hits s |}.

Definition count_sets (n : Z) (m : t) : t :=
  let s := stats m in
  with_stats m {| hits := hits s; misses := misses s; sets := sets s + n;
                  batch_requests := batch_requests s; batch_hits := batch_hits s |}.

Definition count_batch_request (m : t) : t :=
  let s := stats m in
  with_stats m {| hits := hits s; misses := misses s; sets := sets s;
                  batch_requests := batch_requests s + 1; batch_hits := batch_hits s |}.

Definition count_batch_hits (n : Z) (m : t) : t :=
  let s := stats m in
  with_stats m {| hits := hits s; misses := misses s; sets := sets s;
                  batch_requests := batch_requests s; batch_hits := batch_hits s + n |}.

(** [__init__]: the cache is enabled exactly when the connection test
    ([ping]) does not raise. *)
Definition init (r : redis) (ttl : Z) : t :=
  {| default_ttl := ttl;
     redis_client := r;
     cache_enabled := negb (is_raise (redis_ping r));
     stats := {| hits := 0; misses := 0; sets := 0;
                 batch_requests := 0; batch_hits := 0 |} |}.

(** [params or {}]. *)
Definition or_empty (params : option (list (string * json))) : list (string * json) :=
  match params with
  | Some p => p
  | None => []
  end.

(** [_generate_cache_key(endpoint, params)]. *)
Definition _generate_cache_key (endpoint : string) (params : list (string * json)) : string :=
  let sorted_params := Str.sorted_items params in
  let key_data := endpoint +:+ ":" +:+ str_items sorted_params in
  let key_hash := md5_hexdigest key_data in
  "crypto_cache:" +:+ endpoint +:+ ":" +:+ key_hash.

(** [f'{v}'] of a value taken from [params]. *)
Definition format_value (v : json) : string :=
  match v with
  | JStr s => s
  | _ => str_json v
  end.

(** [_detect_data_type(endpoint, params)]. *)
Definition _detect_data_type (endpoint : string) (params : option (list (string * json)))
  : string :=
  let endpoint_lower := Str.lower endpoint in
  match List.find (λ data_type, Str.contains data_type endpoint_lower)
          (SmartTTLStrategy.DATA_TYPE_VOLATILITY.*1) with
  | Some data_type => data_type
  | None =>
      if Str.contains "order" endpoint_lower && Str.contains "book" endpoint_lower
      then "order_book"
      else if Str.contains "ohlcv" endpoint_lower || Str.contains "candle" endpoint_lower
      then match dict_get "timeframe" (or_empty params) with
           | Some timeframe => "ohlcv_" +:+ format_value timeframe
           | None => "ohlcv_1h"
           end
      else if Str.contains "price" endpoint_lower then "price_data"
      else if Str.contains "whale" endpoint_lower then "whale_movements"
      else if Str.contains "exchange" endpoint_lower && Str.contains "flow" endpoint_lower
      then "exchange_flows"
      else if Str.contains "active" endpoint_lower && Str.contains "address" endpoint_lower
      then "active_addresses"
      else if Str.contains "hash" endpoint_lower && Str.contains "rate" endpoint_lower
      then "hash_rate"
      else if Str.contains "network" endpoint_lower then "network_metrics"
      else "medium_volatility_default"
  end.

(** [datetime.utcnow().hour] of a clock reading in seconds. *)
Definition utc_hour (now : Z) : Z := ((now / 3600) mod 24)%Z.

(** [_is_market_hours()]. *)
Definition _is_market_hours (now : Z) : bool :=
  (6 <=? utc_hour now)%Z && (utc_hour now <=? 22)%Z.

(** [_is_high_volatility_period()]. *)
Definition _is_high_volatility_period (now : Z) : bool :=
  bool_decide (utc_hour now ∈ [6%Z; 7%Z; 20%Z; 21%Z]).

(** The TTL that [set] and [set_batch] use: the caller's, or the smart one
    when the caller passes [None]. *)
Definition resolve_ttl (now : Z) (endpoint : string)
    (params : option (list (string * json))) (ttl : option Z) : Z :=
  match ttl with
  | Some ttl => ttl
  | None =>
      let data_type := _detect_data_type endpoint params in
      let market_hours := _is_market_hours now in
      let high_volatility := _is_high_volatility_period now in
      SmartTTLStrategy.get_ttl data_type market_hours high_volatility
  end.

(** What [json.dumps(..., default=str)] makes of the payload: a data frame
    is not serialisable and goes through [str]. *)
Definition default_str (data : pyvalue) : json :=
  match data with
  | PJson j => j
  | PFrame columns rows => JStr (str_frame columns rows)
  end.

Definition params_json (params : option (list (string * json))) : json :=
  match params with
  | Some p => JObj p
  | None => JNull
  end.

(** The [cache_data] dictionary that [set] and [set_batch] store. *)
Definition cache_data (now : Z) (endpoint : string) (data : pyvalue)
    (params : option (list (string * json))) (ttl : Z) : json :=
  JObj [ ("data", default_str data);
         ("cached_at", JStr (isoformat now));
         ("endpoint", JStr endpoint);
         ("params", params_json params);
         ("data_type", JStr (_detect_data_type endpoint params));
         ("ttl_used", JNum ttl) ].

(** [get(endpoint, params=None)]; the result [JNull] is Python's [None]. *)
Definition get (m : t) (now : Z) (endpoint : string)
    (params : option (list (string * json))) : outcome json * t :=
  if negb (cache_enabled m) then (Ok JNull, m)
  else
    let cache_key := _generate_cache_key endpoint (or_empty params) in
    let '(cached_data, r) := redis_get (redis_client m) now cache_key in
    let m := with_redis m r in
    match cached_data with
    | Ok (Some cached_data) =>
        if wire_truthy cached_data then
          match json_loads cached_data with
          | Ok data => (Ok data, count_hit m)
          | Raise _ => (Ok JNull, count_miss m)
          end
        else (Ok JNull, count_miss m)
    | Ok None => (Ok JNull, count_miss m)
    | Raise _ => (Ok JNull, count_miss m)
    end.

(** [set(endpoint, data, params=None, ttl=None)]. *)
Definition set (m : t) (now : Z) (endpoint : string) (data : pyvalue)
    (params : option (list (string * json))) (ttl : option Z) : outcome bool * t :=
  if negb (cache_enabled m) then (Ok false, m)
  else
    let cache_key := _generate_cache_key endpoint (or_empty params) in
    let ttl := resolve_ttl now endpoint params ttl in
    match json_dumps (cache_data now endpoint data params ttl) with
    | Raise _ => (Ok false, m)
    | Ok payload =>
        let '(stored, r) := redis_setex (redis_client m) now cache_key ttl payload in
        let m := with_redis m r in
        match stored with
        | Ok _ => (Ok true, count_sets 1 m)
        | Raise _ => (Ok false, m)
        end
    end.

(** The demultiplexing loop of [get_batch] over
    [zip(cache_keys, cached_values)]. A payload that is not JSON is
    skipped; any other exception ends the loop with the results so far
    (the outer [except Exception]). *)
Fixpoint get_batch_loop (key_to_request : gmap string (string * option (list (string * json))))
    (pairs : list (string * option wire)) (results : gmap string json) (m : t)
  : gmap string json * t :=
  match pairs with
  | [] => (results, m)
  | (cache_key, cached_value) :: pairs' =>
      match key_to_request !! cache_key with
      | None => (results, m)
      | Some (endpoint, params) =>
          let request_id := endpoint +:+ ":" +:+ hash_str params in
          match cached_value with
          | Some cached_value =>
              if wire_truthy cached_value then
                match json_loads cached_value with
                | Ok data =>
                    get_batch_loop key_to_request pairs'
                      (<[request_id := data]> results) (count_batch_hits 1 m)
                | Raise JSONDecodeError =>
                    get_batch_loop key_to_request pairs' results m
                | Raise _ => (results, m)
                end
              else get_batch_loop key_to_request pairs' (<[request_id := JNull]> results) m
          | None => get_batch_loop key_to_request pairs' (<[request_id := JNull]> results) m
          end
      end
  end.

(** [get_batch(requests)]: the map from request identifier to the cached
    entry, or to [None] ([JNull]). *)
Definition get_batch (m : t) (now : Z)
    (requests : list (string * option (list (string * json))))
  : gmap string json * t :=
  if negb (cache_enabled m) then (∅, m)
  else
    let m := count_batch_request m in
    let cache_keys :=
      map (λ '(endpoint, params), _generate_cache_key endpoint (or_empty params)) requests in
    let key_to_request :=
      foldl (λ acc '(endpoint, params),
               <[_generate_cache_key endpoint (or_empty params) := (endpoint, params)]> acc)
            ∅ requests in
    match cache_keys with
    | [] => (∅, m)
    | _ =>
        let '(cached_values, r) := redis_mget (redis_client m) now cache_keys in
        let m := with_redis m r in
        match cached_values with
        | Ok cached_values =>
            get_batch_loop key_to_request (zip cache_keys cached_values) ∅ m
        | Raise _ => (∅, m)
        end
    end.

(** The [setex] commands that [set_batch] queues on its pipeline. *)
Fixpoint pipeline_commands (now : Z)
    (data_items : list (string * pyvalue * option (list (string * json)) * option Z))
  : outcome (list (string * Z * wire)) :=
  match data_items with
  | [] => Ok []
  | (endpoint, data, params, ttl) :: data_items' =>
      let cache_key := _generate_cache_key endpoint (or_empty params) in
      let ttl := resolve_ttl now endpoint params ttl in
      payload ← json_dumps (cache_data now endpoint data params ttl);
      commands ← pipeline_commands now data_items';
      Ok ((cache_key, ttl, payload) :: commands)
  end.

(** [set_batch(data_items)]: the number of entries stored. *)
Definition set_batch (m : t) (now : Z)
    (data_items : list (string * pyvalue * option (list (string * json)) * option Z))
  : Z * t :=
  if negb (cache_enabled m) then (0%Z, m)
  else
    match pipeline_commands now data_items with
    | Raise _ => (0%Z, m)
    | Ok commands =>
        let '(results, r) := redis_pipeline_setex (redis_client m) now commands in
        let m := with_redis m r in
        match results with
        | Ok results =>
            let successful_sets := Z.of_nat (length (filter (λ b, b = true) results)) in
            (successful_sets, count_sets successful_sets m)
        | Raise _ => (0%Z, m)
        end
    end.

End Manager.
End CryptoCacheManager.

(** ** A reference runtime and an in-process backend

    Section 6 of the specification allows any backend that honours the
    get/setex contract, an in-process map included. This one keeps each
    payload with its expiry time and can be switched off to stand for an
    unreachable server. The reference runtime stores JSON values as they
    are and uses the key text itself as its digest. *)

Module InMemory.

Definition show_item (kv : string * json) : string :=
  kv.1 +:+ "=" +:+ match kv.2 with
                   | JStr s => s
                   | _ => "?"
                   end +:+ ";".

Definition show_items (items : list (string * json)) : string :=
  String.concat "" (map show_item items).

#[export] Instance runtime : Runtime := {|
  wire := json;
  wire_truthy := λ _, true;
  json_dumps := Ok;
  json_loads := Ok;
  md5_hexdigest := λ s, s;
  str_items := show_items;
  hash_str := λ params, match params with
                        | Some p => show_items p
                        | None => "None"
                        end;
  str_json := λ _, "?";
  str_frame := λ _ _, "<frame>";
  isoformat := λ _, "<utcnow>";
|}.

Record store : Type := {
  reachable : bool;
  entries : gmap string (json * Z);
}.

Definition lookup_live (s : store) (now : Z) (key : string) : option json :=
  match entries s !! key with
  | Some (payload, expires_at) => if (now <? expires_at)%Z then Some payload else None
  | None => None
  end.

Definition put (s : store) (now : Z) (command : string * Z * json) : store :=
  let '(key, ttl, payload) := command in
  {| reachable := reachable s;
     entries := <[key := (payload, (now + ttl)%Z)]> (entries s) |}.

#[export] Instance backend : Backend := {|
  redis := store;
  redis_ping := λ s, if reachable s then Ok () else Raise ConnectionError;
  redis_get := λ s now key,
    if reachable s then (Ok (lookup_live s now key), s) else (Raise ConnectionError, s);
  redis_setex := λ s now key ttl payload,
    if negb (reachable s) then (Raise ConnectionError, s)
    else if (ttl <=? 0)%Z then (Raise ResponseError, s)
    else (Ok (), put s now (key, ttl, payload));
  redis_mget := λ s now keys,
    if reachable s then (Ok (map (lookup_live s now) keys), s)
    else (Raise ConnectionError, s);
  redis_pipeline_setex := λ s now commands,
    if negb (reachable s) then (Raise ConnectionError, s)
    else if forallb (λ c : string * Z * json, (0 <? c.1.2)%Z) commands
    then (Ok (map (λ _, true) commands), foldl (λ s c, put s now c) s commands)
    else (Raise ResponseError, s);
|}.

Definition empty_store (up : bool) : store := {| reachable := up; entries := ∅ |}.

End InMemory.


(** ** metric_registry.py: DataProvider *)

(** Python's [None] as a loader result. *)
Abbreviation PNone := (PJson JNull).

Module DataProvider.

(** A provider object. [loader_func] is the external loader: it may keep
    state of its own, so its outcome is a function of how many times it has
    been invoked before, next to its arguments (metric, asset, keyword
    options). [calls] counts those invocations; it is the only field that
    the Python object does not have. *)
Record t : Type := {
  name : string;
  priority : Z;
  loader_func : nat → string → string → list (string * json) → outcome pyvalue;
  available_metrics : list string;
  requires_api_key : bool;
  failure_count : Z;
  last_success : option Z;
  is_healthy : bool;
  calls : nat;
}.

(** [__init__(name, priority, loader_func, available_metrics, requires_api_key=False)]. *)
Definition init (name : string) (priority : Z)
    (loader_func : nat → string → string → list (string * json) → outcome pyvalue)
    (available_metrics : list string) (requires_api_key : bool) : t :=
  {| name := name; priority := priority; loader_func := loader_func;
     available_metrics := available_metrics; requires_api_key := requires_api_key;
     failure_count := 0; last_success := None; is_healthy := true; calls := 0 |}.

(** [can_provide(metric)]. *)
Definition can_provide (p : t) (metric : string) : bool :=
  bool_decide (metric ∈ available_metrics p) && is_healthy p.

(** [record_success()], at clock reading [now]. *)
Definition record_success (p : t) (now : Z) : t :=
  {| name := name p; priority := priority p; loader_func := loader_func p;
     available_metrics := available_metrics p; requires_api_key := requires_api_key p;
     failure_count := 0; last_success := Some now; is_healthy := true; calls := calls p |}.

(** [record_failure()]. *)
Definition record_failure (p : t) : t :=
  let failure_count' := (failure_count p + 1)%Z in
  {| name := name p; priority := priority p; loader_func := loader_func p;
     available_metrics := available_metrics p; requires_api_key := requires_api_key p;
     failure_count := failure_count';
     last_success := last_success p;
     is_healthy := if (3 <=? failure_count')%Z then false else is_healthy p;
     calls := calls p |}.

(** [reset_health()]. *)
Definition reset_health (p : t) : t :=
  {| name := name p; priority := priority p; loader_func := loader_func p;
     available_metrics := available_metrics p; requires_api_key := requires_api_key p;
     failure_count := 0; last_success := last_success p; is_healthy := true;
     calls := calls p |}.

(** What the loader returns on its next invocation. *)
Definition loader_result (p : t) (metric asset : string) (kwargs : list (string * json))
  : outcome pyvalue :=
  loader_func p (calls p) metric asset kwargs.

(** The provider after its loader has been invoked once more. *)
Definition invoked (p : t) : t :=
  {| name := name p; priority := priority p; loader_func := loader_func p;
     available_metrics := available_metrics p; requires_api_key := requires_api_key p;
     failure_count := failure_count p; last_success := last_success p;
     is_healthy := is_healthy p; calls := S (calls p) |}.

(** The three operations that change the health state. *)
Inductive health_op : Type :=
| RecordSuccess (now : Z)
| RecordFailure
| ResetHealth.

Definition apply_op (p : t) (op : health_op) : t :=
  match op with
  | RecordSuccess now => record_success p now
  | RecordFailure => record_failure p
  | ResetHealth => reset_health p
  end.

Definition run (p : t) (ops : list health_op) : t := foldl apply_op p ops.

End DataProvider.


(** ** metric_registry.py: MetricRegistry.get_metric *)

(** One invocation of a provider's loader: the provider (its position in
    [self.providers], which identifies the object) and the request. *)
Record LoaderCall : Type := {
  call_provider : nat;
  call_metric : string;
  call_asset : string;
}.

Global Instance LoaderCall_eq_dec : EqDecision LoaderCall.
Proof. solve_decision. Defined.

Module Fallback.
Import DataProvider.

(** The sort key [(x.priority, x.failure_count)] and the order of Python
    tuples on it. *)
Definition sort_key (p : DataProvider.t) : Z * Z := (priority p, failure_count p).

Definition key_le (a b : Z * Z) : bool :=
  (a.1 <? b.1)%Z || ((a.1 =? b.1)%Z && (a.2 <=? b.2)%Z).

(** [list.sort(key=...)] is stable: the elements are inserted from the last
    to the first, each in front of the first element whose key is not
    smaller than its own. *)
Fixpoint insert_by_key {A} (key : A → Z * Z) (x : A) (l : list A) : list A :=
  match l with
  | [] => [x]
  | y :: l' => if key_le (key x) (key y) then x :: l else y :: insert_by_key key x l'
  end.

Definition sort_by_key {A} (key : A → Z * Z) (l : list A) : list A :=
  foldr (insert_by_key key) [] l.

(** Every provider object with its position in the list. *)
Definition enumerate (providers : list DataProvider.t) : list (nat * DataProvider.t) :=
  imap (λ i p, (i, p)) providers.

(** [available_providers]: the providers that can supply the metric,
    sorted; the keys are those the providers have when the list is built. *)
Definition available_providers (providers : list DataProvider.t) (metric : string)
  : list (nat * DataProvider.t) :=
  sort_by_key (λ ip, sort_key ip.2)
    (filter (λ ip, can_provide ip.2 metric = true) (enumerate providers)).

(** [result is not None and not (isinstance(result, pd.DataFrame) and result.empty)]. *)
Definition non_empty (result : pyvalue) : bool :=
  negb (is_none result) && negb (is_empty_frame result).

(** The [for provider in available_providers] loop of [get_metric]. The
    list holds references to the provider objects, so what the loop does to
    a provider is done to the entry of [providers] at its position. *)
Fixpoint try_providers (metric asset : string) (kwargs : list (string * json)) (now : Z)
    (available : list nat) (providers : list DataProvider.t)
  : pyvalue * list DataProvider.t * list LoaderCall :=
  match available with
  | [] => (PNone, providers, [])
  | i :: available' =>
      match providers !! i with
      | None => try_providers metric asset kwargs now available' providers
      | Some provider =>
          let call := {| call_provider := i; call_metric := metric; call_asset := asset |} in
          match loader_result provider metric asset kwargs with
          | Ok result =>
              if non_empty result then
                (result, <[i := record_success (invoked provider) now]> providers, [call])
              else
                let '(r, ps, calls) :=
                  try_providers metric asset kwargs now available'
                    (<[i := invoked provider]> providers) in
                (r, ps, call :: calls)
          | Raise _ =>
              let '(r, ps, calls) :=
                try_providers metric asset kwargs now available'
                  (<[i := record_failure (invoked provider)]> providers) in
              (r, ps, call :: calls)
          end
      end
  end.

(** [get_metric(metric, asset, **kwargs)] on the provider list: the value
    returned ([PNone] for [None]), the providers afterwards and the loader
    invocations made, in order. *)
Definition get_metric (providers : list DataProvider.t) (metric asset : string)
    (kwargs : list (string * json)) (now : Z)
  : outcome pyvalue * list DataProvider.t * list LoaderCall :=
  let available_providers := available_providers providers metric in
  match available_providers with
  | [] => (Ok PNone, providers, [])
  | _ =>
      let '(result, providers', calls) :=
        try_providers metric asset kwargs now (available_providers.*1) providers in
      (Ok result, providers', calls)
  end.

End Fallback.


(** ** metric_registry.py: BatchOptimizer *)

Module BatchOptimizer.
Import DataProvider.

(** The request identifier [f"{metric}:{asset}"]. *)
Definition request_id (metric asset : string) : string := metric +:+ ":" +:+ asset.

(** [provider_groups[name].append(request)], creating the group when the
    name is new. *)
Fixpoint group_append (name : string) (request : string * string)
    (provider_groups : list (string * list (string * string)))
  : list (string * list (string * string)) :=
  match provider_groups with
  | [] => [(name, [request])]
  | (name', requests) :: provider_groups' =>
      if String.eqb name name' then (name', requests ++ [request]) :: provider_groups'
      else (name', requests) :: group_append name request provider_groups'
  end.

(** [group_by_provider(requests, providers)]: a request goes to the group
    of the first provider of its sorted eligible list, and to no group when
    that list is empty. *)
Definition group_by_provider (requests : list (string * string))
    (providers : list DataProvider.t) : list (string * list (string * string)) :=
  foldl (λ provider_groups request,
           match Fallback.available_providers providers request.1 with
           | [] => provider_groups
           | best_provider :: _ => group_append (name best_provider.2) request provider_groups
           end)
        [] requests.

(** [optimize_cache_keys(requests)]. *)
Definition optimize_cache_keys (requests : list (string * string))
  : list (string * option (list (string * json))) :=
  map (λ request,
         ("metric_" +:+ request.1,
          Some [("asset", JStr request.2); ("metric", JStr request.1)]))
      requests.

(** The loop of [detect_redundant_requests]. *)
Fixpoint detect_loop (requests unique_requests : list (string * string))
    (redundancy_map : gmap string string) (seen : gset string)
  : list (string * string) * gmap string string :=
  match requests with
  | [] => (unique_requests, redundancy_map)
  | (metric, asset) :: requests' =>
      let request_key := request_id metric asset in
      if bool_decide (request_key ∈ seen) then
        detect_loop requests' unique_requests
          (<[request_key := request_key]> redundancy_map) seen
      else
        detect_loop requests' (unique_requests ++ [(metric, asset)])
          redundancy_map ({[request_key]} ∪ seen)
  end.

(** [detect_redundant_requests(requests)]. *)
Definition detect_redundant_requests (requests : list (string * string))
  : list (string * string) * gmap string string :=
  detect_loop requests [] ∅ ∅.

End BatchOptimizer.

(** ** metric_registry.py: MetricRegistry.get_metrics_batch *)

Module MetricRegistry.
Import DataProvider BatchOptimizer.

(** The [batch_stats] dictionary; the running mean is kept as an exact
    rational. *)
Record batch_stats : Type := {
  total_batch_requests : Z;
  cache_hits_in_batch : Z;
  provider_calls_saved : Z;
  average_batch_size : Qcanon.Qc;
  concurrent_requests : Z;
}.

(** [_execute_provider_batch(provider, requests)] for the provider at
    position [i]: the results so far, the provider and the loader
    invocations are carried through the loop. *)
Fixpoint _execute_provider_batch (now : Z) (i : nat) (provider : DataProvider.t)
    (requests : list (string * string)) (results : list (string * pyvalue))
  : list (string * pyvalue) * DataProvider.t * list LoaderCall :=
  match requests with
  | [] => (results, provider, [])
  | (metric, asset) :: requests' =>
      let request_id := request_id metric asset in
      let call := {| call_provider := i; call_metric := metric; call_asset := asset |} in
      let '(results, provider) :=
        match loader_result provider metric asset [] with
        | Ok result =>
            if negb (is_none result)
            then (dict_set request_id result results, record_success (invoked provider) now)
            else (dict_set request_id PNone results, invoked provider)
        | Raise _ =>
            (dict_set request_id PNone results, record_failure (invoked provider))
        end in
      let '(results, provider, calls) :=
        _execute_provider_batch now i provider requests' results in
      (results, provider, call :: calls)
  end.

(** The tasks of [_execute_provider_batches], one per provider group. Each
    task works on a provider of its own (group names are distinct and a
    name selects the first provider that bears it) and writes keys of its
    own, so the tasks are run here one after the other, in the order they
    are submitted, and their results merged in that order. [completed] counts
    the results for [batch_stats['concurrent_requests']]. *)
Fixpoint run_provider_groups (now : Z) (provider_groups : list (string * list (string * string)))
    (providers : list DataProvider.t) (results : list (string * pyvalue)) (completed : Z)
  : list (string * pyvalue) * list DataProvider.t * Z * list LoaderCall :=
  match provider_groups with
  | [] => (results, providers, completed, [])
  | (provider_name, provider_requests) :: provider_groups' =>
      match list_find (λ p, name p = provider_name) providers with
      | None => run_provider_groups now provider_groups' providers results completed
      | Some (i, provider) =>
          let '(provider_results, provider', calls) :=
            _execute_provider_batch now i provider provider_requests [] in
          let '(results', providers', completed', calls') :=
            run_provider_groups now provider_groups' (<[i := provider']> providers)
              (dict_update results provider_results)
              (completed + Z.of_nat (length provider_results))%Z in
          (results', providers', completed', calls ++ calls')
      end
  end.

(** [_execute_provider_batches(provider_groups, max_concurrent)];
    [ThreadPoolExecutor] rejects a pool size below one with [ValueError]. *)
Definition _execute_provider_batches (now : Z)
    (provider_groups : list (string * list (string * string))) (max_concurrent : Z)
    (providers : list DataProvider.t)
  : outcome (list (string * pyvalue)) * list DataProvider.t * Z * list LoaderCall :=
  if (max_concurrent <=? 0)%Z then (Raise ValueError, providers, 0%Z, [])
  else
    let '(results, providers', completed, calls) :=
      run_provider_groups now provider_groups providers [] 0 in
    (Ok results, providers', completed, calls).

(** [metric, asset = request_id.split(':')]: [ValueError] unless the
    identifier has exactly two parts. *)
Definition split_request_id (request_id : string) : outcome (string * string) :=
  match Str.split ":"%char request_id with
  | [metric; asset] => Ok (metric, asset)
  | _ => Raise ValueError
  end.

(** The items that step 4 of [get_metrics_batch] hands to [set_batch]. *)
Fixpoint cache_items_of (fresh_results : list (string * pyvalue))
  : outcome (list (string * pyvalue * option (list (string * json)) * option Z)) :=
  match fresh_results with
  | [] => Ok []
  | (request_id, data) :: fresh_results' =>
      if negb (is_none data) then
        '(metric, asset) ← split_request_id request_id;
        cache_items ← cache_items_of fresh_results';
        Ok (("metric_" +:+ metric, data,
             Some [("asset", JStr asset); ("metric", JStr metric)], None) :: cache_items)
      else cache_items_of fresh_results'
  end.

Section Registry.
Context `{BE : Backend}.

Record t : Type := {
  providers : list DataProvider.t;
  cache : CryptoCacheManager.t;
  stats : batch_stats;
}.

(** The key under which [get_metrics_batch] looks a request up in the
    result of [get_batch]. *)
Definition batch_cache_key (metric asset : string) : string :=
  "metric_" +:+ metric +:+ ":"
    +:+ hash_str (Some [("asset", JStr asset); ("metric", JStr metric)]).

(** Step 1 of [get_metrics_batch]: the loop over the requests that takes
    the cache hits and collects the remaining requests. The count of hits
    is returned also when an entry without a "data" field stops the loop. *)
Fixpoint take_cache_hits (cached_results : gmap string json) (requests : list (string * string))
    (results : list (string * pyvalue)) (hits : Z) (remaining_requests : list (string * string))
  : outcome (list (string * pyvalue) * list (string * string)) * Z :=
  match requests with
  | [] => (Ok (results, remaining_requests), hits)
  | (metric, asset) :: requests' =>
      let request_id := request_id metric asset in
      let cache_key := batch_cache_key metric asset in
      match cached_results !! cache_key with
      | Some JNull | None =>
          take_cache_hits cached_results requests' results hits
            (remaining_requests ++ [(metric, asset)])
      | Some entry =>
          match subscript entry "data" with
          | Ok data =>
              take_cache_hits cached_results requests'
                (dict_set request_id (PJson data) results) (hits + 1)%Z remaining_requests
          | Raise e => (Raise e, hits)
          end
      end
  end.

(** The two updates of [batch_stats] at the start of a batch. *)
Definition count_batch (s : batch_stats) (size : nat) : batch_stats :=
  let total := (total_batch_requests s + 1)%Z in
  {| total_batch_requests := total;
     cache_hits_in_batch := cache_hits_in_batch s;
     provider_calls_saved := provider_calls_saved s;
     average_batch_size :=
       Qcanon.Qcdiv
         (Qcanon.Qcplus (Qcanon.Qcmult (average_batch_size s) (Qc_of_Z (total - 1)))
            (Qc_of_Z (Z.of_nat size)))
         (Qc_of_Z total);
     concurrent_requests := concurrent_requests s |}.

Definition count_progress (s : batch_stats) (hits completed saved : Z) : batch_stats :=
  {| total_batch_requests := total_batch_requests s;
     cache_hits_in_batch := (cache_hits_in_batch s + hits)%Z;
     provider_calls_saved := (provider_calls_saved s + saved)%Z;
     average_batch_size := average_batch_size s;
     concurrent_requests := (concurrent_requests s + completed)%Z |}.

(** Step 4 of [get_metrics_batch]: the fresh results that are not [None]
    are written to the cache in one batch. *)
Definition cache_fresh_results (c : CryptoCacheManager.t) (now : Z) (use_cache : bool)
    (fresh_results : list (string * pyvalue)) : outcome CryptoCacheManager.t :=
  match use_cache, fresh_results with
  | true, _ :: _ =>
      cache_items ← cache_items_of fresh_results;
      match cache_items with
      | [] => Ok c
      | _ => Ok (CryptoCacheManager.set_batch c now cache_items).2
      end
  | _, _ => Ok c
  end.

(** Steps 2 to 5 of [get_metrics_batch], on the requests that the cache
    did not answer: de-duplication, grouping, execution, write-back of the
    fresh results and the merge into [results]. *)
Definition fetch_remaining (reg : t) (now : Z) (use_cache : bool) (max_concurrent : Z)
    (stats1 : batch_stats) (hits saved_calls : Z) (cache1 : CryptoCacheManager.t)
    (results : list (string * pyvalue)) (remaining_requests : list (string * string))
  : outcome (list (string * pyvalue)) * t * list LoaderCall :=
  match remaining_requests with
  | [] =>
      (Ok results,
       {| providers := providers reg; cache := cache1;
          stats := count_progress stats1 hits 0 saved_calls |}, [])
  | _ =>
      let '(unique_requests, redundancy_map) :=
        detect_redundant_requests remaining_requests in
      let provider_groups := group_by_provider unique_requests (providers reg) in
      let '(fresh_results, providers', completed, calls) :=
        _execute_provider_batches now provider_groups max_concurrent (providers reg) in
      match fresh_results with
      | Raise e =>
          (Raise e,
           {| providers := providers'; cache := cache1;
              stats := count_progress stats1 hits completed 0 |}, calls)
      | Ok fresh_results =>
          match cache_fresh_results cache1 now use_cache fresh_results with
          | Raise e =>
              (Raise e,
               {| providers := providers'; cache := cache1;
                  stats := count_progress stats1 hits completed 0 |}, calls)
          | Ok cache2 =>
              (Ok (dict_update results fresh_results),
               {| providers := providers'; cache := cache2;
                  stats := count_progress stats1 hits completed saved_calls |}, calls)
          end
      end
  end.

(** [get_metrics_batch(requests, use_cache=True, max_concurrent=5)]: the
    result dictionary or the exception raised, the registry afterwards and
    the loader invocations made. *)
Definition get_metrics_batch (reg : t) (now : Z) (requests : list (string * string))
    (use_cache : bool) (max_concurrent : Z)
  : outcome (list (string * pyvalue)) * t * list LoaderCall :=
  match requests with
  | [] => (Ok [], reg, [])
  | _ =>
      let stats1 := count_batch (stats reg) (length requests) in
      let '(step1, hits, cache1) :=
        if use_cache then
          let cache_requests := optimize_cache_keys requests in
          let '(cached_results, cache1) :=
            CryptoCacheManager.get_batch (cache reg) now cache_requests in
          (take_cache_hits cached_results requests [] 0 [], cache1)
        else (Ok ([], requests), 0%Z, cache reg) in
      match step1 with
      | Raise e =>
          (Raise e,
           {| providers := providers reg; cache := cache1;
              stats := count_progress stats1 hits 0 0 |}, [])
      | Ok (results, remaining_requests) =>
          let saved_calls := (Z.of_nat (length requests)
                              - Z.of_nat (length remaining_requests))%Z in
          fetch_remaining reg now use_cache max_concurrent stats1 hits saved_calls cache1
            results remaining_requests
      end
  end.

(** [get_metric(metric, asset, **kwargs)] as a method of the registry. *)
Definition get_metric (reg : t) (now : Z) (metric asset : string)
    (kwargs : list (string * json)) : outcome pyvalue * t * list LoaderCall :=
  let '(result, providers', calls) :=
    Fallback.get_metric (providers reg) metric asset kwargs now in
  (result, {| providers := providers'; cache := cache reg; stats := stats reg |}, calls).

End Registry.
End MetricRegistry.

(** ** Properties of the TTL policy *)

Module TTLProps.
Import SmartTTLStrategy.

Lemma TTL_MAPPING_values v :
  TTL_MAPPING v ∈ [10%Z; 30%Z; 60%Z; 300%Z; 900%Z].
Proof. destruct v; cbn; set_solver. Qed.

Lemma TTL_MAPPING_bounds v : (10 ≤ TTL_MAPPING v ≤ 900)%Z.
Proof. destruct v; cbn; lia. Qed.

(** C3: [get_ttl] is the base TTL of the tag's volatility class
    (10/30/60/300/900 s, MEDIUM = 60 s for an unmapped tag), doubled when
    [market_hours] is false, then halved and floored at 5 s when
    [high_volatility_period] is true; and the off-hours TTL of
    "network_metrics" is 600 s. *)
Theorem get_ttl_resolves (tag : string) (market_hours high_volatility_period : bool) :
  get_ttl tag market_hours high_volatility_period
    = TTLSpec.resolve_ttl tag market_hours high_volatility_period
  ∧ TTL_MAPPING (TTLSpec.class_of tag) ∈ [10%Z; 30%Z; 60%Z; 300%Z; 900%Z]
  ∧ TTL_MAPPING (TTLSpec.class_of tag)
      = match dict_get tag DATA_TYPE_VOLATILITY with
        | Some c => TTL_MAPPING c
        | None => 60%Z
        end
  ∧ get_ttl "network_metrics" false false = 600%Z.
Proof.
  split; [|split; [apply TTL_MAPPING_values|split; [|reflexivity]]].
  - unfold get_ttl, TTLSpec.resolve_ttl, TTLSpec.class_of, dict_get_default,
      TTLSpec.double_off_hours, TTLSpec.halve_with_floor, int_times_half.
    pose proof (TTL_MAPPING_bounds
      (match dict_get tag DATA_TYPE_VOLATILITY with Some c => c | None => MEDIUM end)).
    set (b := TTL_MAPPING _) in *.
    destruct market_hours, high_volatility_period; cbn [negb];
      rewrite ?Z.quot_div_nonneg by lia; rewrite ?(Z.mul_comm b 2); reflexivity.
  - unfold TTLSpec.class_of. destruct (dict_get tag DATA_TYPE_VOLATILITY); reflexivity.
Qed.

(** Every TTL that [get_ttl] returns is at least 5 seconds, and at least
    10 seconds outside a high-volatility period. *)
Lemma get_ttl_lower_bound (tag : string) (market_hours high_volatility_period : bool) :
  (5 ≤ get_ttl tag market_hours high_volatility_period)%Z
  ∧ (10 ≤ get_ttl tag market_hours false)%Z.
Proof.
  unfold get_ttl.
  pose proof (TTL_MAPPING_bounds (dict_get_default tag MEDIUM DATA_TYPE_VOLATILITY)).
  split.
  - destruct market_hours, high_volatility_period; cbn [negb];
      first [apply Z.le_max_r | lia].
  - destruct market_hours; cbn [negb]; lia.
Qed.

End TTLProps.

(** ** Properties of the cache manager *)

Module CacheProps.
Import CryptoCacheManager.
Import InMemory (reachable, entries).

Section AnyBackend.
Context `{BE : Backend}.

Lemma get_returns (m : t) now endpoint params :
  ∃ v, (get m now endpoint params).1 = Ok v.
Proof.
  unfold get. destruct (cache_enabled m); cbn [negb]; [|by eexists].
  destruct (redis_get _ _ _) as [[[w|]|e] r]; cbn; try by eexists.
  destruct (wire_truthy w); [|by eexists].
  destruct (json_loads w); by eexists.
Qed.

Lemma set_returns (m : t) now endpoint data params ttl :
  ∃ b, (set m now endpoint data params ttl).1 = Ok b.
Proof.
  unfold set. destruct (cache_enabled m); cbn [negb]; [|by eexists].
  destruct (json_dumps _); [|by eexists].
  destruct (redis_setex _ _ _ _ _) as [[u|e] r]; by eexists.
Qed.

(** C6: a cache whose backend was unreachable at start-up is disabled;
    a disabled cache, or one whose backend operation raises, makes [get]
    return a miss ([None]) and [set] return [False]; and neither ever
    raises, whatever the backend and the JSON codec do. *)
Theorem cache_failures_absorbed (m : t) (now : Z) (endpoint : string)
    (data : pyvalue) (params : option (list (string * json))) (ttl : option Z) :
  let cache_key := _generate_cache_key endpoint (or_empty params) in
  let ttl_used := resolve_ttl now endpoint params ttl in
  (∀ r default, is_raise (redis_ping r) = true →
     cache_enabled (init r default) = false)
  ∧ (cache_enabled m = false ∨ is_raise (redis_get (redis_client m) now cache_key).1 = true →
     (get m now endpoint params).1 = Ok JNull)
  ∧ (cache_enabled m = false
     ∨ (∀ payload, is_raise (redis_setex (redis_client m) now cache_key ttl_used payload).1 = true) →
     (set m now endpoint data params ttl).1 = Ok false)
  ∧ (∃ v, (get m now endpoint params).1 = Ok v)
  ∧ (∃ b, (set m now endpoint data params ttl).1 = Ok b).
Proof.
  intros cache_key ttl_used.
  split; [|split; [|split; [|split]]].
  - intros r default Hping. unfold init. cbn. by rewrite Hping.
  - unfold get. fold cache_key. intros [->|Hraise]; [done|].
    destruct (cache_enabled m); cbn [negb]; [|done].
    destruct (redis_get _ _ _) as [[o|e] r]; cbn in Hraise; [done|].
    reflexivity.
  - unfold set. fold cache_key ttl_used. intros [->|Hraise]; [done|].
    destruct (cache_enabled m); cbn [negb]; [|done].
    destruct (json_dumps _) as [payload|e]; [|done].
    specialize (Hraise payload).
    destruct (redis_setex _ _ _ _ _) as [[u|e] r]; cbn in Hraise; done.
  - apply get_returns.
  - apply set_returns.
Qed.

(** C10 (as amended): [get_ttl] returns at least 5 seconds for every tag and
    every pair of flags, and at least 10 seconds when
    [high_volatility_period] is false, so an entry that [set] or [set_batch]
    writes without an explicit [ttl] has a TTL of at least 5 seconds; an
    explicit [ttl] is handed to the backend as it is. *)
Theorem resolved_ttl_lower_bound (tag : string) (market_hours high_volatility_period : bool)
    (now : Z) (endpoint : string) (params : option (list (string * json))) (ttl : Z) :
  (5 ≤ SmartTTLStrategy.get_ttl tag market_hours high_volatility_period)%Z
  ∧ (10 ≤ SmartTTLStrategy.get_ttl tag market_hours false)%Z
  ∧ (5 ≤ resolve_ttl now endpoint params None)%Z
  ∧ resolve_ttl now endpoint params (Some ttl) = ttl.
Proof.
  destruct (TTLProps.get_ttl_lower_bound tag market_hours high_volatility_period)
    as [Hfloor Hcalm].
  split_and!; [done..| |done].
  unfold resolve_ttl. apply TTLProps.get_ttl_lower_bound.
Qed.

(** The two contracts that a cache round trip rests on: [json.loads]
    inverts [json.dumps] (whose output is never the empty string), and the
    backend returns a stored payload until its TTL has elapsed. *)
Definition codec_round_trips : Prop :=
  ∀ (j : json) (payload : wire),
    json_dumps j = Ok payload →
    json_loads payload = Ok j ∧ wire_truthy payload = true.

Definition backend_keeps_entries : Prop :=
  ∀ (r r' : redis) (now later ttl : Z) (key : string) (payload : wire),
    redis_setex r now key ttl payload = (Ok (), r') →
    (now ≤ later < now + ttl)%Z →
    (redis_get r' later key).1 = Ok (Some payload).

Lemma set_true_inv (m m' : t) now endpoint data params ttl :
  set m now endpoint data params ttl = (Ok true, m') →
  ∃ payload r,
    cache_enabled m = true
    ∧ json_dumps (cache_data now endpoint data params (resolve_ttl now endpoint params ttl))
      = Ok payload
    ∧ redis_setex (redis_client m) now (_generate_cache_key endpoint (or_empty params))
        (resolve_ttl now endpoint params ttl) payload = (Ok (), r)
    ∧ m' = count_sets 1 (with_redis m r).
Proof.
  unfold set. destruct (cache_enabled m); cbn [negb]; [|intros [=]].
  destruct (json_dumps _) as [payload|e]; [|intros [=]].
  destruct (redis_setex _ _ _ _ _) as [[[]|e] r] eqn:Hsetex; intros [= <-].
  by exists payload, r.
Qed.

(** C7 (as amended): with a working codec and backend, a [set] that
    succeeded, followed by a [get] of the same endpoint and parameters before
    the resolved TTL has elapsed, returns the stored entry, the payload
    together with its metadata, whose "data" field is the value that was
    set. *)
Theorem get_after_set_returns_entry (m m' : t) (now later : Z) (endpoint : string)
    (data : pyvalue) (params : option (list (string * json))) (ttl : option Z) :
  codec_round_trips →
  backend_keeps_entries →
  set m now endpoint data params ttl = (Ok true, m') →
  (now ≤ later < now + resolve_ttl now endpoint params ttl)%Z →
  (get m' later endpoint params).1
    = Ok (cache_data now endpoint data params (resolve_ttl now endpoint params ttl))
  ∧ subscript (cache_data now endpoint data params (resolve_ttl now endpoint params ttl)) "data"
    = Ok (default_str data)
  ∧ (∀ v, data = PJson v → default_str data = v).
Proof.
  intros Hcodec Hbackend Hset Hlater. split; [|split; [reflexivity|by intros v ->]].
  apply set_true_inv in Hset as (payload & r & Hen & Hdumps & Hsetex & ->).
  apply Hcodec in Hdumps as [Hloads Htruthy].
  pose proof (Hbackend _ _ _ _ _ _ _ Hsetex Hlater) as Hget.
  unfold get. cbn [cache_enabled count_sets with_stats with_redis redis_client].
  rewrite Hen. cbn [negb].
  destruct (redis_get r later _) as [got r'']. cbn in Hget. subst got.
  by rewrite Htruthy, Hloads.
Qed.

End AnyBackend.

(** An unreachable in-process backend, a manager built on it, and one
    whose backend went away after start-up. *)
Definition down_manager : t (BE := InMemory.backend) :=
  init (BE := InMemory.backend) (InMemory.empty_store false) 60.
Definition lost_manager : t (BE := InMemory.backend) :=
  with_redis (init (BE := InMemory.backend) (InMemory.empty_store true) 60)
    (InMemory.empty_store false).

Lemma cache_failures_absorbed_witness :
  cache_enabled down_manager = false
  ∧ cache_enabled lost_manager = true
  ∧ (get lost_manager 0 "price" (Some [("asset", JStr "BTC")])).1 = Ok JNull
  ∧ (set lost_manager 0 "price" (PJson (JNum 7)) (Some [("asset", JStr "BTC")]) None).1
    = Ok false.
Proof.
  pose proof (cache_failures_absorbed lost_manager 0 "price" (PJson (JNum 7))
                (Some [("asset", JStr "BTC")]) None) as (Hinit & Hget & Hset & _).
  split; [|split; [|split]].
  - apply (Hinit (InMemory.empty_store false) 60%Z). reflexivity.
  - reflexivity.
  - apply Hget. right. reflexivity.
  - apply Hset. right. intros payload. reflexivity.
Defined.

Lemma in_memory_codec_round_trips : codec_round_trips (H := InMemory.runtime).
Proof. intros j payload [= <-]. done. Qed.

Lemma in_memory_backend_keeps_entries : backend_keeps_entries (BE := InMemory.backend).
Proof.
  intros [up stored] r' now later ttl key payload. cbn.
  destruct up; cbn; [|intros [=]].
  destruct (ttl <=? 0)%Z; [intros [=]|]. intros [= <-] Hlater.
  unfold InMemory.lookup_live. cbn. rewrite lookup_insert_eq.
  destruct (Z.ltb_spec later (now + ttl)); [done|lia].
Qed.

(** A manager on a reachable, empty in-process backend. *)
Definition fresh_manager : t (BE := InMemory.backend) :=
  init (BE := InMemory.backend) (InMemory.empty_store true) 60.

Lemma get_after_set_returns_entry_witness :
  (get (set fresh_manager 0 "price" (PJson (JNum 7)) (Some [("asset", JStr "BTC")]) None).2
       29 "price" (Some [("asset", JStr "BTC")])).1
  = Ok (JObj [ ("data", JNum 7); ("cached_at", JStr "<utcnow>"); ("endpoint", JStr "price");
               ("params", JObj [("asset", JStr "BTC")]); ("data_type", JStr "price_data");
               ("ttl_used", JNum 60) ]).
Proof.
  refine (proj1 (get_after_set_returns_entry fresh_manager _ 0 29 "price" (PJson (JNum 7))
                   (Some [("asset", JStr "BTC")]) None
                   in_memory_codec_round_trips in_memory_backend_keeps_entries _ _)).
  - reflexivity.
  - split; [lia|]. vm_compute. reflexivity.
Defined.

(** C7 as stated fails: what [get] returns after [set] is the whole stored
    entry, not the value that was set. *)
Lemma get_after_set_is_not_the_value :
  let params := Some [("asset", JStr "BTC")] in
  let after := set fresh_manager 0 "price" (PJson (JNum 7)) params None in
  after.1 = Ok true
  ∧ (get after.2 0 "price" params).1 ≠ Ok (JNum 7)
  ∧ (get after.2 0 "price" params).1
    = Ok (JObj [ ("data", JNum 7); ("cached_at", JStr "<utcnow>"); ("endpoint", JStr "price");
                 ("params", JObj [("asset", JStr "BTC")]); ("data_type", JStr "price_data");
                 ("ttl_used", JNum 60) ]).
Proof. vm_compute. repeat split. intros [=]. Qed.

(** C10 as stated fails in its last part: [set] with an explicit [ttl] of
    one second succeeds and the entry is stored for one second. *)
Lemma explicit_ttl_below_floor :
  let params := Some [("asset", JStr "BTC")] in
  let after := set fresh_manager 0 "price" (PJson (JNum 7)) params (Some 1%Z) in
  after.1 = Ok true
  ∧ (get after.2 0 "price" params).1
    = Ok (JObj [ ("data", JNum 7); ("cached_at", JStr "<utcnow>"); ("endpoint", JStr "price");
                 ("params", JObj [("asset", JStr "BTC")]); ("data_type", JStr "price_data");
                 ("ttl_used", JNum 1) ])
  ∧ (get after.2 1 "price" params).1 = Ok JNull.
Proof. vm_compute. done. Qed.

End CacheProps.

(** ** Properties of provider health tracking *)

Module HealthProps.
Import DataProvider.

(** On every state reached from a fresh provider, the provider is healthy
    exactly when fewer than three failures are counted. *)
Definition health_inv (p : t) : Prop :=
  (0 ≤ failure_count p)%Z ∧ is_healthy p = bool_decide (failure_count p < 3)%Z.

Lemma health_inv_init name priority loader metrics key :
  health_inv (init name priority loader metrics key).
Proof. split; cbn; [lia|done]. Qed.

Lemma health_inv_step p op : health_inv p → health_inv (apply_op p op).
Proof.
  intros [Hnonneg Hhealthy]. destruct op; cbn; [by split| |by split].
  split; cbn; [lia|]. rewrite Hhealthy.
  destruct (Z.leb_spec 3 (failure_count p + 1)); repeat case_bool_decide; try done; lia.
Qed.

Lemma health_inv_run p ops : health_inv p → health_inv (run p ops).
Proof.
  unfold run. revert p. induction ops as [|op ops IH]; intros p Hp; [done|].
  cbn. apply IH. by apply health_inv_step.
Qed.

(** C2: after every sequence of [record_success], [record_failure] and
    [reset_health] from the initial state, a failure count of three or more
    goes with [is_healthy = False]; [record_success] and [reset_health] set
    the count to zero and the provider healthy from any state;
    [record_failure] adds one to the count and can turn a healthy provider
    unhealthy but never an unhealthy one healthy. *)
Theorem health_state_invariant (name : string) (priority : Z)
    (loader : nat → string → string → list (string * json) → outcome pyvalue)
    (metrics : list string) (key : bool) (ops : list health_op) (any : t) (now : Z) :
  let fresh := init name priority loader metrics key in
  failure_count fresh = 0%Z ∧ is_healthy fresh = true
  ∧ (if bool_decide (3 ≤ failure_count (run fresh ops))%Z
     then is_healthy (run fresh ops) = false
     else is_healthy (run fresh ops) = true)
  ∧ failure_count (record_success any now) = 0%Z
  ∧ is_healthy (record_success any now) = true
  ∧ failure_count (record_failure any) = (failure_count any + 1)%Z
  ∧ is_healthy (record_failure any)
    = is_healthy any && bool_decide (failure_count any + 1 < 3)%Z
  ∧ failure_count (reset_health any) = 0%Z
  ∧ is_healthy (reset_health any) = true.
Proof.
  intros fresh. repeat split.
  - destruct (health_inv_run fresh ops (health_inv_init _ _ _ _ _)) as [_ ->].
    repeat case_bool_decide; try done; lia.
  - cbn. destruct (Z.leb_spec 3 (failure_count any + 1)); case_bool_decide;
      rewrite ?andb_true_r, ?andb_false_r; try done; lia.
Qed.

End HealthProps.

(** ** Properties of the fallback in [get_metric] *)

Module FallbackProps.
Import DataProvider Fallback.

Lemma key_le_total a b : key_le a b = false → key_le b a = true.
Proof.
  unfold key_le. destruct a as [a1 a2], b as [b1 b2]. cbn.
  destruct (Z.ltb_spec a1 b1), (Z.ltb_spec b1 a1), (Z.eqb_spec a1 b1), (Z.eqb_spec b1 a1),
    (Z.leb_spec a2 b2), (Z.leb_spec b2 a2); cbn; try done; lia.
Qed.

Lemma key_le_trans a b c : key_le a b = true → key_le b c = true → key_le a c = true.
Proof.
  unfold key_le. destruct a as [a1 a2], b as [b1 b2], c as [c1 c2]. cbn.
  destruct (Z.ltb_spec a1 b1), (Z.ltb_spec b1 c1), (Z.ltb_spec a1 c1), (Z.eqb_spec a1 b1),
    (Z.eqb_spec b1 c1), (Z.eqb_spec a1 c1), (Z.leb_spec a2 b2), (Z.leb_spec b2 c2),
    (Z.leb_spec a2 c2); cbn; try done; lia.
Qed.

Section Sorting.
Context {A : Type} (key : A → Z * Z).

Definition key_order (x y : A) : Prop := key_le (key x) (key y) = true.

Lemma insert_by_key_perm x l : insert_by_key key x l ≡ₚ x :: l.
Proof.
  induction l as [|y l IH]; cbn; [done|].
  destruct (key_le _ _); [done|]. rewrite IH. apply Permutation_swap.
Qed.

Lemma sort_by_key_perm l : sort_by_key key l ≡ₚ l.
Proof.
  induction l as [|x l IH]; cbn; [done|].
  rewrite insert_by_key_perm. by f_equiv.
Qed.

Lemma insert_by_key_sorted x l :
  StronglySorted key_order l → StronglySorted key_order (insert_by_key key x l).
Proof.
  induction 1 as [|y l Hsorted IH Hall]; cbn; [repeat constructor|].
  destruct (key_le (key x) (key y)) eqn:Hxy.
  - constructor; [by constructor|]. constructor; [done|].
    eapply Forall_impl; [exact Hall|]. intros z Hz. by eapply key_le_trans.
  - constructor; [done|]. rewrite insert_by_key_perm.
    constructor; [|done]. by apply key_le_total.
Qed.

Lemma sort_by_key_sorted l : StronglySorted key_order (sort_by_key key l).
Proof.
  induction l as [|x l IH]; cbn; [constructor|]. by apply insert_by_key_sorted.
Qed.

End Sorting.

Lemma elem_of_enumerate ps i p : (i, p) ∈ enumerate ps ↔ ps !! i = Some p.
Proof.
  unfold enumerate. rewrite elem_of_lookup_imap. split.
  - by intros (j & q & [= -> ->] & Hq).
  - intros Hp. by exists i, p.
Qed.

Lemma enumerate_fst ps : (enumerate ps).*1 = seq 0 (length ps).
Proof.
  unfold enumerate. rewrite fmap_imap.
  rewrite <- (list_fmap_id (seq 0 (length ps))). apply (imap_seq_0 ps id).
Qed.

Lemma available_providers_perm ps metric :
  available_providers ps metric
    ≡ₚ filter (λ ip, can_provide ip.2 metric = true) (enumerate ps).
Proof. apply sort_by_key_perm. Qed.

Lemma available_providers_elem ps metric i p :
  (i, p) ∈ available_providers ps metric ↔ ps !! i = Some p ∧ can_provide p metric = true.
Proof.
  rewrite available_providers_perm, list_elem_of_filter, elem_of_enumerate. cbn. tauto.
Qed.

Lemma available_providers_NoDup ps metric : NoDup (available_providers ps metric).*1.
Proof.
  rewrite available_providers_perm.
  eapply sublist_NoDup; [|apply fmap_sublist, sublist_filter].
  rewrite enumerate_fst. apply NoDup_seq.
Qed.

Lemma available_providers_index ps metric i :
  i ∈ (available_providers ps metric).*1
  ↔ ∃ p, ps !! i = Some p ∧ can_provide p metric = true.
Proof.
  rewrite list_elem_of_fmap. split.
  - intros ([j p] & -> & Hin). exists p. by apply available_providers_elem.
  - intros (p & Hp & Hcan). exists (i, p). split; [done|]. by apply available_providers_elem.
Qed.

Lemma list_find_ext_elem {A} (P Q : A → Prop) `{!∀ x, Decision (P x)} `{!∀ x, Decision (Q x)}
    (l : list A) :
  (∀ x, x ∈ l → (P x ↔ Q x)) → list_find P l = list_find Q l.
Proof.
  induction l as [|x l IH]; intros Hext; [done|]. cbn.
  rewrite (decide_ext (P x) (Q x)) by (apply Hext; left).
  rewrite IH; [done|]. intros y Hy. apply Hext. by right.
Qed.

Section Request.
Context (metric asset : string) (kwargs : list (string * json)) (now : Z).

(** The non-empty value that the provider's loader returns when invoked
    next, if it returns one. *)
Definition delivered (p : DataProvider.t) : option pyvalue :=
  match loader_result p metric asset kwargs with
  | Ok v => if non_empty v then Some v else None
  | Raise _ => None
  end.

Definition delivers (ps : list DataProvider.t) (i : nat) : option pyvalue :=
  ps !! i ≫= delivered.

(** A provider after [get_metric] has tried it. *)
Definition after_call (p : DataProvider.t) : DataProvider.t :=
  match loader_result p metric asset kwargs with
  | Ok v => if non_empty v then record_success (invoked p) now else invoked p
  | Raise _ => record_failure (invoked p)
  end.

(** The provider list after the providers at the positions [tried] have
    been tried. *)
Definition settle (tried : list nat) (ps : list DataProvider.t) : list DataProvider.t :=
  imap (λ j p, if bool_decide (j ∈ tried) then after_call p else p) ps.

Definition call_of (i : nat) : LoaderCall :=
  {| call_provider := i; call_metric := metric; call_asset := asset |}.

(** The providers tried: all of them up to and including the first that
    delivers. *)
Definition tried_of (ps : list DataProvider.t) (l : list nat) : list nat :=
  match list_find (λ i, is_Some (delivers ps i)) l with
  | Some (k, _) => take (S k) l
  | None => l
  end.

Definition result_of (ps : list DataProvider.t) (l : list nat) : pyvalue :=
  match list_find (λ i, is_Some (delivers ps i)) l with
  | Some (_, i) => default PNone (delivers ps i)
  | None => PNone
  end.

Lemma settle_nil ps : settle [] ps = ps.
Proof.
  unfold settle. apply list_eq. intros j. rewrite list_lookup_imap.
  destruct (ps !! j); [|done]. cbn. by rewrite bool_decide_eq_false_2 by set_solver.
Qed.

Lemma settle_lookup tried ps j :
  settle tried ps !! j
  = (if bool_decide (j ∈ tried) then after_call <$> ps !! j else ps !! j).
Proof.
  unfold settle. rewrite list_lookup_imap.
  destruct (ps !! j); cbn; by case_bool_decide.
Qed.

Lemma settle_cons i p tried ps :
  ps !! i = Some p → i ∉ tried →
  settle tried (<[i := after_call p]> ps) = settle (i :: tried) ps.
Proof.
  intros Hp Hi. apply list_eq. intros j. rewrite !settle_lookup.
  destruct (decide (j = i)) as [->|Hne].
  - rewrite bool_decide_eq_false_2 by done.
    rewrite bool_decide_eq_true_2 by left.
    rewrite list_lookup_insert_eq by (by eapply lookup_lt_Some). by rewrite Hp.
  - rewrite list_lookup_insert_ne by done.
    rewrite (bool_decide_ext (j ∈ i :: tried) (j ∈ tried)); [done|].
    rewrite elem_of_cons. split; [by intros [|]|by right].
Qed.

Lemma delivers_insert_ne ps i q j : j ≠ i → delivers (<[i := q]> ps) j = delivers ps j.
Proof. intros Hne. unfold delivers. by rewrite list_lookup_insert_ne. Qed.

Lemma tried_of_subseteq ps l : tried_of ps l ⊆ l.
Proof.
  unfold tried_of. destruct (list_find _ l) as [[k i]|]; [|done].
  apply subseteq_take.
Qed.

Lemma tried_of_hit ps i l : is_Some (delivers ps i) → tried_of ps (i :: l) = [i].
Proof.
  intros Hhit. unfold tried_of. cbn [list_find]. rewrite decide_True by done.
  cbn. by rewrite take_0.
Qed.

Lemma result_of_hit ps i l :
  is_Some (delivers ps i) → result_of ps (i :: l) = default PNone (delivers ps i).
Proof. intros Hhit. unfold result_of. cbn [list_find]. by rewrite decide_True. Qed.

Lemma tried_of_miss ps i l : delivers ps i = None → tried_of ps (i :: l) = i :: tried_of ps l.
Proof.
  intros Hmiss. unfold tried_of. cbn [list_find].
  rewrite decide_False by (rewrite Hmiss; by intros [? [=]]).
  by destruct (list_find _ l) as [[k j]|].
Qed.

Lemma result_of_miss ps i l : delivers ps i = None → result_of ps (i :: l) = result_of ps l.
Proof.
  intros Hmiss. unfold result_of. cbn [list_find].
  rewrite decide_False by (rewrite Hmiss; by intros [? [=]]).
  by destruct (list_find _ l) as [[k j]|].
Qed.

Lemma list_find_delivers_insert ps i q l :
  i ∉ l →
  list_find (λ j, is_Some (delivers (<[i := q]> ps) j)) l
  = list_find (λ j, is_Some (delivers ps j)) l.
Proof.
  intros Hi. apply list_find_ext_elem. intros j Hj.
  rewrite delivers_insert_ne; [done|]. by intros ->.
Qed.

Lemma tried_of_insert ps i q l : i ∉ l → tried_of (<[i := q]> ps) l = tried_of ps l.
Proof. intros Hi. unfold tried_of. by rewrite list_find_delivers_insert. Qed.

Lemma result_of_insert ps i q l : i ∉ l → result_of (<[i := q]> ps) l = result_of ps l.
Proof.
  intros Hi. unfold result_of. rewrite list_find_delivers_insert by done.
  destruct (list_find _ l) as [[k j]|] eqn:Hfound; [|done].
  apply list_find_Some in Hfound as [Hj%list_elem_of_lookup_2 _].
  rewrite delivers_insert_ne; [done|]. by intros ->.
Qed.

Lemma try_providers_spec l :
  NoDup l → ∀ ps, (∀ i, i ∈ l → is_Some (ps !! i)) →
  try_providers metric asset kwargs now l ps
  = (result_of ps l, settle (tried_of ps l) ps, call_of <$> tried_of ps l).
Proof.
  induction 1 as [|i l Hi Hnodup IH]; intros ps Hdef.
  - cbn. by rewrite settle_nil.
  - destruct (Hdef i) as [p Hp]; [left|].
    assert (∀ q j, j ∈ l → is_Some (<[i := q]> ps !! j)) as Hdef'.
    { intros q j Hj. rewrite list_lookup_insert_ne by (intros ->; done).
      apply Hdef. by right. }
    assert (delivers ps i = delivered p) as Hdel by (unfold delivers; by rewrite Hp).
    pose proof (settle_cons i p) as Hsettle.
    cbn [try_providers]. rewrite Hp.
    unfold delivered in Hdel. unfold after_call in Hsettle.
    destruct (loader_result p metric asset kwargs) as [v|e] eqn:Hres;
      [destruct (non_empty v) eqn:Hv|].
    + rewrite tried_of_hit, result_of_hit by (rewrite Hdel; eauto).
      rewrite Hdel. cbn.
      rewrite <- (Hsettle [] ps Hp) by apply not_elem_of_nil. by rewrite settle_nil.
    + rewrite IH by (apply Hdef').
      rewrite tried_of_miss, result_of_miss by done.
      rewrite tried_of_insert, result_of_insert by done.
      rewrite Hsettle; [done..|]. intros Hin%tried_of_subseteq. done.
    + rewrite IH by (apply Hdef').
      rewrite tried_of_miss, result_of_miss by done.
      rewrite tried_of_insert, result_of_insert by done.
      rewrite Hsettle; [done..|]. intros Hin%tried_of_subseteq. done.
Qed.

End Request.

Lemma get_metric_spec ps metric asset kwargs now :
  get_metric ps metric asset kwargs now
  = (Ok (result_of metric asset kwargs ps (available_providers ps metric).*1),
     settle metric asset kwargs now
       (tried_of metric asset kwargs ps (available_providers ps metric).*1) ps,
     call_of metric asset <$> tried_of metric asset kwargs ps (available_providers ps metric).*1).
Proof.
  unfold get_metric.
  pose proof (available_providers_NoDup ps metric) as Hnodup.
  pose proof (available_providers_index ps metric) as Hindex.
  destruct (available_providers ps metric) as [|ip l] eqn:Havail.
  - unfold result_of, tried_of. cbn. by rewrite settle_nil.
  - rewrite try_providers_spec; [done..|].
    intros i Hi. apply Hindex in Hi as (p & -> & _). by eexists.
Qed.

Lemma after_call_delivered metric asset kwargs now p :
  is_Some (delivered metric asset kwargs p) →
  after_call metric asset kwargs now p = record_success (invoked p) now.
Proof.
  unfold delivered, after_call. intros [v Hv].
  destruct (loader_result p metric asset kwargs) as [w|e]; [|done].
  by destruct (non_empty w).
Qed.

(** C1: [get_metric] tries the providers that can supply the metric, in
    the order of their (priority, failure_count) keys; the first non-empty
    loader result is returned at once, after [record_success] on its
    provider, and no later provider is invoked; when no provider delivers
    (or none is eligible) the result is [None]; the call never raises. *)
Theorem get_metric_first_success_wins (ps : list DataProvider.t) (metric asset : string)
    (kwargs : list (string * json)) (now : Z) :
  let available := (available_providers ps metric).*1 in
  (∀ i, i ∈ available ↔ ∃ p, ps !! i = Some p ∧ can_provide p metric = true)
  ∧ NoDup available
  ∧ Forall (λ ip, ps !! ip.1 = Some ip.2) (available_providers ps metric)
  ∧ StronglySorted (key_order (λ ip, sort_key ip.2)) (available_providers ps metric)
  ∧ match list_find (λ i, is_Some (delivers metric asset kwargs ps i)) available with
    | Some (k, i) =>
        get_metric ps metric asset kwargs now
        = (Ok (default PNone (delivers metric asset kwargs ps i)),
           settle metric asset kwargs now (take (S k) available) ps,
           call_of metric asset <$> take (S k) available)
        ∧ (get_metric ps metric asset kwargs now).1.2 !! i
          = (λ p, record_success (invoked p) now) <$> ps !! i
    | None =>
        get_metric ps metric asset kwargs now
        = (Ok PNone, settle metric asset kwargs now available ps,
           call_of metric asset <$> available)
    end
  ∧ is_raise (get_metric ps metric asset kwargs now).1.1 = false.
Proof.
  intros available. split_and!.
  - apply available_providers_index.
  - apply available_providers_NoDup.
  - apply Forall_forall. intros [i p] Hin. by apply available_providers_elem in Hin as [? _].
  - apply sort_by_key_sorted.
  - rewrite get_metric_spec. unfold result_of, tried_of. fold available.
    destruct (list_find _ available) as [[k i]|] eqn:Hfound; [|done].
    split; [done|]. cbn. rewrite settle_lookup.
    apply list_find_Some in Hfound as (Hi & Hdel & _).
    rewrite bool_decide_eq_true_2.
    + unfold delivers in Hdel. destruct (ps !! i) as [p|]; [|done]. cbn in *.
      by rewrite after_call_delivered.
    + apply elem_of_take. exists k. split; [done|lia].
  - by rewrite get_metric_spec.
Qed.

Lemma call_of_inj metric asset : Inj (=) (=) (call_of metric asset).
Proof. by intros i j [=]. Qed.

Lemma get_metric_tried ps metric asset kwargs now i :
  call_of metric asset i ∈ (get_metric ps metric asset kwargs now).2
  ↔ i ∈ tried_of metric asset kwargs ps (available_providers ps metric).*1.
Proof.
  rewrite get_metric_spec. cbn. rewrite list_elem_of_fmap. split.
  - by intros (j & ->%call_of_inj & Hj).
  - intros Hi. by exists i.
Qed.

(** C4 (as amended): a provider that [get_metric] has tried and whose loader
    returned an empty result without raising keeps its failure count and its
    health flag, and the iteration goes on to the next eligible provider;
    [record_failure] is called only on a provider whose loader raised. *)
Theorem empty_result_is_not_recorded (ps : list DataProvider.t) (metric asset : string)
    (kwargs : list (string * json)) (now : Z) (i : nat) (p : DataProvider.t) :
  ps !! i = Some p →
  call_of metric asset i ∈ (get_metric ps metric asset kwargs now).2 →
  match loader_result p metric asset kwargs with
  | Raise _ =>
      (get_metric ps metric asset kwargs now).1.2 !! i = Some (record_failure (invoked p))
  | Ok v =>
      if non_empty v then
        (get_metric ps metric asset kwargs now).1.2 !! i
        = Some (record_success (invoked p) now)
      else
        (get_metric ps metric asset kwargs now).1.2 !! i = Some (invoked p)
        ∧ failure_count (invoked p) = failure_count p
        ∧ is_healthy (invoked p) = is_healthy p
  end
  ∧ (delivered metric asset kwargs p = None →
     ∀ k j, (available_providers ps metric).*1 !! k = Some i →
            (available_providers ps metric).*1 !! S k = Some j →
            call_of metric asset j ∈ (get_metric ps metric asset kwargs now).2).
Proof.
  intros Hp Htried. pose proof Htried as Hi. apply get_metric_tried in Hi.
  split.
  - rewrite get_metric_spec. cbn. rewrite settle_lookup, Hp.
    rewrite bool_decide_eq_true_2 by done. cbn. unfold after_call.
    destruct (loader_result p metric asset kwargs) as [v|e]; [|done].
    by destruct (non_empty v).
  - intros Hnone k j Hk Hj. apply get_metric_tried.
    unfold tried_of in *.
    destruct (list_find _ _) as [[k' i']|] eqn:Hfound; [|by eapply list_elem_of_lookup_2].
    apply list_find_Some in Hfound as (Hk' & [v Hdel] & _).
    apply elem_of_take in Hi as (k2 & Hk2 & Hlt).
    pose proof (available_providers_NoDup ps metric) as Hnodup.
    assert (k2 = k) as -> by (by eapply NoDup_lookup).
    assert (k ≠ k').
    { intros ->. rewrite Hk in Hk'. injection Hk' as <-.
      unfold delivers in Hdel. rewrite Hp in Hdel. cbn in Hdel. congruence. }
    apply elem_of_take. exists (S k). split; [done|lia].
Qed.

(** Two providers for "price": the loader of the first returns [None], the
    loader of the second a price. *)
Definition silent_then_priced : list DataProvider.t :=
  [ DataProvider.init "A" 1 (λ _ _ _ _, Ok PNone) ["price"] false;
    DataProvider.init "B" 2 (λ _ _ _ _, Ok (PJson (JStr "$116,000.00"))) ["price"] false ].

Lemma empty_result_is_not_recorded_witness :
  (get_metric silent_then_priced "price" "BTC" [] 0).1.2 !! 0%nat
  = Some (invoked (DataProvider.init "A" 1 (λ _ _ _ _, Ok PNone) ["price"] false))
  ∧ call_of "price" "BTC" 1 ∈ (get_metric silent_then_priced "price" "BTC" [] 0).2.
Proof.
  pose proof (empty_result_is_not_recorded silent_then_priced "price" "BTC" [] 0 0
                (DataProvider.init "A" 1 (λ _ _ _ _, Ok PNone) ["price"] false)
                eq_refl) as Hthm.
  assert (call_of "price" "BTC" 0 ∈ (get_metric silent_then_priced "price" "BTC" [] 0).2)
    as Htried by (vm_compute; left).
  destruct (Hthm Htried) as [[Hstate _] Hnext]. split; [exact Hstate|].
  by apply (Hnext eq_refl 0%nat 1%nat).
Defined.

(** C4 as stated fails: after an empty result the failure count of the
    provider is still zero, where [record_failure] would have made it one,
    and the provider stays first in line. *)
Lemma empty_result_records_no_failure :
  let after := get_metric silent_then_priced "price" "BTC" [] 0 in
  after.1.1 = Ok (PJson (JStr "$116,000.00"))
  ∧ after.2 = [call_of "price" "BTC" 0; call_of "price" "BTC" 1]
  ∧ failure_count <$> after.1.2 !! 0%nat = Some 0%Z
  ∧ failure_count <$> (record_failure <$> silent_then_priced !! 0%nat) = Some 1%Z.
Proof. vm_compute. done. Qed.

(** The scenario of section 8: provider A (priority 1) and provider B
    (priority 2) both supply "price"; A's loader raises on its first three
    invocations and succeeds on its fourth, B's loader succeeds. *)
Module Scenario.

Definition loader_A (invocations : nat) (metric asset : string) (kwargs : list (string * json))
  : outcome pyvalue :=
  if (invocations <? 3)%nat then Raise (LoaderError "unavailable")
  else Ok (PJson (JStr "price from A")).

Definition loader_B (invocations : nat) (metric asset : string) (kwargs : list (string * json))
  : outcome pyvalue :=
  Ok (PJson (JStr "price from B")).

Definition providers : list DataProvider.t :=
  [ DataProvider.init "A" 1 loader_A ["price"] false;
    DataProvider.init "B" 2 loader_B ["price"] false ].

(** [n] calls of [get_metric("price", "BTC")] in a row: the results, oldest
    first, the loader invocations of each call, and the providers after the
    last call. *)
Fixpoint repeat_get_metric (n : nat) (ps : list DataProvider.t)
  : list (outcome pyvalue * list LoaderCall) * list DataProvider.t :=
  match n with
  | O => ([], ps)
  | S n' =>
      let '(result, ps', calls) := get_metric ps "price" "BTC" [] 0 in
      let '(results, ps'') := repeat_get_metric n' ps' in
      ((result, calls) :: results, ps'')
  end.

End Scenario.

(** C5 (as amended): in that scenario each of the first three calls of
    [get_metric("price", "BTC")] invokes A, which raises, and then B, whose
    value it returns; A is unhealthy after the third call; the fourth call
    leaves A out, invokes B alone and returns B's value. *)
Theorem scenario_returns_B_every_time :
  let A := call_of "price" "BTC" 0 in
  let B := call_of "price" "BTC" 1 in
  let price_B := Ok (PJson (JStr "price from B")) in
  (Scenario.repeat_get_metric 4 Scenario.providers).1
  = [ (price_B, [A; B]); (price_B, [A; B]); (price_B, [A; B]); (price_B, [B]) ]
  ∧ (is_healthy <$> (Scenario.repeat_get_metric 2 Scenario.providers).2) = [true; true]
  ∧ (is_healthy <$> (Scenario.repeat_get_metric 3 Scenario.providers).2) = [false; true]
  ∧ (failure_count <$> (Scenario.repeat_get_metric 3 Scenario.providers).2) = [3%Z; 0%Z]
  ∧ (available_providers (Scenario.repeat_get_metric 3 Scenario.providers).2 "price").*1
    = [1%nat].
Proof. vm_compute. done. Qed.

(** C5 as stated fails: the first call already falls back to B and returns
    its value, not [None]. *)
Lemma scenario_first_call_is_not_null :
  (get_metric Scenario.providers "price" "BTC" [] 0).1.1 = Ok (PJson (JStr "price from B"))
  ∧ (get_metric Scenario.providers "price" "BTC" [] 0).1.1 ≠ Ok PNone.
Proof. vm_compute. split; [done|]. intros [=]. Qed.

End FallbackProps.

(** ** Properties of request de-duplication and grouping *)

Module BatchProps.
Import DataProvider BatchOptimizer MetricRegistry.

(** The identifier of a request. *)
Definition key_of (request : string * string) : string := request_id request.1 request.2.

(** The request that a loader invocation serves. *)
Definition call_request (c : LoaderCall) : string * string := (call_metric c, call_asset c).

(** The requests of a list whose identifier is not in [seen] and does not
    occur earlier in the list. *)
Fixpoint first_occurrences (seen : gset string) (requests : list (string * string))
  : list (string * string) :=
  match requests with
  | [] => []
  | request :: requests' =>
      if bool_decide (key_of request ∈ seen) then first_occurrences seen requests'
      else request :: first_occurrences ({[key_of request]} ∪ seen) requests'
  end.

Lemma detect_loop_unique requests unique_requests redundancy_map seen :
  (detect_loop requests unique_requests redundancy_map seen).1
  = unique_requests ++ first_occurrences seen requests.
Proof.
  revert unique_requests redundancy_map seen.
  induction requests as [|[metric asset] requests IH]; intros unique rmap seen; cbn.
  - by rewrite app_nil_r.
  - unfold key_of. cbn. case_bool_decide; rewrite IH; [done|]. by rewrite <- app_assoc.
Qed.

Lemma first_occurrences_sublist seen requests :
  first_occurrences seen requests `sublist_of` requests.
Proof.
  revert seen. induction requests as [|r requests IH]; intros seen; cbn; [done|].
  case_bool_decide; [by apply sublist_cons|by apply sublist_skip].
Qed.

Lemma first_occurrences_fresh seen requests r :
  r ∈ first_occurrences seen requests → key_of r ∉ seen.
Proof.
  revert seen. induction requests as [|r' requests IH]; intros seen; cbn; [by intros ?%elem_of_nil|].
  case_bool_decide as Hseen; [by apply IH|].
  intros [->|Hin]%elem_of_cons; [done|]. apply IH in Hin. set_solver.
Qed.

Lemma first_occurrences_NoDup seen requests :
  NoDup (key_of <$> first_occurrences seen requests).
Proof.
  revert seen. induction requests as [|r requests IH]; intros seen; cbn; [constructor|].
  case_bool_decide; [by apply IH|]. cbn. constructor; [|by apply IH].
  intros Hin. apply list_elem_of_fmap in Hin as (r' & Hkey & Hin).
  apply first_occurrences_fresh in Hin. rewrite <- Hkey in Hin. set_solver.
Qed.

Lemma first_occurrences_elem seen requests r :
  r ∈ first_occurrences seen requests
  ↔ (key_of r ∉ seen)
    ∧ ∃ i, requests !! i = Some r
           ∧ ∀ j r', (j < i)%nat → requests !! j = Some r' → key_of r' ≠ key_of r.
Proof.
  revert seen. induction requests as [|r0 requests IH]; intros seen; cbn.
  - split; [by intros ?%elem_of_nil|]. by intros (_ & i & ? & _).
  - case_bool_decide as Hseen.
    + rewrite IH. split.
      * intros (Hfresh & i & Hi & Hfirst). split; [done|]. exists (S i). split; [done|].
        intros [|j] r' Hlt Hj; cbn in Hj; [|apply (Hfirst j); [lia|done]].
        injection Hj as <-. intros Heq. apply Hfresh. by rewrite <- Heq.
      * intros (Hfresh & [|i] & Hi & Hfirst); cbn in Hi.
        { injection Hi as <-. done. }
        split; [done|]. exists i. split; [done|].
        intros j r' Hlt Hj. apply (Hfirst (S j)); [lia|done].
    + rewrite elem_of_cons, IH. split.
      * intros [->|(Hfresh & i & Hi & Hfirst)].
        { split; [done|]. exists 0%nat. split; [done|]. intros; lia. }
        split; [set_solver|]. exists (S i). split; [done|].
        intros [|j] r' Hlt Hj; cbn in Hj; [|apply (Hfirst j); [lia|done]].
        injection Hj as <-. intros Heq. apply Hfresh. rewrite <- Heq. set_solver.
      * intros (Hfresh & [|i] & Hi & Hfirst); cbn in Hi.
        { injection Hi as <-. by left. }
        right. split.
        { assert (key_of r0 ≠ key_of r) by (apply (Hfirst 0%nat); [lia|done]). set_solver. }
        exists i. split; [done|]. intros j r' Hlt Hj. apply (Hfirst (S j)); [lia|done].
Qed.

Lemma first_occurrences_covers seen requests r :
  r ∈ requests →
  key_of r ∈ seen ∨ key_of r ∈ key_of <$> first_occurrences seen requests.
Proof.
  revert seen. induction requests as [|r0 requests IH]; intros seen; [by intros ?%elem_of_nil|].
  cbn. intros [->|Hin]%elem_of_cons.
  - case_bool_decide; [by left|]. right. cbn. left.
  - case_bool_decide; [by apply IH|].
    destruct (IH ({[key_of r0]} ∪ seen) Hin) as [Hseen|Hnew].
    + apply elem_of_union in Hseen as [->%elem_of_singleton|Hseen]; [|by left].
      right. cbn. left.
    + right. cbn. by right.
Qed.

Lemma detect_redundant_requests_spec requests :
  (detect_redundant_requests requests).1 = first_occurrences ∅ requests.
Proof. unfold detect_redundant_requests. by rewrite detect_loop_unique. Qed.

Lemma group_append_perm name r groups :
  concat ((group_append name r groups).*2) ≡ₚ r :: concat (groups.*2).
Proof.
  induction groups as [|[name' rs] groups IH]; cbn; [done|].
  destruct (String.eqb name name'); cbn.
  - rewrite <- app_assoc. cbn. by rewrite <- Permutation_middle.
  - rewrite IH. by rewrite <- Permutation_middle.
Qed.

Lemma group_by_provider_perm requests ps :
  concat ((group_by_provider requests ps).*2)
    ≡ₚ filter (λ r, Fallback.available_providers ps r.1 ≠ []) requests.
Proof.
  unfold group_by_provider.
  enough (∀ groups,
    concat ((foldl (λ provider_groups request,
                     match Fallback.available_providers ps request.1 with
                     | [] => provider_groups
                     | best_provider :: _ =>
                         group_append (name best_provider.2) request provider_groups
                     end) groups requests).*2)
      ≡ₚ concat (groups.*2) ++ filter (λ r, Fallback.available_providers ps r.1 ≠ []) requests)
    as Hgen by apply (Hgen []).
  induction requests as [|r requests IH]; intros groups; cbn [foldl].
  - by rewrite filter_nil, app_nil_r.
  - rewrite IH. destruct (Fallback.available_providers ps r.1) as [|best l] eqn:Hbest.
    + by rewrite filter_cons_False by (rewrite Hbest; naive_solver).
    + rewrite filter_cons_True by (by rewrite Hbest).
      rewrite group_append_perm. by rewrite <- Permutation_middle.
Qed.

(** *** Dictionaries in insertion order *)

Section DictFacts.
Context {V : Type}.
Implicit Types (d other : list (string * V)) (k : string) (v : V).

Lemma dict_get_is_Some k d : is_Some (dict_get k d) ↔ k ∈ d.*1.
Proof.
  induction d as [|[k' v'] d IH]; cbn.
  - split; [by intros [? [=]]|by intros ?%elem_of_nil].
  - rewrite elem_of_cons. destruct (String.eqb_spec k k') as [->|Hne].
    + split; [by left|by eexists].
    + rewrite IH. naive_solver.
Qed.

Lemma dict_set_keys k v d k' : k' ∈ (dict_set k v d).*1 ↔ k' = k ∨ k' ∈ d.*1.
Proof.
  induction d as [|[k0 v0] d IH]; cbn.
  - rewrite elem_of_cons. by rewrite elem_of_nil.
  - destruct (String.eqb_spec k k0) as [->|Hne]; cbn; rewrite !elem_of_cons.
    + naive_solver.
    + rewrite IH. naive_solver.
Qed.

Lemma dict_set_NoDup k v d : NoDup d.*1 → NoDup (dict_set k v d).*1.
Proof.
  induction d as [|[k0 v0] d IH]; cbn; intros Hnodup.
  - repeat constructor. by intros ?%elem_of_nil.
  - apply NoDup_cons in Hnodup as [Hk0 Hnodup].
    destruct (String.eqb_spec k k0) as [->|Hne]; cbn.
    + by constructor.
    + constructor; [|by apply IH]. rewrite dict_set_keys. naive_solver.
Qed.

Lemma dict_update_keys d other k :
  k ∈ (dict_update d other).*1 ↔ k ∈ d.*1 ∨ k ∈ other.*1.
Proof.
  unfold dict_update. revert d. induction other as [|[k0 v0] other IH]; intros d; cbn.
  - rewrite elem_of_nil. naive_solver.
  - rewrite IH, dict_set_keys, elem_of_cons. naive_solver.
Qed.

Lemma dict_update_NoDup d other : NoDup d.*1 → NoDup (dict_update d other).*1.
Proof.
  unfold dict_update. revert d. induction other as [|[k0 v0] other IH]; intros d Hd; cbn;
    [done|]. by apply IH, dict_set_NoDup.
Qed.

End DictFacts.

(** *** Loader invocations of a batch *)

Lemma _execute_provider_batch_calls now i provider requests results :
  call_request <$> (_execute_provider_batch now i provider requests results).2 = requests.
Proof.
  revert provider results.
  induction requests as [|[metric asset] requests IH]; intros provider results; cbn; [done|].
  destruct (match loader_result provider metric asset [] with
            | Ok result => _
            | Raise _ => _
            end) as [results' provider'].
  specialize (IH provider' results').
  destruct (_execute_provider_batch now i provider' requests results') as [[? ?] calls].
  cbn in *. by rewrite IH.
Qed.

Lemma run_provider_groups_calls now provider_groups providers results completed :
  call_request <$> (run_provider_groups now provider_groups providers results completed).2
    `sublist_of` concat (provider_groups.*2).
Proof.
  revert providers results completed.
  induction provider_groups as [|[provider_name provider_requests] groups IH];
    intros providers results completed; cbn; [done|].
  destruct (list_find _ providers) as [[i provider]|].
  - pose proof (_execute_provider_batch_calls now i provider provider_requests []) as Hcalls.
    destruct (_execute_provider_batch now i provider provider_requests [])
      as [[provider_results provider'] calls].
    specialize (IH (<[i := provider']> providers) (dict_update results provider_results)
                  (completed + Z.of_nat (length provider_results))%Z).
    destruct (run_provider_groups now groups _ _ _) as [[[? ?] ?] calls'].
    cbn in *. rewrite fmap_app, Hcalls. by apply sublist_app.
  - by apply sublist_inserts_l.
Qed.

Lemma unique_requests_NoDup requests :
  NoDup (key_of <$> (detect_redundant_requests requests).1)
  ∧ NoDup (detect_redundant_requests requests).1.
Proof.
  rewrite detect_redundant_requests_spec.
  pose proof (first_occurrences_NoDup ∅ requests) as Hkeys.
  split; [done|]. by eapply NoDup_fmap_1.
Qed.

Lemma batch_calls_NoDup now requests providers max_concurrent :
  NoDup (call_request <$>
           (_execute_provider_batches now
              (group_by_provider (detect_redundant_requests requests).1 providers)
              max_concurrent providers).2).
Proof.
  unfold _execute_provider_batches. destruct (max_concurrent <=? 0)%Z; [constructor|].
  pose proof (run_provider_groups_calls now
                (group_by_provider (detect_redundant_requests requests).1 providers)
                providers [] 0) as Hsub.
  destruct (run_provider_groups now _ providers [] 0) as [[[? ?] ?] calls]. cbn in *.
  eapply sublist_NoDup; [|exact Hsub].
  rewrite group_by_provider_perm. apply NoDup_filter, unique_requests_NoDup.
Qed.

Lemma NoDup_fmap_filter_length {A B} `{EqDecision B} (f : A → B) (l : list A) (y : B) :
  NoDup (f <$> l) → (length (filter (λ x, f x = y) l) ≤ 1)%nat.
Proof.
  induction l as [|x l IH]; [rewrite filter_nil; cbn; lia|].
  rewrite fmap_cons. intros [Hx Hnodup]%NoDup_cons.
  destruct (decide (f x = y)) as [Heq|Hne].
  - rewrite filter_cons_True by done. cbn.
    enough (filter (λ x0, f x0 = y) l = []) as -> by (cbn; lia).
    destruct (filter (λ x0, f x0 = y) l) as [|z l'] eqn:Hfilter; [done|].
    assert (z ∈ filter (λ x0, f x0 = y) l) as Hz by (rewrite Hfilter; left).
    apply list_elem_of_filter in Hz as [Hfz Hz]. destruct Hx.
    apply list_elem_of_fmap. exists z. split; [congruence|done].
  - rewrite filter_cons_False by done. by apply IH.
Qed.

(** *** Splitting a request identifier *)


Lemma append_cons c s t : String c s +:+ t = String c (s +:+ t).
Proof. reflexivity. Qed.

Lemma rev_app_append a b m : String.rev_app a b +:+ m = String.rev_app a (b +:+ m).
Proof. revert b. induction a as [|c a IH]; intros b; cbn; [done|]. by rewrite IH. Qed.

Lemma append_empty_r s : s +:+ "" = s.
Proof. induction s as [|c s IH]; [done|]. by rewrite append_cons, IH. Qed.

Lemma split_aux_no_sep sep cur s :
  Str.no_char sep s = true → Str.split_aux sep cur s = [String.rev_app cur "" +:+ s].
Proof.
  revert cur. induction s as [|c s IH]; intros cur; cbn.
  - intros _. unfold String.rev. by rewrite append_empty_r.
  - intros [Hc Hs]%andb_prop. apply negb_true_iff in Hc. rewrite Hc.
    rewrite IH by done. cbn. by rewrite !rev_app_append.
Qed.

Lemma split_aux_one_sep sep cur m a :
  Str.no_char sep m = true → Str.no_char sep a = true →
  Str.split_aux sep cur (m +:+ String sep a) = [String.rev_app cur "" +:+ m; a].
Proof.
  revert cur. induction m as [|c m IH]; intros cur; rewrite ?append_cons; cbn.
  - intros _ Ha. change ("" +:+ String sep a) with (String sep a). cbn.
    rewrite Ascii.eqb_refl. rewrite split_aux_no_sep by done. cbn.
    unfold String.rev. by rewrite append_empty_r.
  - intros [Hc Hm]%andb_prop Ha. apply negb_true_iff in Hc. rewrite Hc.
    rewrite IH by done. cbn. by rewrite !rev_app_append.
Qed.

Lemma split_request_id_ok metric asset :
  Str.no_char ":" metric = true → Str.no_char ":" asset = true →
  split_request_id (request_id metric asset) = Ok (metric, asset).
Proof.
  intros Hm Ha. unfold split_request_id, request_id, Str.split.
  change (metric +:+ ":" +:+ asset) with (metric +:+ String ":" asset).
  by rewrite split_aux_one_sep.
Qed.

Lemma request_id_inj metric asset metric' asset' :
  Str.no_char ":" metric = true → Str.no_char ":" asset = true →
  Str.no_char ":" metric' = true → Str.no_char ":" asset' = true →
  request_id metric asset = request_id metric' asset' →
  (metric, asset) = (metric', asset').
Proof.
  intros Hm Ha Hm' Ha' Heq.
  pose proof (split_request_id_ok metric asset Hm Ha) as H1.
  pose proof (split_request_id_ok metric' asset' Hm' Ha') as H2.
  rewrite Heq in H1. congruence.
Qed.

(** *** The keys of the fresh results *)

(** Some provider of the list can supply the metric. *)
Definition eligible (ps : list DataProvider.t) (metric : string) : Prop :=
  ∃ p, p ∈ ps ∧ can_provide p metric = true.

Lemma available_providers_nonempty ps metric :
  Fallback.available_providers ps metric ≠ [] ↔ eligible ps metric.
Proof.
  unfold eligible. split.
  - destruct (Fallback.available_providers ps metric) as [|[i p] l] eqn:Hav; [done|].
    intros _. assert ((i, p) ∈ Fallback.available_providers ps metric) as Hin
      by (rewrite Hav; left).
    apply FallbackProps.available_providers_elem in Hin as [Hp Hcan].
    exists p. split; [by eapply list_elem_of_lookup_2|done].
  - intros (p & [i Hi]%list_elem_of_lookup_1 & Hcan) Hnil.
    assert ((i, p) ∈ Fallback.available_providers ps metric) as Hin
      by (by apply FallbackProps.available_providers_elem).
    rewrite Hnil in Hin. by apply elem_of_nil in Hin.
Qed.

Lemma _execute_provider_batch_name now i provider requests results :
  name (_execute_provider_batch now i provider requests results).1.2 = name provider.
Proof.
  revert provider results.
  induction requests as [|[metric asset] requests IH]; intros provider results; cbn; [done|].
  destruct (loader_result provider metric asset []) as [v|e]; [destruct (negb (is_none v))|].
  all: match goal with
       | |- context [_execute_provider_batch ?t ?j ?p ?rs ?r] =>
           specialize (IH p r); destruct (_execute_provider_batch t j p rs r) as [[? ?] ?]
       end; cbn in *; by rewrite IH.
Qed.

Lemma _execute_provider_batch_keys now i provider requests results k :
  k ∈ (_execute_provider_batch now i provider requests results).1.1.*1
  ↔ k ∈ results.*1 ∨ k ∈ key_of <$> requests.
Proof.
  revert provider results.
  induction requests as [|[metric asset] requests IH]; intros provider results; cbn.
  - rewrite elem_of_nil. naive_solver.
  - rewrite elem_of_cons.
    destruct (loader_result provider metric asset []) as [v|e]; [destruct (negb (is_none v))|].
    all: match goal with
         | |- context [_execute_provider_batch ?t ?j ?p ?rs ?r] =>
             specialize (IH p r); destruct (_execute_provider_batch t j p rs r) as [[? ?] ?]
         end; cbn in *; rewrite IH, dict_set_keys; unfold key_of; cbn; naive_solver.
Qed.

Lemma list_find_name ps n :
  n ∈ name <$> ps → is_Some (list_find (λ p, name p = n) ps).
Proof.
  intros (p & -> & Hp)%list_elem_of_fmap. by eapply list_find_elem_of.
Qed.

Lemma run_provider_groups_keys now provider_groups ps results completed k :
  Forall (λ g, g.1 ∈ name <$> ps) provider_groups →
  k ∈ (run_provider_groups now provider_groups ps results completed).1.1.1.*1
  ↔ k ∈ results.*1 ∨ k ∈ key_of <$> concat (provider_groups.*2).
Proof.
  revert ps results completed.
  induction provider_groups as [|[provider_name provider_requests] groups IH];
    intros ps results completed Hnames; cbn.
  - rewrite elem_of_nil. naive_solver.
  - apply Forall_cons in Hnames as [Hname Hnames]. cbn in Hname.
    destruct (list_find_name ps provider_name Hname) as [[i provider] Hfound].
    rewrite Hfound. apply list_find_Some in Hfound as (Hi & Hnm & _).
    pose proof (_execute_provider_batch_name now i provider provider_requests []) as Hname'.
    pose proof (λ k', _execute_provider_batch_keys now i provider provider_requests [] k')
      as Hkeys.
    destruct (_execute_provider_batch now i provider provider_requests [])
      as [[provider_results provider'] calls]. cbn in Hname', Hkeys.
    assert (name <$> <[i := provider']> ps = name <$> ps) as Hsame.
    { rewrite list_fmap_insert. apply list_insert_id. by rewrite list_lookup_fmap, Hi, Hname'. }
    specialize (IH (<[i := provider']> ps) (dict_update results provider_results)
                  (completed + Z.of_nat (length provider_results))%Z).
    rewrite Hsame in IH. specialize (IH Hnames).
    destruct (run_provider_groups now groups _ _ _) as [[[? ?] ?] calls']. cbn in *.
    rewrite IH, dict_update_keys, Hkeys, fmap_app, elem_of_app, elem_of_nil. naive_solver.
Qed.

(** The order in which the tasks complete does not change which keys the
    merged results have. *)
Lemma run_provider_groups_any_order now provider_groups provider_groups' ps results completed k :
  provider_groups ≡ₚ provider_groups' →
  Forall (λ g, g.1 ∈ name <$> ps) provider_groups →
  k ∈ (run_provider_groups now provider_groups ps results completed).1.1.1.*1
  ↔ k ∈ (run_provider_groups now provider_groups' ps results completed).1.1.1.*1.
Proof.
  intros Hperm Hnames.
  rewrite !run_provider_groups_keys by (by rewrite <- ?Hperm).
  by rewrite Hperm.
Qed.

Lemma group_append_names name' request groups :
  (group_append name' request groups).*1 ⊆ name' :: groups.*1.
Proof.
  induction groups as [|[n rs] groups IH]; cbn; [done|].
  destruct (String.eqb_spec name' n) as [->|Hne]; cbn.
  - set_solver.
  - intros x [->|Hx]%elem_of_cons; [set_solver|]. apply IH in Hx. set_solver.
Qed.

Lemma group_by_provider_names requests ps :
  Forall (λ g, g.1 ∈ name <$> ps) (group_by_provider requests ps).
Proof.
  unfold group_by_provider.
  enough (∀ groups, Forall (λ g, g.1 ∈ name <$> ps) groups →
    Forall (λ g, g.1 ∈ name <$> ps)
      (foldl (λ provider_groups request,
                match Fallback.available_providers ps request.1 with
                | [] => provider_groups
                | best_provider :: _ =>
                    group_append (name best_provider.2) request provider_groups
                end) groups requests)) as Hgen by (apply Hgen; constructor).
  induction requests as [|r requests IH]; intros groups Hgroups; cbn [foldl]; [done|].
  apply IH. destruct (Fallback.available_providers ps r.1) as [|[i p] l] eqn:Hav; [done|].
  assert ((i, p) ∈ Fallback.available_providers ps r.1) as Hin by (rewrite Hav; left).
  apply FallbackProps.available_providers_elem in Hin as [Hp _].
  apply Forall_forall. intros g Hg.
  assert (g.1 ∈ (group_append (name p) r groups).*1) as Hg1
    by (apply list_elem_of_fmap; by exists g).
  apply group_append_names in Hg1. apply elem_of_cons in Hg1 as [->|Hold].
  - apply list_elem_of_fmap. exists p. split; [done|]. by eapply list_elem_of_lookup_2.
  - apply list_elem_of_fmap in Hold as (g' & -> & Hg').
    by eapply Forall_forall in Hgroups.
Qed.

Lemma cache_items_of_ok fresh_results :
  Forall (λ kv, is_raise (split_request_id kv.1) = false) fresh_results →
  ∃ cache_items, cache_items_of fresh_results = Ok cache_items.
Proof.
  induction 1 as [|[k v] fresh Hk _ [items IH]]; cbn; [by eexists|].
  destruct (negb (is_none v)); [|by eexists].
  cbn in Hk. destruct (split_request_id k) as [[metric asset]|e]; [|done].
  cbn. rewrite IH. cbn. by eexists.
Qed.

Section AnyBackend.
Context `{BE : Backend}.

Lemma take_cache_hits_NoDup cached_results requests results hits remaining :
  NoDup results.*1 →
  match (take_cache_hits cached_results requests results hits remaining).1 with
  | Ok (results', _) => NoDup results'.*1
  | Raise _ => True
  end.
Proof.
  revert results hits remaining.
  induction requests as [|[metric asset] requests IH]; intros results hits remaining Hnodup;
    cbn; [done|].
  destruct (cached_results !! batch_cache_key metric asset) as [entry|]; [|by apply IH].
  destruct entry; try (by apply IH);
    (destruct (subscript _ "data"); [by apply IH, dict_set_NoDup|done]).
Qed.

Lemma get_metrics_batch_calls (reg : MetricRegistry.t) now requests use_cache max_concurrent :
  (get_metrics_batch reg now requests use_cache max_concurrent).2 = []
  ∨ ∃ remaining,
      (get_metrics_batch reg now requests use_cache max_concurrent).2
      = (_execute_provider_batches now
           (group_by_provider (detect_redundant_requests remaining).1 (providers reg))
           max_concurrent (providers reg)).2.
Proof.
  unfold get_metrics_batch. destruct requests as [|r requests]; [by left|].
  destruct (if use_cache then _ else _) as [[[[results remaining]|e] hits] cache1];
    [|by left].
  unfold fetch_remaining.
  destruct remaining as [|r' remaining]; [by left|]. right. exists (r' :: remaining).
  destruct (detect_redundant_requests (r' :: remaining)) as [unique rmap]. cbn [fst].
  destruct (_execute_provider_batches now _ max_concurrent (providers reg))
    as [[[[fresh|e] providers'] completed] calls]; [|done].
  by destruct (cache_fresh_results cache1 now use_cache fresh).
Qed.

Lemma get_metrics_batch_keys_NoDup (reg : MetricRegistry.t) now requests use_cache
    max_concurrent :
  match (get_metrics_batch reg now requests use_cache max_concurrent).1.1 with
  | Ok results => NoDup results.*1
  | Raise _ => True
  end.
Proof.
  unfold get_metrics_batch. destruct requests as [|r requests]; [constructor|].
  assert (match (if use_cache
                 then let '(cached_results, cache1) :=
                        CryptoCacheManager.get_batch (cache reg) now
                          (optimize_cache_keys (r :: requests)) in
                      (take_cache_hits cached_results (r :: requests) [] 0 [], cache1)
                 else (Ok ([], r :: requests), 0%Z, cache reg)).1.1 with
          | Ok (results, _) => NoDup results.*1
          | Raise _ => True
          end) as Hstep1.
  { destruct use_cache; [|constructor].
    destruct (CryptoCacheManager.get_batch _ _ _) as [cached_results cache1].
    apply take_cache_hits_NoDup. constructor. }
  destruct (if use_cache then _ else _) as [[[[results remaining]|e] hits] cache1];
    [|done]. cbn in Hstep1. unfold fetch_remaining.
  destruct remaining as [|r' remaining]; [done|].
  destruct (detect_redundant_requests (r' :: remaining)) as [unique rmap].
  destruct (_execute_provider_batches now _ max_concurrent (providers reg))
    as [[[[fresh|e] providers'] completed] calls]; [|done].
  destruct (cache_fresh_results cache1 now use_cache fresh); [|done].
  cbn. by apply dict_update_NoDup.
Qed.

(** C9: de-duplication keeps the first occurrence of every request (by its
    identifier) and drops the later ones; a batch invokes a loader at most
    once for any (metric, asset) pair, however often the pair is requested;
    and the result dictionary has one entry per identifier, so a pair that
    was requested twice has one value. *)
Theorem batch_deduplicates (reg : MetricRegistry.t) (now : Z) (requests : list (string * string))
    (use_cache : bool) (max_concurrent : Z) :
  let unique_requests := (detect_redundant_requests requests).1 in
  unique_requests `sublist_of` requests
  ∧ NoDup (key_of <$> unique_requests)
  ∧ (∀ r, r ∈ unique_requests
          ↔ ∃ i, requests !! i = Some r
                 ∧ ∀ j r', (j < i)%nat → requests !! j = Some r' → key_of r' ≠ key_of r)
  ∧ (∀ metric asset,
       length (filter (λ c, call_request c = (metric, asset))
                 (get_metrics_batch reg now requests use_cache max_concurrent).2) ≤ 1)%nat
  ∧ match (get_metrics_batch reg now requests use_cache max_concurrent).1.1 with
    | Ok results => NoDup results.*1
    | Raise _ => True
    end.
Proof.
  intros unique_requests. unfold unique_requests.
  rewrite detect_redundant_requests_spec. split_and!.
  - apply first_occurrences_sublist.
  - apply first_occurrences_NoDup.
  - intros r. rewrite first_occurrences_elem. split; [by intros [_ ?]|].
    intros ?. split; [by apply not_elem_of_empty|done].
  - intros metric asset. apply NoDup_fmap_filter_length.
    destruct (get_metrics_batch_calls reg now requests use_cache max_concurrent)
      as [->|[remaining ->]]; [constructor|]. apply batch_calls_NoDup.
  - apply get_metrics_batch_keys_NoDup.
Qed.

(** A request is a cache hit when [get_batch] returned an entry for it that
    is not [None]. *)
Definition cache_hit (cached_results : gmap string json) (metric asset : string) : bool :=
  match cached_results !! batch_cache_key metric asset with
  | Some JNull | None => false
  | Some _ => true
  end.

(** Every entry that [get_batch] returned for a request of the list is
    [None] or has a "data" field. *)
Definition entries_have_data (cached_results : gmap string json)
    (requests : list (string * string)) : Prop :=
  ∀ r entry, r ∈ requests →
    cached_results !! batch_cache_key r.1 r.2 = Some entry →
    entry = JNull ∨ is_raise (subscript entry "data") = false.

Lemma take_cache_hits_spec cached_results requests results hits remaining :
  entries_have_data cached_results requests →
  ∃ results' hits',
    take_cache_hits cached_results requests results hits remaining
    = (Ok (results',
           remaining ++ filter (λ r, cache_hit cached_results r.1 r.2 = false) requests),
       hits')
    ∧ ∀ k, k ∈ results'.*1
           ↔ k ∈ results.*1
             ∨ ∃ r, r ∈ requests ∧ cache_hit cached_results r.1 r.2 = true ∧ k = key_of r.
Proof.
  revert results hits remaining.
  induction requests as [|[metric asset] requests IH]; intros results hits remaining Hdata.
  - exists results, hits. cbn [take_cache_hits]. rewrite filter_nil, app_nil_r. split; [done|].
    intros k. split; [by left|]. intros [?|(r & ?%elem_of_nil & _)]; done.
  - assert (entries_have_data cached_results requests) as Hdata'.
    { intros r entry Hr. apply Hdata. by right. }
    cbn [take_cache_hits].
    destruct (cached_results !! batch_cache_key metric asset) as [entry|] eqn:Hentry.
    + destruct (json_null_dec entry) as [->|Hnonnull].
      * destruct (IH results hits (remaining ++ [(metric, asset)]) Hdata')
          as (results' & hits' & -> & Hkeys).
        exists results', hits'. rewrite filter_cons_True
          by (cbn [fst snd]; unfold cache_hit; by rewrite Hentry).
        rewrite <- app_assoc. split; [done|]. intros k. rewrite Hkeys. split.
        -- intros [?|(r & ? & ? & ?)]; [by left|]. right. exists r. split; [by right|done].
        -- intros [?|(r & [->|?]%elem_of_cons & Hhit & ?)]; [by left| |right; by exists r].
           unfold cache_hit in Hhit. cbn in Hhit. by rewrite Hentry in Hhit.
      * destruct (Hdata (metric, asset) entry) as [?|Hok]; [by left|done..|].
        destruct (subscript entry "data") as [data|e] eqn:Hsub; [|done].
        destruct (IH (dict_set (request_id metric asset) (PJson data) results) (hits + 1)%Z
                    remaining Hdata') as (results' & hits' & Heq & Hkeys).
        exists results', hits'.
        assert (cache_hit cached_results metric asset = true) as Hhit.
        { unfold cache_hit. rewrite Hentry. by destruct entry. }
        rewrite filter_cons_False by (cbn [fst snd]; by rewrite Hhit).
        split; [by destruct entry|].
        intros k. rewrite Hkeys, dict_set_keys. split.
        -- intros [[->|?]|(r & ? & ? & ?)]; [|by left|].
           ++ right. exists (metric, asset). split; [left|done].
           ++ right. exists r. split; [by right|done].
        -- intros [?|(r & [->|?]%elem_of_cons & ? & ->)]; [left; by right| |].
           ++ left. by left.
           ++ right. by exists r.
    + destruct (IH results hits (remaining ++ [(metric, asset)]) Hdata')
        as (results' & hits' & -> & Hkeys).
      exists results', hits'. rewrite filter_cons_True
        by (cbn [fst snd]; unfold cache_hit; by rewrite Hentry).
      rewrite <- app_assoc. split; [done|]. intros k. rewrite Hkeys. split.
      * intros [?|(r & ? & ? & ?)]; [by left|]. right. exists r. split; [by right|done].
      * intros [?|(r & [->|?]%elem_of_cons & Hhit & ?)]; [by left| |right; by exists r].
        unfold cache_hit in Hhit. cbn in Hhit. by rewrite Hentry in Hhit.
Qed.

(** No metric or asset name of the list contains a colon. *)
Definition plain_names (requests : list (string * string)) : Prop :=
  Forall (λ r, Str.no_char ":" r.1 = true ∧ Str.no_char ":" r.2 = true) requests.

Lemma key_of_inj_plain requests r r' :
  plain_names requests → r ∈ requests → r' ∈ requests → key_of r = key_of r' → r = r'.
Proof.
  intros Hplain Hr Hr' Hkey.
  destruct (proj1 (Forall_forall _ _) Hplain r Hr) as [? ?].
  destruct (proj1 (Forall_forall _ _) Hplain r' Hr') as [? ?].
  destruct r, r'. by apply request_id_inj.
Qed.

Lemma fresh_results_spec now remaining ps max_concurrent :
  (0 < max_concurrent)%Z → plain_names remaining →
  ∃ fresh ps' completed calls,
    _execute_provider_batches now
      (group_by_provider (detect_redundant_requests remaining).1 ps) max_concurrent ps
    = (Ok fresh, ps', completed, calls)
    ∧ (∀ k, k ∈ fresh.*1 ↔ ∃ r, r ∈ remaining ∧ eligible ps r.1 ∧ k = key_of r)
    ∧ ∃ cache_items, cache_items_of fresh = Ok cache_items.
Proof.
  intros Hpool Hplain. unfold _execute_provider_batches.
  destruct (Z.leb_spec max_concurrent 0) as [?|_]; [lia|].
  pose proof (λ k, run_provider_groups_keys now
                (group_by_provider (detect_redundant_requests remaining).1 ps) ps [] 0 k
                (group_by_provider_names _ ps)) as Hkeys.
  destruct (run_provider_groups now _ ps [] 0) as [[[fresh ps'] completed] calls].
  cbn in Hkeys. exists fresh, ps', completed, calls. split; [done|].
  assert (∀ k, k ∈ fresh.*1 ↔ ∃ r, r ∈ remaining ∧ eligible ps r.1 ∧ k = key_of r) as Hfresh.
  { intros k. rewrite Hkeys, elem_of_nil, list_elem_of_fmap.
    setoid_rewrite group_by_provider_perm. setoid_rewrite list_elem_of_filter.
    setoid_rewrite available_providers_nonempty.
    rewrite detect_redundant_requests_spec. split.
    - intros [[]|(r & -> & Hel & Hin)]. exists r. split; [|done].
      eapply sublist_subseteq; [apply first_occurrences_sublist|done].
    - intros (r & Hr & Hel & ->). right.
      destruct (first_occurrences_covers ∅ remaining r Hr) as [?%elem_of_empty|Hcov]; [done|].
      apply list_elem_of_fmap in Hcov as (r' & Hkey & Hr').
      assert (r' = r) as ->.
      { eapply key_of_inj_plain; [done| |done..].
        eapply sublist_subseteq; [apply first_occurrences_sublist|done]. }
      by exists r. }
  split; [done|]. apply cache_items_of_ok, Forall_forall. intros [k v] Hkv.
  assert (k ∈ fresh.*1) as Hk by (apply list_elem_of_fmap; by exists (k, v)).
  apply Hfresh in Hk as ([metric asset] & Hr & _ & ->).
  destruct (proj1 (Forall_forall _ _) Hplain _ Hr) as [? ?].
  cbn. unfold key_of. cbn. by rewrite split_request_id_ok.
Qed.

Lemma fetch_remaining_keys (reg : MetricRegistry.t) now use_cache max_concurrent stats1 hits
    saved_calls cache1 results remaining :
  (0 < max_concurrent)%Z → plain_names remaining →
  ∃ results',
    (fetch_remaining reg now use_cache max_concurrent stats1 hits saved_calls cache1
       results remaining).1.1 = Ok results'
    ∧ ∀ k, k ∈ results'.*1
           ↔ k ∈ results.*1 ∨ ∃ r, r ∈ remaining ∧ eligible (providers reg) r.1 ∧ k = key_of r.
Proof.
  intros Hpool Hplain. unfold fetch_remaining.
  destruct remaining as [|r remaining].
  { exists results. split; [done|]. intros k. split; [by left|].
    by intros [?|(r & ?%elem_of_nil & _)]. }
  destruct (fresh_results_spec now (r :: remaining) (providers reg) max_concurrent Hpool Hplain)
    as (fresh & ps' & completed & calls & Hrun & Hfresh & items & Hitems).
  destruct (detect_redundant_requests (r :: remaining)) as [unique rmap]. cbn [fst] in Hrun.
  rewrite Hrun.
  assert (∃ cache2, cache_fresh_results cache1 now use_cache fresh = Ok cache2) as [cache2 ->].
  { unfold cache_fresh_results. destruct use_cache; [|by eexists].
    destruct fresh; [by eexists|]. rewrite Hitems. cbn. destruct items; by eexists. }
  exists (dict_update results fresh). split; [done|].
  intros k. by rewrite dict_update_keys, Hfresh.
Qed.

Lemma get_metrics_batch_nonempty (reg : MetricRegistry.t) now requests use_cache
    max_concurrent :
  requests ≠ [] →
  get_metrics_batch reg now requests use_cache max_concurrent
  = let stats1 := count_batch (stats reg) (length requests) in
    let '(step1, hits, cache1) :=
      if use_cache then
        let '(cached_results, cache1) :=
          CryptoCacheManager.get_batch (cache reg) now (optimize_cache_keys requests) in
        (take_cache_hits cached_results requests [] 0 [], cache1)
      else (Ok ([], requests), 0%Z, cache reg) in
    match step1 with
    | Raise e =>
        (Raise e,
         {| providers := providers reg; cache := cache1;
            stats := count_progress stats1 hits 0 0 |}, [])
    | Ok (results, remaining_requests) =>
        fetch_remaining reg now use_cache max_concurrent stats1 hits
          (Z.of_nat (length requests) - Z.of_nat (length remaining_requests))%Z cache1
          results remaining_requests
    end.
Proof. by destruct requests. Qed.

(** C8 (as amended): for a positive pool size, request names without a
    colon and cached entries that carry a "data" field, [get_metrics_batch]
    returns a dictionary that has an entry under "metric:asset" exactly for
    the requested pairs that were answered from the cache or whose metric
    some provider can supply; a pair with neither is left out of it. *)
Theorem batch_result_entries (reg : MetricRegistry.t) (now : Z)
    (requests : list (string * string)) (use_cache : bool) (max_concurrent : Z) :
  let cached_results :=
    (CryptoCacheManager.get_batch (cache reg) now (optimize_cache_keys requests)).1 in
  (0 < max_concurrent)%Z →
  plain_names requests →
  (use_cache = true → entries_have_data cached_results requests) →
  ∃ results,
    (get_metrics_batch reg now requests use_cache max_concurrent).1.1 = Ok results
    ∧ ∀ metric asset, (metric, asset) ∈ requests →
        (is_Some (dict_get (request_id metric asset) results)
         ↔ (use_cache = true ∧ cache_hit cached_results metric asset = true)
           ∨ eligible (providers reg) metric).
Proof.
  intros cached_results Hpool Hplain Hdata.
  destruct (decide (requests = [])) as [->|Hnonempty].
  { exists []. split; [done|]. by intros metric asset ?%elem_of_nil. }
  rewrite get_metrics_batch_nonempty by done. cbn zeta.
  destruct use_cache.
  - subst cached_results.
    destruct (CryptoCacheManager.get_batch (cache reg) now (optimize_cache_keys requests))
      as [cached cache1]. cbn [fst] in Hdata.
    destruct (take_cache_hits_spec cached requests [] 0 [] (Hdata eq_refl))
      as (results1 & hits & -> & Hkeys1).
    assert (plain_names (filter (λ r, cache_hit cached r.1 r.2 = false) requests)) as Hplain'.
    { apply Forall_forall. intros r [_ Hr]%list_elem_of_filter.
      by eapply Forall_forall in Hplain. }
    destruct (fetch_remaining_keys reg now true max_concurrent
                (count_batch (stats reg) (length requests)) hits
                (Z.of_nat (length requests)
                 - Z.of_nat (length ([] ++ filter (λ r, cache_hit cached r.1 r.2 = false)
                                             requests)))%Z
                cache1 results1 _ Hpool Hplain') as (results & Hres & Hkeys).
    exists results. split; [exact Hres|].
    intros metric asset Hin. rewrite dict_get_is_Some, Hkeys, Hkeys1, elem_of_nil. split.
    + intros [[[]|(r & Hr & Hhit & Hkey)]|(r & Hr & Hel & Hkey)].
      * left. split; [done|].
        apply (key_of_inj_plain requests (metric, asset) r) in Hkey; [|done..]. by subst r.
      * right. apply list_elem_of_filter in Hr as [_ Hr].
        apply (key_of_inj_plain requests (metric, asset) r) in Hkey; [|done..]. by subst r.
    + intros [[_ Hhit]|Hel].
      * left. right. by exists (metric, asset).
      * destruct (cache_hit cached metric asset) eqn:Hhit.
        -- left. right. by exists (metric, asset).
        -- right. exists (metric, asset). split; [|done]. by apply list_elem_of_filter.
  - destruct (fetch_remaining_keys reg now false max_concurrent
                (count_batch (stats reg) (length requests)) 0
                (Z.of_nat (length requests) - Z.of_nat (length requests))%Z
                (cache reg) [] requests Hpool Hplain) as (results & Hres & Hkeys).
    exists results. split; [exact Hres|].
    intros metric asset Hin. rewrite dict_get_is_Some, Hkeys, elem_of_nil. split.
    + intros [[]|(r & Hr & Hel & Hkey)]. right.
      apply (key_of_inj_plain requests (metric, asset) r) in Hkey; [|done..]. by subst r.
    + intros [[[=] _]|Hel]. right. by exists (metric, asset).
Qed.

End AnyBackend.

Import InMemory.

(** A registry over the in-process backend whose only provider supplies
    "price". *)
Definition price_registry : MetricRegistry.t (BE := InMemory.backend) :=
  {| providers :=
       [ DataProvider.init "A" 1 (λ _ _ _ _, Ok (PJson (JStr "$116,000.00"))) ["price"] false ];
     cache := CacheProps.fresh_manager;
     stats := {| total_batch_requests := 0; cache_hits_in_batch := 0;
                 provider_calls_saved := 0; average_batch_size := Qc_of_Z 0;
                 concurrent_requests := 0 |} |}.

Definition price_and_volume : list (string * string) := [("price", "BTC"); ("volume", "BTC")].

Lemma batch_result_entries_witness :
  ∃ results,
    (get_metrics_batch price_registry 0 price_and_volume true 5).1.1 = Ok results
    ∧ ∀ metric asset, (metric, asset) ∈ price_and_volume →
        (is_Some (dict_get (request_id metric asset) results)
         ↔ (true = true
            ∧ cache_hit
                (CryptoCacheManager.get_batch (cache price_registry) 0
                   (optimize_cache_keys price_and_volume)).1 metric asset = true)
           ∨ eligible (providers price_registry) metric).
Proof.
  apply (batch_result_entries price_registry 0 price_and_volume true 5).
  - lia.
  - repeat constructor.
  - intros _ r entry Hr.
    apply elem_of_cons in Hr as [->|Hr]; [|apply elem_of_cons in Hr as [->|Hr]].
    + vm_compute. intros [= <-]. by left.
    + vm_compute. intros [= <-]. by left.
    + by apply elem_of_nil in Hr.
Defined.

(** C8 as stated fails: a requested pair whose metric no provider supplies,
    and that the cache does not hold, has no entry in the result, neither a
    value nor a marker. *)
Lemma batch_omits_ineligible_request :
  (get_metrics_batch price_registry 0 price_and_volume true 5).1.1
  = Ok [("price:BTC", PJson (JStr "$116,000.00"))]
  ∧ dict_get (request_id "volume" "BTC") [("price:BTC", PJson (JStr "$116,000.00"))] = None
  ∧ (get_metrics_batch price_registry 0 [("volume", "BTC")] false 5).1.1 = Ok [].
Proof. vm_compute. done. Qed.

(** The example of section 8: a pair requested twice is fetched once and
    has one entry. *)
Lemma batch_dedup_example :
  (get_metrics_batch price_registry 0 [("price", "BTC"); ("price", "BTC")] true 5).1.1
  = Ok [("price:BTC", PJson (JStr "$116,000.00"))]
  ∧ (get_metrics_batch price_registry 0 [("price", "BTC"); ("price", "BTC")] true 5).2
    = [ {| call_provider := 0; call_metric := "price"; call_asset := "BTC" |} ].
Proof. vm_compute. done. Qed.

End BatchProps.

(** ** crypto_cache.py: cache warming, invalidation and the caching decorator *)

(** The two further operations of the key-value store that invalidation
    uses: [keys(pattern)] and [delete] of a list of keys. *)
Class BackendKeys `{BE : Backend} : Type := {
  redis_keys : redis → Z → string → outcome (list string) * redis;
  redis_delete : redis → Z → list string → outcome Z * redis;
}.

Module CacheOps.
Import CryptoCacheManager.

Section Warming.
Context `{BE : Backend}.
Context {W : Type}.

(** The loop of [warm_cache]. [warm_function] is the caller's callback; it
    may raise and may change state of its own, [W]. The loop carries the
    count of warmed endpoints and returns, next to it, the endpoints for
    which the callback was invoked. *)
Fixpoint warm_loop (warm_function : W → string → option (list (string * json)) → outcome pyvalue * W)
    (m : t) (now : Z) (critical_endpoints : list (string * option (list (string * json))))
    (w : W) (warmed_count : Z)
  : Z * t * W * list (string * option (list (string * json))) :=
  match critical_endpoints with
  | [] => (warmed_count, m, w, [])
  | (endpoint, params) :: critical_endpoints' =>
      let '(cached_data, m) := get m now endpoint params in
      match cached_data with
      | Ok JNull =>
          let '(fresh_data, w) := warm_function w endpoint params in
          let '(warmed_count, m) :=
            match fresh_data with
            | Ok fresh_data =>
                if negb (is_none fresh_data) then
                  let '(stored, m) := set m now endpoint fresh_data params None in
                  match stored with
                  | Ok true => ((warmed_count + 1)%Z, m)
                  | _ => (warmed_count, m)
                  end
                else (warmed_count, m)
            | Raise _ => (warmed_count, m)
            end in
          let '(n, m, w, fetched) :=
            warm_loop warm_function m now critical_endpoints' w warmed_count in
          (n, m, w, (endpoint, params) :: fetched)
      | _ => warm_loop warm_function m now critical_endpoints' w warmed_count
      end
  end.

(** [warm_cache(critical_endpoints, warm_function)]. *)
Definition warm_cache (warm_function : W → string → option (list (string * json)) → outcome pyvalue * W)
    (m : t) (now : Z) (critical_endpoints : list (string * option (list (string * json))))
    (w : W)
  : Z * t * W * list (string * option (list (string * json))) :=
  if negb (cache_enabled m) then (0%Z, m, w, [])
  else warm_loop warm_function m now critical_endpoints w 0.

End Warming.

Section Invalidation.
Context `{BK : BackendKeys}.

(** [invalidate_pattern(pattern)]. *)
Definition invalidate_pattern (m : t) (now : Z) (pattern : string) : Z * t :=
  if negb (cache_enabled m) then (0%Z, m)
  else
    let '(keys, r) := redis_keys (redis_client m) now ("crypto_cache:" +:+ pattern +:+ "*") in
    let m := with_redis m r in
    match keys with
    | Ok (key :: keys') =>
        let '(deleted, r) := redis_delete (redis_client m) now (key :: keys') in
        let m := with_redis m r in
        match deleted with
        | Ok deleted => (deleted, m)
        | Raise _ => (0%Z, m)
        end
    | Ok [] => (0%Z, m)
    | Raise _ => (0%Z, m)
    end.

(** [clear_all_cache()]. *)
Definition clear_all_cache (m : t) (now : Z) : bool * t :=
  if negb (cache_enabled m) then (false, m)
  else
    let '(deleted, m) := invalidate_pattern m now "" in
    (true, m).

End Invalidation.

Section SmartInvalidation.
Context `{BK : BackendKeys}.

(** The age test of [smart_invalidate],
    [(datetime.utcnow() - datetime.fromisoformat(cached_at)).total_seconds() / 60
     > older_than_minutes],
    at a clock reading, on the text of [cached_at]; the library raises on a
    text that it cannot parse. *)
Context (age_exceeds : Z → string → Z → outcome bool).

(** Truth value of an optional list and of an optional integer. *)
Definition list_given {A} (l : option (list A)) : bool :=
  match l with
  | Some (_ :: _) => true
  | _ => false
  end.

Definition int_given (n : option Z) : bool :=
  match n with
  | Some n => negb (n =? 0)%Z
  | None => false
  end.

(** [data.get(key, '')]: only a [dict] has the method. *)
Definition get_field (data : json) (key : string) : outcome json :=
  match data with
  | JObj fields => Ok (dict_get_default key (JStr "") fields)
  | _ => Raise (LoaderError "AttributeError")
  end.

(** [pattern in endpoint]: a substring of a string, an element of a list, a
    key of a dictionary; the other JSON values are not containers. *)
Definition pattern_in (pattern : string) (endpoint : json) : outcome bool :=
  match endpoint with
  | JStr s => Ok (Str.contains pattern s)
  | JArr items =>
      Ok (existsb (λ item, match item with
                           | JStr s => String.eqb pattern s
                           | _ => false
                           end) items)
  | JObj fields => Ok (existsb (λ kv, String.eqb pattern kv.1) fields)
  | _ => Raise TypeError
  end.

(** The loop over the patterns, left at the first match. *)
Fixpoint any_pattern_in (patterns : list string) (endpoint : json) : outcome bool :=
  match patterns with
  | [] => Ok false
  | pattern :: patterns' =>
      match pattern_in pattern endpoint with
      | Ok found => if found then Ok true else any_pattern_in patterns' endpoint
      | Raise e => Raise e
      end
  end.

(** The three filters on a decoded entry, in the order of the code. *)
Definition entry_matches (now : Z) (patterns data_types : option (list string))
    (older_than_minutes : option Z) (data : json) : outcome bool :=
  by_type ←
    (if list_given data_types then
       match get_field data "data_type" with
       | Ok (JStr tag) => Ok (bool_decide (tag ∈ default [] data_types))
       | Ok _ => Ok false
       | Raise e => Raise e
       end
     else Ok false);
  by_age ←
    (if int_given older_than_minutes then
       match get_field data "cached_at" with
       | Ok (JStr text) => age_exceeds now text (default 0%Z older_than_minutes)
       | Ok _ => Raise TypeError
       | Raise e => Raise e
       end
     else Ok false);
  by_pattern ←
    (if list_given patterns then
       match get_field data "endpoint" with
       | Ok endpoint => any_pattern_in (default [] patterns) endpoint
       | Raise e => Raise e
       end
     else Ok false);
  Ok (by_type || by_age || by_pattern).

(** The body of the loop for one key, given what [get(key)] returned: an
    exception anywhere in it skips the key. *)
Definition should_delete (now : Z) (patterns data_types : option (list string))
    (older_than_minutes : option Z) (cached_data : outcome (option wire)) : bool :=
  match cached_data with
  | Raise _ => false
  | Ok cached_data =>
      let matched :=
        match cached_data with
        | Some payload =>
            if wire_truthy payload then
              data ← json_loads payload;
              entry_matches now patterns data_types older_than_minutes data
            else Ok false
        | None => Ok false
        end in
      match matched with
      | Raise _ => false
      | Ok matched =>
          matched
          || (negb (list_given data_types) && negb (int_given older_than_minutes)
              && negb (list_given patterns))
      end
  end.

(** The loop over the keys: the keys to delete and the backend afterwards. *)
Fixpoint select_keys (now : Z) (patterns data_types : option (list string))
    (older_than_minutes : option Z) (all_keys : list string) (r : redis)
  : list string * redis :=
  match all_keys with
  | [] => ([], r)
  | key :: all_keys' =>
      let '(cached_data, r) := redis_get r now key in
      let '(keys_to_delete, r) :=
        select_keys now patterns data_types older_than_minutes all_keys' r in
      (if should_delete now patterns data_types older_than_minutes cached_data
       then key :: keys_to_delete else keys_to_delete, r)
  end.

(** [smart_invalidate(patterns=None, data_types=None, older_than_minutes=None)]:
    the count returned, the manager afterwards and the keys handed to
    [delete]. *)
Definition smart_invalidate (m : t) (now : Z) (patterns data_types : option (list string))
    (older_than_minutes : option Z) : Z * t * list string :=
  if negb (cache_enabled m) then (0%Z, m, [])
  else
    let '(all_keys, r) := redis_keys (redis_client m) now "crypto_cache:*" in
    match all_keys with
    | Raise _ => (0%Z, with_redis m r, [])
    | Ok all_keys =>
        let '(keys_to_delete, r) :=
          select_keys now patterns data_types older_than_minutes all_keys r in
        match keys_to_delete with
        | [] => (0%Z, with_redis m r, [])
        | _ =>
            let '(deleted, r) := redis_delete r now keys_to_delete in
            (match deleted with
             | Ok deleted => deleted
             | Raise _ => 0%Z
             end, with_redis m r, keys_to_delete)
        end
    end.

End SmartInvalidation.

Section Decorator.
Context `{BE : Backend}.
Context {F : Type}.

(** What a call of a function wrapped by [cache_crypto_request] does:
    return a value, raise what the wrapped function raised, or raise
    [AttributeError] (a cached entry that is not a dictionary has no
    [get]). *)
Inductive wrapper_result : Type :=
| Returned (v : pyvalue)
| Raised (e : exn)
| RaisedAttributeError.

(** The [cache_params] dictionary of the wrapper: the positional arguments
    without the first (the receiver), the keyword arguments, and the data
    type override when one is given and is not empty. *)
Definition cache_params (args : list json) (kwargs : list (string * json))
    (data_type : option string) : list (string * json) :=
  [("args", JArr (drop 1 args)); ("kwargs", JObj kwargs)]
  ++ match data_type with
     | Some data_type =>
         if String.eqb data_type "" then [] else [("_data_type_override", JStr data_type)]
     | None => []
     end.

(** A call of [cache_crypto_request(endpoint, ttl, data_type)(func)] with
    positional and keyword arguments. [func] stands for the call of the
    wrapped function on the same arguments: it may raise and may change
    state of its own, [F]. The last component tells whether it was
    called. *)
Definition wrapper (endpoint : string) (ttl : option Z) (data_type : option string)
    (func : F → outcome pyvalue * F) (m : t) (now : Z) (args : list json)
    (kwargs : list (string * json)) (f : F) : wrapper_result * t * F * bool :=
  let cache_params := Some (cache_params args kwargs data_type) in
  let '(cached_result, m) := get m now endpoint cache_params in
  match cached_result with
  | Ok JNull =>
      let '(result, f) := func f in
      match result with
      | Ok result =>
          let '(_, m) := set m now endpoint result cache_params ttl in
          (Returned result, m, f, true)
      | Raise e => (Raised e, m, f, true)
      end
  | Ok (JObj fields) => (Returned (PJson (dict_get_default "data" JNull fields)), m, f, false)
  | Ok _ => (RaisedAttributeError, m, f, false)
  | Raise e => (Raised e, m, f, false)
  end.

End Decorator.

End CacheOps.

(** The in-process backend with [keys] and [delete]. A pattern is a prefix
    followed by a star, the only form that the cache manager builds from a
    plain pattern. *)
Module InMemoryKeys.
Import InMemory.

Fixpoint but_last (s : string) : string :=
  match s with
  | EmptyString => EmptyString
  | String c EmptyString => EmptyString
  | String c s' => String c (but_last s')
  end.

Definition live_keys (s : store) (now : Z) (pattern : string) : list string :=
  List.filter (λ key, String.prefix (but_last pattern) key
                      && bool_decide (is_Some (lookup_live s now key)))
              (map fst (map_to_list (entries s))).

Definition remove_keys (s : store) (keys : list string) : store :=
  {| reachable := reachable s; entries := foldr delete (entries s) keys |}.

Definition keys (s : store) (now : Z) (pattern : string) : outcome (list string) * store :=
  if reachable s then (Ok (live_keys s now pattern), s) else (Raise ConnectionError, s).

Definition delete_keys (s : store) (now : Z) (keys : list string) : outcome Z * store :=
  if reachable s
  then (Ok (Z.of_nat (length (List.filter
                                (λ key, bool_decide (is_Some (lookup_live s now key))) keys))),
        remove_keys s keys)
  else (Raise ConnectionError, s).

#[export] Instance backend_keys : BackendKeys (BE := InMemory.backend) := {|
  redis_keys := keys;
  redis_delete := delete_keys;
|}.

End InMemoryKeys.

(** ** metric_registry.py: the default providers and the other registry methods *)

Module RegistryOps.
Import DataProvider.

Definition upper_ascii (c : Ascii.ascii) : Ascii.ascii :=
  let n := Ascii.nat_of_ascii c in
  if (97 <=? n)%nat && (n <=? 122)%nat then Ascii.ascii_of_nat (n - 32) else c.

(** [s.upper()], on ASCII letters. *)
Fixpoint upper (s : string) : string :=
  match s with
  | EmptyString => EmptyString
  | String c s' => String (upper_ascii c) (upper s')
  end.

Section Providers.
(** The two methods of [OnChainLoader] that [_fetch_glassnode] calls. Each
    returns a dictionary or raises; what it does may differ from one
    invocation of the Glassnode loader to the next. *)
Context (get_active_addresses get_network_health : nat → string → outcome (list (string * json))).

(** [_fetch_glassnode(metric, asset, **kwargs)]. *)
Definition _fetch_glassnode (invocations : nat) (metric asset : string)
    (kwargs : list (string * json)) : outcome pyvalue :=
  if String.eqb metric "active_addresses" then
    addresses ← get_active_addresses invocations asset;
    Ok (PJson (JObj addresses))
  else if String.eqb metric "hash_rate" then
    health ← get_network_health invocations asset;
    Ok (PJson (dict_get_default "hash_rate_th" JNull health))
  else Ok PNone.

(** [_fetch_intotheblock(metric, asset, **kwargs)]. *)
Definition _fetch_intotheblock (metric asset : string) (kwargs : list (string * json))
  : pyvalue :=
  if String.eqb metric "whale_activity" then
    PJson (JObj [ ("large_transactions_24h", JNum 1247);
                  ("whale_addresses", JNum 1842);
                  ("top_holders_concentration", JStr "14.2%") ])
  else PNone.

(** [_fetch_dune(metric, asset, **kwargs)]. *)
Definition _fetch_dune (metric asset : string) (kwargs : list (string * json)) : pyvalue :=
  if String.eqb metric "defi_tvl" && String.eqb (upper asset) "ETH" then
    PJson (JObj [ ("total_value_locked", JStr "$45,600,000,000");
                  ("protocols_count", JNum 157);
                  ("top_protocol", JStr "Uniswap") ])
  else PNone.

Definition mock_data : list (string * json) :=
  [ ("active_addresses",
     JObj [ ("current_active_addresses", JNum 850000);
            ("30d_average", JNum 820000);
            ("trend", JStr "increasing");
            ("data_source", JStr "MockProvider") ]);
    ("hash_rate", JStr "245.7 TH/s");
    ("transactions_count", JNum 245000);
    ("market_cap", JStr "$2,100,000,000,000");
    ("price", JStr "$116,000.00");
    ("network_health", JStr "Good");
    ("whale_activity",
     JObj [ ("large_transactions", JNum 1100);
            ("accumulation_trend", JStr "increasing") ]) ].

(** [_fetch_mock_data(metric, asset, **kwargs)]: [mock_data.get(metric)]. *)
Definition _fetch_mock_data (metric asset : string) (kwargs : list (string * json))
  : pyvalue :=
  PJson (dict_get_default metric JNull mock_data).

Definition glassnode_metrics : list string :=
  [ "active_addresses"; "hash_rate"; "transactions_count"; "market_cap"; "price";
    "nvt_ratio"; "mvrv_ratio"; "exchange_flows"; "whale_activity"; "hodl_waves" ].

Definition intotheblock_metrics : list string :=
  [ "active_addresses"; "large_transactions"; "whale_activity"; "price"; "market_cap";
    "transaction_volume" ].

Definition dune_metrics : list string :=
  [ "defi_tvl"; "dex_volume"; "lending_activity"; "staking_metrics"; "governance_activity" ].

Definition mock_metrics : list string :=
  [ "active_addresses"; "hash_rate"; "transactions_count"; "market_cap"; "price";
    "network_health"; "whale_activity" ].

(** [_initialize_providers()]: the four providers are appended to
    [self.providers]. *)
Definition _initialize_providers (providers : list DataProvider.t) : list DataProvider.t :=
  providers
  ++ [ DataProvider.init "Glassnode" 1 _fetch_glassnode glassnode_metrics true ]
  ++ [ DataProvider.init "IntoTheBlock" 2
         (λ _ metric asset kwargs, Ok (_fetch_intotheblock metric asset kwargs))
         intotheblock_metrics true ]
  ++ [ DataProvider.init "Dune" 3
         (λ _ metric asset kwargs, Ok (_fetch_dune metric asset kwargs))
         dune_metrics true ]
  ++ [ DataProvider.init "MockProvider" 99
         (λ _ metric asset kwargs, Ok (_fetch_mock_data metric asset kwargs))
         mock_metrics false ].

End Providers.

Section Registry.
Context `{BE : Backend}.
Import MetricRegistry.

(** [MetricRegistry.__init__()], with the cache manager that
    [get_cache_manager()] hands out. *)
Definition init
    (get_active_addresses get_network_health : nat → string → outcome (list (string * json)))
    (cache : CryptoCacheManager.t) : MetricRegistry.t :=
  {| providers := _initialize_providers get_active_addresses get_network_health [];
     cache := cache;
     stats := {| total_batch_requests := 0; cache_hits_in_batch := 0;
                 provider_calls_saved := 0; average_batch_size := Qc_of_Z 0;
                 concurrent_requests := 0 |} |}.

(** [reset_all_providers()]. *)
Definition reset_all_providers (reg : MetricRegistry.t) : MetricRegistry.t :=
  {| providers := reset_health <$> providers reg; cache := cache reg; stats := stats reg |}.

(** [add_custom_provider(name, priority, loader_func, metrics, requires_api_key=False)]. *)
Definition add_custom_provider (reg : MetricRegistry.t) (name : string) (priority : Z)
    (loader_func : nat → string → string → list (string * json) → outcome pyvalue)
    (metrics : list string) (requires_api_key : bool) : MetricRegistry.t :=
  {| providers := providers reg
                  ++ [DataProvider.init name priority loader_func metrics requires_api_key];
     cache := cache reg; stats := stats reg |}.

(** The callback [warm_function(endpoint, params)] of
    [warm_critical_metrics]; its state is the provider list together with
    the loader invocations made so far. [params.get] on [None] is an
    [AttributeError]. The parameters it is called with are those that
    [warm_critical_metrics] builds, which hold two strings; on any other
    dictionary the model returns [None] without a loader invocation, as
    [get_metric] does for a metric that is not a string. *)
Definition warm_function (now : Z) (w : list DataProvider.t * list LoaderCall)
    (endpoint : string) (params : option (list (string * json)))
  : outcome pyvalue * (list DataProvider.t * list LoaderCall) :=
  match params with
  | None => (Raise (LoaderError "AttributeError"), w)
  | Some params =>
      match dict_get_default "metric" JNull params, dict_get_default "asset" JNull params with
      | JStr metric, JStr asset =>
          let '(result, providers', calls) := Fallback.get_metric w.1 metric asset [] now in
          (result, (providers', w.2 ++ calls))
      | _, _ => (Ok PNone, w)
      end
  end.

(** [warm_critical_metrics(assets=None, critical_metrics=None)]: the
    dictionary returned, the registry afterwards and the loader invocations
    made. *)
Definition warm_critical_metrics (reg : MetricRegistry.t) (now : Z)
    (assets critical_metrics : option (list string))
  : list (string * json) * MetricRegistry.t * list LoaderCall :=
  let assets := default ["BTC"; "ETH"; "ADA"; "SOL"] assets in
  let critical_metrics :=
    default [ "price"; "active_addresses"; "whale_activity"; "exchange_flows";
              "market_cap"; "hash_rate" ] critical_metrics in
  let warming_requests :=
    asset ← assets; metric ← critical_metrics; [(metric, asset)] in
  let cache_requests :=
    (λ '(metric, asset),
       ("metric_" +:+ metric, Some [("asset", JStr asset); ("metric", JStr metric)]))
      <$> warming_requests in
  let '(warmed_count, cache', w, fetched) :=
    CacheOps.warm_cache (warm_function now) (cache reg) now cache_requests
      (providers reg, []) in
  ([ ("total_requests", JNum (Z.of_nat (length warming_requests)));
     ("successfully_warmed", JNum warmed_count);
     ("cache_coverage",
      JStr (pretty warmed_count +:+ "/" +:+ pretty (Z.of_nat (length warming_requests)))) ],
   {| providers := w.1; cache := cache'; stats := stats reg |},
   w.2).

(** The calls a client can make on a registry. *)
Inductive op : Type :=
| GetMetric (metric asset : string) (kwargs : list (string * json))
| GetMetricsBatch (requests : list (string * string)) (use_cache : bool) (max_concurrent : Z)
| WarmCriticalMetrics (assets critical_metrics : option (list string))
| ResetAllProviders
| AddCustomProvider (name : string) (priority : Z)
    (loader_func : nat → string → string → list (string * json) → outcome pyvalue)
    (metrics : list string) (requires_api_key : bool).

(** One call at clock reading [now]: the registry afterwards and the loader
    invocations made. *)
Definition step (reg : MetricRegistry.t) (now : Z) (o : op)
  : MetricRegistry.t * list LoaderCall :=
  match o with
  | GetMetric metric asset kwargs =>
      let '(_, reg', calls) := MetricRegistry.get_metric reg now metric asset kwargs in
      (reg', calls)
  | GetMetricsBatch requests use_cache max_concurrent =>
      let '(_, reg', calls) :=
        MetricRegistry.get_metrics_batch reg now requests use_cache max_concurrent in
      (reg', calls)
  | WarmCriticalMetrics assets critical_metrics =>
      let '(_, reg', calls) := warm_critical_metrics reg now assets critical_metrics in
      (reg', calls)
  | ResetAllProviders => (reset_all_providers reg, [])
  | AddCustomProvider name priority loader_func metrics requires_api_key =>
      (add_custom_provider reg name priority loader_func metrics requires_api_key, [])
  end.

(** A sequence of calls, each with its clock reading. *)
Definition run (reg : MetricRegistry.t) (ops : list (Z * op)) : MetricRegistry.t :=
  foldl (λ reg o, (step reg o.1 o.2).1) reg ops.

End Registry.

End RegistryOps.

(** ** Further properties of the TTL policy *)

Module TTLFacts.
Import SmartTTLStrategy.

(** The base TTL of a tag: that of its class, MEDIUM when unmapped. *)
Definition base_ttl (tag : string) : Z :=
  TTL_MAPPING (dict_get_default tag MEDIUM DATA_TYPE_VOLATILITY).

Lemma base_ttl_bounds tag : (10 ≤ base_ttl tag ≤ 900)%Z.
Proof. apply TTLProps.TTL_MAPPING_bounds. Qed.

Lemma base_ttl_even tag : Z.quot (base_ttl tag * 2) 2 = base_ttl tag.
Proof.
  rewrite Z.quot_div_nonneg by (pose proof (base_ttl_bounds tag); lia).
  apply Z.div_mul. lia.
Qed.

Lemma get_ttl_cases tag :
  get_ttl tag true false = base_ttl tag
  ∧ get_ttl tag false false = (base_ttl tag * 2)%Z
  ∧ get_ttl tag true true = Z.max (Z.quot (base_ttl tag) 2) 5
  ∧ get_ttl tag false true = base_ttl tag.
Proof.
  pose proof (base_ttl_bounds tag) as Hb.
  unfold get_ttl, int_times_half. fold (base_ttl tag). cbn [negb].
  split_and!; try done. rewrite base_ttl_even. lia.
Qed.

(** Off hours and a high-volatility period together cancel: doubling and
    then halving gives back the base TTL, which is what [get_ttl] returns
    in market hours outside a high-volatility period. *)
Theorem get_ttl_adjustments_cancel (tag : string) :
  get_ttl tag false true = get_ttl tag true false.
Proof. destruct (get_ttl_cases tag) as (-> & _ & _ & ->). done. Qed.

(** For every tag the four flag combinations are ordered: the TTL in a
    high-volatility period is the smallest, the off-hours TTL the largest,
    and no TTL exceeds 1800 seconds. *)
Theorem get_ttl_flag_order (tag : string) (market_hours high_volatility_period : bool) :
  (get_ttl tag true true ≤ get_ttl tag market_hours high_volatility_period)%Z
  ∧ (get_ttl tag market_hours high_volatility_period ≤ get_ttl tag false false)%Z
  ∧ (get_ttl tag false false ≤ 1800)%Z.
Proof.
  pose proof (base_ttl_bounds tag) as Hb.
  destruct (get_ttl_cases tag) as (H1 & H2 & H3 & H4).
  assert (Z.quot (base_ttl tag) 2 ≤ base_ttl tag)%Z
    by (rewrite Z.quot_div_nonneg by lia; apply Z.div_le_upper_bound; lia).
  destruct market_hours, high_volatility_period; rewrite ?H1, ?H2, ?H3, ?H4; lia.
Qed.

(** A tag of a class with a larger base TTL never gets a smaller TTL, for
    the same flags. *)
Theorem get_ttl_monotone (tag1 tag2 : string) (market_hours high_volatility_period : bool) :
  (base_ttl tag1 ≤ base_ttl tag2)%Z →
  (get_ttl tag1 market_hours high_volatility_period
   ≤ get_ttl tag2 market_hours high_volatility_period)%Z.
Proof.
  intros Hle. pose proof (base_ttl_bounds tag1). pose proof (base_ttl_bounds tag2).
  destruct (get_ttl_cases tag1) as (H1 & H2 & H3 & H4).
  destruct (get_ttl_cases tag2) as (K1 & K2 & K3 & K4).
  assert (Z.quot (base_ttl tag1) 2 ≤ Z.quot (base_ttl tag2) 2)%Z
    by (rewrite !Z.quot_div_nonneg by lia; apply Z.div_le_mono; lia).
  destruct market_hours, high_volatility_period;
    rewrite ?H1, ?H2, ?H3, ?H4, ?K1, ?K2, ?K3, ?K4; lia.
Qed.

Lemma get_ttl_monotone_witness :
  (get_ttl "order_book" true false ≤ get_ttl "active_addresses" true false)%Z.
Proof.
  apply (get_ttl_monotone "order_book" "active_addresses" true false).
  vm_compute. discriminate.
Defined.

End TTLFacts.

(** ** Further properties of the cache manager *)

Module CacheFacts.
Import CryptoCacheManager.

Lemma lower_ascii_idemp c : Str.lower_ascii (Str.lower_ascii c) = Str.lower_ascii c.
Proof. destruct c as [[] [] [] [] [] [] [] []]; reflexivity. Qed.

Lemma lower_idemp s : Str.lower (Str.lower s) = Str.lower s.
Proof. induction s as [|c s IH]; cbn; [done|]. by rewrite lower_ascii_idemp, IH. Qed.

(** *** The order of dictionary items *)

Lemma ascii_compare_refl c : Ascii.compare c c = Eq.
Proof. apply N.compare_refl. Qed.

Lemma ascii_compare_lt_trans a b c :
  Ascii.compare a b = Lt → Ascii.compare b c = Lt → Ascii.compare a c = Lt.
Proof. unfold Ascii.compare. rewrite !N.compare_lt_iff. lia. Qed.

Lemma string_compare_lt_trans s1 s2 s3 :
  String.compare s1 s2 = Lt → String.compare s2 s3 = Lt → String.compare s1 s3 = Lt.
Proof.
  revert s2 s3. induction s1 as [|a s1 IH]; intros [|b s2] [|c s3]; cbn; try done.
  destruct (Ascii.compare a b) eqn:Hab; [|intros _|done].
  - apply Ascii.compare_eq_iff in Hab as ->.
    destruct (Ascii.compare b c); [apply IH|done..].
  - destruct (Ascii.compare b c) eqn:Hbc; [|intros _|done].
    + apply Ascii.compare_eq_iff in Hbc as <-. by rewrite Hab.
    + by rewrite (ascii_compare_lt_trans a b c).
Qed.

Lemma string_leb_trans s1 s2 s3 :
  String.leb s1 s2 = true → String.leb s2 s3 = true → String.leb s1 s3 = true.
Proof.
  unfold String.leb.
  destruct (String.compare s1 s2) eqn:H12; [|intros _|done].
  - by apply String.compare_eq_iff in H12 as ->.
  - destruct (String.compare s2 s3) eqn:H23; [|intros _|done].
    + by apply String.compare_eq_iff in H23 as <-; rewrite H12.
    + by rewrite (string_compare_lt_trans s1 s2 s3).
Qed.

Section Items.
Context {V : Type}.

(** Two items are in order when their keys are. *)
Definition item_le (kv kv' : string * V) : Prop := String.leb kv.1 kv'.1 = true.

Lemma insert_item_perm (kv : string * V) l : Str.insert_item kv l ≡ₚ kv :: l.
Proof.
  induction l as [|kv' l IH]; cbn; [done|].
  destruct (String.leb _ _); [done|]. rewrite IH. apply Permutation_swap.
Qed.

Lemma sorted_items_perm (l : list (string * V)) : Str.sorted_items l ≡ₚ l.
Proof.
  induction l as [|kv l IH]; cbn; [done|]. rewrite insert_item_perm. by f_equiv.
Qed.

Lemma insert_item_sorted (kv : string * V) l :
  StronglySorted item_le l → StronglySorted item_le (Str.insert_item kv l).
Proof.
  induction 1 as [|kv' l Hsorted IH Hall]; cbn; [repeat constructor|].
  destruct (String.leb kv.1 kv'.1) eqn:Hle.
  - constructor; [by constructor|]. constructor; [done|].
    eapply Forall_impl; [exact Hall|]. intros z Hz. by eapply string_leb_trans.
  - constructor; [done|]. rewrite insert_item_perm. constructor; [|done].
    unfold item_le. destruct (String.leb_total kv.1 kv'.1); congruence.
Qed.

Lemma sorted_items_sorted (l : list (string * V)) : StronglySorted item_le (Str.sorted_items l).
Proof.
  induction l as [|kv l IH]; cbn; [constructor|]. by apply insert_item_sorted.
Qed.

Lemma NoDup_keys_inj (l : list (string * V)) kv kv' :
  NoDup l.*1 → kv ∈ l → kv' ∈ l → kv.1 = kv'.1 → kv = kv'.
Proof.
  induction l as [|x l IH]; cbn; [by intros _ ?%elem_of_nil|].
  intros [Hx Hnodup]%NoDup_cons [->|Hkv]%elem_of_cons [->|Hkv']%elem_of_cons Hkey; [done| | |by apply IH].
  - destruct Hx. rewrite Hkey. apply list_elem_of_fmap. by exists kv'.
  - destruct Hx. rewrite <- Hkey. apply list_elem_of_fmap. by exists kv.
Qed.

(** [sorted(params.items())] does not depend on the order in which a
    dictionary was filled. *)
Lemma sorted_items_unique (l1 l2 : list (string * V)) :
  l1 ≡ₚ l2 → NoDup l1.*1 → Str.sorted_items l1 = Str.sorted_items l2.
Proof.
  intros Hperm Hnodup.
  apply (StronglySorted_unique_strong item_le); [|apply sorted_items_sorted..|].
  - intros kv kv' Hkv Hkv' Hle Hge.
    rewrite sorted_items_perm in Hkv. rewrite sorted_items_perm, <- Hperm in Hkv'.
    apply (NoDup_keys_inj l1); [done..|]. by apply String.leb_antisym.
  - by rewrite !sorted_items_perm.
Qed.

End Items.

Section AnyBackend.
Context `{BE : Backend}.

(** The cache key of a request does not depend on the order of its
    parameters: two dictionaries with the same items, whatever the order
    they were filled in, give the same key. *)
Theorem cache_key_ignores_params_order (endpoint : string) (params1 params2 : list (string * json)) :
  params1 ≡ₚ params2 → NoDup params1.*1 →
  _generate_cache_key endpoint params1 = _generate_cache_key endpoint params2.
Proof.
  intros Hperm Hnodup. unfold _generate_cache_key.
  by rewrite (sorted_items_unique params1 params2).
Qed.


(** [_detect_data_type] does not depend on the letter case of the
    endpoint. *)
Theorem detect_data_type_ignores_case (endpoint : string)
    (params : option (list (string * json))) :
  _detect_data_type (Str.lower endpoint) params = _detect_data_type endpoint params.
Proof. unfold _detect_data_type. by rewrite lower_idemp. Qed.

(** On an enabled cache every [get] counts exactly once, as a hit or as a
    miss, and a [get] that returns a value is counted as a hit; a disabled
    cache returns [None] and counts nothing. The other counters and the
    enabled flag are never touched. *)
Theorem get_counts_once (m : t) (now : Z) (endpoint : string)
    (params : option (list (string * json))) :
  let result := (get m now endpoint params).1 in
  let m' := (get m now endpoint params).2 in
  (if cache_enabled m
   then (hits (stats m') + misses (stats m') = hits (stats m) + misses (stats m) + 1)%Z
        ∧ (hits (stats m) ≤ hits (stats m'))%Z
        ∧ (misses (stats m) ≤ misses (stats m'))%Z
        ∧ (if bool_decide (misses (stats m') = misses (stats m)) then True
           else result = Ok JNull)
   else result = Ok JNull ∧ m' = m)
  ∧ cache_enabled m' = cache_enabled m
  ∧ sets (stats m') = sets (stats m)
  ∧ batch_requests (stats m') = batch_requests (stats m)
  ∧ batch_hits (stats m') = batch_hits (stats m).
Proof.
  intros result m'. subst result m'. unfold get.
  destruct (cache_enabled m) eqn:Hen; cbn [negb]; [|cbn; rewrite ?Hen; by split_and!].
  destruct (redis_get _ _ _) as [[[w|]|e] r]; cbn.
  2,3: rewrite ?Hen; split_and!; try done; try lia; case_bool_decide; done || lia.
  destruct (wire_truthy w); [destruct (json_loads w)|]; cbn; rewrite ?Hen;
    split_and!; try done; try lia; case_bool_decide; done || lia.
Qed.

Lemma get_batch_loop_keys key_to_request pairs results (m : t)
    (requests : list (string * option (list (string * json)))) :
  (∀ key request, key_to_request !! key = Some request → request ∈ requests) →
  (∀ k, is_Some (results !! k) →
        ∃ request, request ∈ requests ∧ k = request.1 +:+ ":" +:+ hash_str request.2) →
  ∀ k, is_Some ((get_batch_loop key_to_request pairs results m).1 !! k) →
       ∃ request, request ∈ requests ∧ k = request.1 +:+ ":" +:+ hash_str request.2.
Proof.
  intros Hmap. revert results m.
  induction pairs as [|[cache_key cached_value] pairs IH]; intros results m Hres; cbn; [done|].
  destruct (key_to_request !! cache_key) as [[endpoint params]|] eqn:Hkey; [|done].
  assert (∀ v k, is_Some (<[endpoint +:+ ":" +:+ hash_str params := v]> results !! k) →
                 ∃ request, request ∈ requests ∧ k = request.1 +:+ ":" +:+ hash_str request.2)
    as Hins.
  { intros v k. destruct (decide (endpoint +:+ ":" +:+ hash_str params = k)) as [<-|Hne].
    - intros _. exists (endpoint, params). split; [by eapply Hmap|done].
    - rewrite lookup_insert_ne by done. apply Hres. }
  destruct cached_value as [w|]; [|by apply IH, Hins].
  destruct (wire_truthy w); [|by apply IH, Hins].
  destruct (json_loads w) as [data|[]]; try done; by apply IH; try apply Hins.
Qed.

(** The keys of the dictionary that [get_batch] returns are identifiers of
    requests of its argument, "endpoint:hash"; a disabled cache returns the
    empty dictionary. *)
Theorem get_batch_keys (m : t) (now : Z)
    (requests : list (string * option (list (string * json)))) (k : string) :
  (if cache_enabled m then True else (get_batch m now requests).1 = ∅)
  ∧ (is_Some ((get_batch m now requests).1 !! k) →
     ∃ request, request ∈ requests ∧ k = request.1 +:+ ":" +:+ hash_str request.2).
Proof.
  unfold get_batch. destruct (cache_enabled m); cbn [negb];
    [split; [done|]|split; [done|by intros [? [=]]]].
  destruct (map _ requests) as [|key keys] eqn:Hkeys; [by intros [? [=]]|].
  destruct (redis_mget _ _ _) as [[values|e] r]; [|by intros [? [=]]].
  apply get_batch_loop_keys; [|by intros ? [? [=]]].
  clear. intros key request.
  enough (∀ acc : gmap string (string * option (list (string * json))),
    (∀ key request, acc !! key = Some request → request ∈ requests ∨ False) →
    ∀ l, l ⊆ requests →
    foldl (λ acc '(endpoint, params),
             <[_generate_cache_key endpoint (or_empty params) := (endpoint, params)]> acc)
          acc l !! key = Some request → request ∈ requests) as Hgen.
  { apply (Hgen ∅); [by intros ? ? [=]|done]. }
  intros acc Hacc l. revert acc Hacc.
  induction l as [|[endpoint params] l IH]; intros acc Hacc Hsub; cbn.
  - intros Hk. by destruct (Hacc _ _ Hk).
  - apply IH; [|set_solver]. intros key' request'.
    destruct (decide (_generate_cache_key endpoint (or_empty params) = key')) as [<-|Hne].
    + rewrite lookup_insert_eq. intros [= <-]. left. apply Hsub. left.
    + rewrite lookup_insert_ne by done. apply Hacc.
Qed.

Lemma pipeline_commands_raises now
    (data_items : list (string * pyvalue * option (list (string * json)) * option Z)) :
  is_raise (pipeline_commands now data_items)
  = existsb (λ item, is_raise (json_dumps
                        (cache_data now item.1.1.1 item.1.1.2 item.1.2
                           (resolve_ttl now item.1.1.1 item.1.2 item.2)))) data_items.
Proof.
  induction data_items as [|[[[endpoint data] params] ttl] items IH]; cbn; [done|].
  destruct (json_dumps _) as [payload|e]; cbn; [|done].
  rewrite <- IH. by destruct (pipeline_commands now items).
Qed.

(** [set_batch] stores all items or none: when one item of the batch
    cannot be serialised, the pipeline is never executed, so nothing is
    stored, the backend and the counters are as before and the count
    returned is zero; the same holds for a disabled cache. *)
Theorem set_batch_all_or_nothing (m : t) (now : Z)
    (data_items : list (string * pyvalue * option (list (string * json)) * option Z)) :
  if negb (cache_enabled m)
     || existsb (λ item, is_raise (json_dumps
                           (cache_data now item.1.1.1 item.1.1.2 item.1.2
                              (resolve_ttl now item.1.1.1 item.1.2 item.2)))) data_items
  then set_batch m now data_items = (0%Z, m)
  else ∃ commands,
         pipeline_commands now data_items = Ok commands
         ∧ length commands = length data_items
         ∧ (set_batch m now data_items).2
           = (let r := redis_pipeline_setex (redis_client m) now commands in
              match r.1 with
              | Ok results =>
                  count_sets (Z.of_nat (length (filter (λ b, b = true) results)))
                    (with_redis m r.2)
              | Raise _ => with_redis m r.2
              end).
Proof.
  unfold set_batch. rewrite <- pipeline_commands_raises.
  destruct (cache_enabled m); cbn [negb orb]; [|done].
  assert (∀ commands, pipeline_commands now data_items = Ok commands →
                      length commands = length data_items) as Hlen.
  { clear. induction data_items as [|[[[endpoint data] params] ttl] items IH];
      intros commands; cbn; [by intros [= <-]|].
    destruct (json_dumps _) as [payload|e]; cbn; [|done].
    destruct (pipeline_commands now items) as [commands'|e]; cbn; [|done].
    intros [= <-]. cbn. by rewrite (IH commands'). }
  destruct (pipeline_commands now data_items) as [commands|e]; cbn; [|done].
  exists commands. split; [done|]. split; [by apply Hlen|].
  destruct (redis_pipeline_setex _ _ _) as [[results|e] r]; done.
Qed.

End AnyBackend.

Lemma cache_key_ignores_params_order_witness :
  _generate_cache_key (H := InMemory.runtime) "price"
    [("metric", JStr "price"); ("asset", JStr "BTC")]
  = _generate_cache_key (H := InMemory.runtime) "price"
      [("asset", JStr "BTC"); ("metric", JStr "price")].
Proof.
  apply (cache_key_ignores_params_order (H := InMemory.runtime) "price"
           [("metric", JStr "price"); ("asset", JStr "BTC")]
           [("asset", JStr "BTC"); ("metric", JStr "price")]).
  - apply perm_swap.
  - cbn. apply NoDup_cons. split; [|apply NoDup_singleton].
    intros Hin. apply list_elem_of_singleton in Hin. discriminate Hin.
Defined.

End CacheFacts.

(** ** Properties of cache warming, invalidation and the decorator *)

Module CacheOpsFacts.
Import CryptoCacheManager CacheOps.

Section AnyBackend.
Context `{BE : Backend}.



Section Warming.
Context {W : Type}
  (warm_function : W → string → option (list (string * json)) → outcome pyvalue * W).


Lemma warm_loop_state (I : W → Prop) (m : t) now critical_endpoints (w : W) warmed_count :
  (∀ w endpoint params, (endpoint, params) ∈ critical_endpoints →
                        I w → I (warm_function w endpoint params).2) →
  I w → I (warm_loop warm_function m now critical_endpoints w warmed_count).1.2.
Proof.
  revert m w warmed_count.
  induction critical_endpoints as [|[endpoint params] eps IH]; intros m w warmed_count Hstep Hw;
    [done|].
  assert (∀ w endpoint params, (endpoint, params) ∈ eps →
                               I w → I (warm_function w endpoint params).2) as Hstep'
    by (intros w0 e0 p0 Hin; apply Hstep; by right).
  cbn [warm_loop]. destruct (get m now endpoint params) as [cached m1].
  destruct cached as [[]|e]; try by apply IH.
  specialize (Hstep w endpoint params (ltac:(left)) Hw).
  destruct (warm_function w endpoint params) as [fresh w1]. cbn in Hstep.
  destruct (match fresh with Ok _ => _ | Raise _ => _ end) as [warmed1 m2].
  specialize (IH m2 w1 warmed1 Hstep' Hstep).
  by destruct (warm_loop warm_function m2 now eps w1 warmed1) as [[[n m'] w'] fetched].
Qed.

Lemma warm_cache_state (I : W → Prop) (m : t) now critical_endpoints (w : W) :
  (∀ w endpoint params, (endpoint, params) ∈ critical_endpoints →
                        I w → I (warm_function w endpoint params).2) →
  I w → I (warm_cache warm_function m now critical_endpoints w).1.2.
Proof.
  intros Hstep Hw. unfold warm_cache. destruct (negb (cache_enabled m)); [done|].
  by apply warm_loop_state.
Qed.


End Warming.

Lemma get_after_set_entry (m m' : t) now later endpoint data params ttl :
  CacheProps.codec_round_trips → CacheProps.backend_keeps_entries →
  set m now endpoint data params ttl = (Ok true, m') →
  (now ≤ later < now + resolve_ttl now endpoint params ttl)%Z →
  (get m' later endpoint params).1
  = Ok (cache_data now endpoint data params (resolve_ttl now endpoint params ttl)).
Proof.
  intros Hcodec Hbackend Hset Hlater.
  apply CacheProps.set_true_inv in Hset as (payload & r & Hen & Hdumps & Hsetex & ->).
  apply Hcodec in Hdumps as [Hloads Htruthy].
  pose proof (Hbackend _ _ _ _ _ _ _ Hsetex Hlater) as Hget.
  unfold get. cbn [cache_enabled count_sets with_stats with_redis redis_client].
  rewrite Hen. cbn [negb].
  destruct (redis_get r later _) as [got r'']. cbn in Hget. subst got.
  by rewrite Htruthy, Hloads.
Qed.

Section Decorator.
Context {F : Type}.

(** A call through the caching decorator either reaches the wrapped
    function, and then returns or raises exactly what the function does, or
    does not reach it and leaves its state alone; with a disabled cache every
    call reaches the function and the cache manager is unchanged. *)
Theorem wrapper_is_transparent (endpoint : string) (ttl : option Z) (data_type : option string)
    (func : F → outcome pyvalue * F) (m : t) (now : Z) (args : list json)
    (kwargs : list (string * json)) (f : F) :
  let call := wrapper endpoint ttl data_type func m now args kwargs f in
  (if call.2
   then call.1.1.1 = match (func f).1 with
                     | Ok v => Returned v
                     | Raise e => Raised e
                     end
        ∧ call.1.2 = (func f).2
   else call.1.2 = f)
  ∧ (if cache_enabled m then True else call.2 = true ∧ call.1.1.2 = m).
Proof.
  unfold wrapper.
  assert (cache_enabled m = false →
          get m now endpoint (Some (cache_params args kwargs data_type)) = (Ok JNull, m))
    as Hoff by (unfold get; by intros ->).
  destruct (get m now endpoint _) as [cached m1] eqn:Hget.
  destruct cached as [[]|e]; cbn;
    try (split; [done|]; destruct (cache_enabled m); [done|]; by specialize (Hoff eq_refl)).
  destruct (func f) as [[v|e] f1]; cbn.
  - assert (cache_enabled m = false → (set m1 now endpoint v
              (Some (cache_params args kwargs data_type)) ttl).2 = m) as Hset.
    { intros Hen. specialize (Hoff Hen). injection Hoff as <-. unfold set. by rewrite Hen. }
    destruct (set m1 now endpoint v _ ttl) as [stored m2]. cbn in *.
    split; [done|]. destruct (cache_enabled m); [done|]. split; [done|]. by apply Hset.
  - split; [done|]. destruct (cache_enabled m); [done|].
    specialize (Hoff eq_refl). by injection Hoff as <-.
Qed.

(** Memoisation through the decorator: after a call that missed the cache,
    got [v] from the wrapped function and stored it, a call with the same
    arguments before the TTL has elapsed does not reach the wrapped function
    and returns the JSON form of [v]: [v] itself for a JSON value, the
    [str] text for a data frame. *)
Theorem wrapper_memoises (endpoint : string) (ttl : option Z) (data_type : option string)
    (func func' : F → outcome pyvalue * F) (m : t) (now later : Z) (args : list json)
    (kwargs : list (string * json)) (f f1 f' : F) (v : pyvalue) :
  let params := Some (cache_params args kwargs data_type) in
  let first := wrapper endpoint ttl data_type func m now args kwargs f in
  let second := wrapper endpoint ttl data_type func' first.1.1.2 later args kwargs f' in
  CacheProps.codec_round_trips → CacheProps.backend_keeps_entries →
  (get m now endpoint params).1 = Ok JNull →
  func f = (Ok v, f1) →
  (set (get m now endpoint params).2 now endpoint v params ttl).1 = Ok true →
  (now ≤ later < now + resolve_ttl now endpoint params ttl)%Z →
  first = (Returned v, first.1.1.2, f1, true)
  ∧ second.1.1.1 = Returned (PJson (default_str v))
  ∧ second.1.2 = f'
  ∧ second.2 = false.
Proof.
  intros params first second Hcodec Hbackend Hmiss Hfunc Hset Hlater.
  subst first second. unfold wrapper. fold params.
  destruct (get m now endpoint params) as [cached m1]. cbn in Hmiss, Hset. subst cached.
  rewrite Hfunc.
  destruct (set m1 now endpoint v params ttl) as [stored m2] eqn:Hstore.
  cbn in Hset. subst stored. cbn [fst snd].
  pose proof (get_after_set_entry m1 m2 now later endpoint v params ttl
                Hcodec Hbackend Hstore Hlater) as Hget.
  destruct (get m2 later endpoint params) as [cached m3]. cbn in Hget. subst cached.
  by cbn.
Qed.

(** The data type override of the decorator has no effect on the detected
    data type nor on the smart TTL: the parameters that the decorator builds
    never have a "timeframe" key, so for a wrapped function both depend on
    the endpoint alone. *)
Theorem decorator_override_is_ignored (endpoint : string) (args : list json)
    (kwargs : list (string * json)) (data_type : option string) (now : Z) :
  _detect_data_type endpoint (Some (cache_params args kwargs data_type))
  = _detect_data_type endpoint None
  ∧ resolve_ttl now endpoint (Some (cache_params args kwargs data_type)) None
    = resolve_ttl now endpoint None None.
Proof.
  assert (dict_get "timeframe" (cache_params args kwargs data_type) = None) as Hkey.
  { unfold cache_params. destruct data_type as [dt|]; [|done].
    by destruct (String.eqb dt ""). }
  assert (_detect_data_type endpoint (Some (cache_params args kwargs data_type))
          = _detect_data_type endpoint None) as Hdetect.
  { unfold _detect_data_type. cbn [or_empty]. by rewrite Hkey. }
  split; [done|]. unfold resolve_ttl. by rewrite Hdetect.
Qed.

End Decorator.

End AnyBackend.

Section Invalidation.
Context `{BK : BackendKeys}.

(** [clear_all_cache] reports success whenever the cache is enabled, also
    when the backend raised and nothing was deleted; [invalidate_pattern]
    returns a count other than zero only when the backend listed keys and
    deleted them. *)
Theorem clear_all_cache_reports_enabled (m : t) (now : Z) (pattern : string) :
  (clear_all_cache m now).1 = cache_enabled m
  ∧ (∀ n, (invalidate_pattern m now pattern).1 = n → n ≠ 0%Z →
       ∃ keys r,
         cache_enabled m = true
         ∧ redis_keys (redis_client m) now ("crypto_cache:" +:+ pattern +:+ "*") = (Ok keys, r)
         ∧ keys ≠ []
         ∧ (redis_delete r now keys).1 = Ok n).
Proof.
  split.
  - unfold clear_all_cache. destruct (cache_enabled m); cbn [negb]; [|done].
    by destruct (invalidate_pattern m now "").
  - intros n. unfold invalidate_pattern. destruct (cache_enabled m); cbn [negb]; [|by intros <-].
    destruct (redis_keys _ _ _) as [[[|key keys]|e] r]; cbn; try by intros <-.
    destruct (redis_delete r now (key :: keys)) as [[deleted|e] r'] eqn:Hdel; cbn;
      [|by intros <-].
    intros <- _. exists (key :: keys), r. by rewrite Hdel.
Qed.

End Invalidation.

Section SmartInvalidation.
Context `{BK : BackendKeys}.
Context (age_exceeds : Z → string → Z → outcome bool).

Lemma select_keys_sublist now patterns data_types older_than_minutes all_keys r :
  (select_keys age_exceeds now patterns data_types older_than_minutes all_keys r).1
    `sublist_of` all_keys.
Proof.
  revert r. induction all_keys as [|key all_keys IH]; intros r; [done|].
  cbn [select_keys]. destruct (redis_get r now key) as [cached_data r1].
  specialize (IH r1).
  destruct (select_keys age_exceeds now patterns data_types older_than_minutes all_keys r1)
    as [keys_to_delete r2].
  cbn in *. destruct (should_delete _ _ _ _ _ _); [by apply sublist_skip|by apply sublist_cons].
Qed.

(** [smart_invalidate] deletes listed keys only: the keys it hands to
    [delete] are keys that the backend listed for "crypto_cache:*", in the
    order listed; the count it returns is not zero only when [delete] was
    called on them and returned it; it changes neither the enabled flag nor
    the counters, and on a disabled cache it does nothing and returns 0. *)
Theorem smart_invalidate_deletes_listed_keys (m : t) (now : Z)
    (patterns data_types : option (list string)) (older_than_minutes : option Z) :
  let result := smart_invalidate age_exceeds m now patterns data_types older_than_minutes in
  let listed := redis_keys (redis_client m) now "crypto_cache:*" in
  (if cache_enabled m
   then match listed.1 with
        | Ok all_keys => result.2 `sublist_of` all_keys
        | Raise _ => result.2 = [] ∧ result.1.1 = 0%Z
        end
   else result = (0%Z, m, []))
  ∧ (result.1.1 ≠ 0%Z →
     result.2 ≠ [] ∧ ∃ r, (redis_delete r now result.2).1 = Ok result.1.1)
  ∧ cache_enabled result.1.2 = cache_enabled m
  ∧ stats result.1.2 = stats m.
Proof.
  intros result listed. subst result listed. unfold smart_invalidate.
  destruct (cache_enabled m) eqn:Hen; cbn [negb]; [|by split_and!].
  destruct (redis_keys (redis_client m) now "crypto_cache:*") as [[all_keys|e] r];
    cbn [fst snd]; [|by split_and!].
  pose proof (select_keys_sublist now patterns data_types older_than_minutes all_keys r)
    as Hsub.
  destruct (select_keys age_exceeds now patterns data_types older_than_minutes all_keys r)
    as [[|key keys_to_delete] r1]; cbn [fst snd] in *; [by split_and!|].
  destruct (redis_delete r1 now (key :: keys_to_delete)) as [deleted r2] eqn:Hdel.
  cbn [fst snd]. split_and!; try done.
  intros Hcount. split; [done|]. exists r1. rewrite Hdel. cbn.
  by destruct deleted.
Qed.

Lemma any_pattern_in_string patterns endpoint :
  any_pattern_in patterns (JStr endpoint)
  = Ok (existsb (λ pattern, Str.contains pattern endpoint) patterns).
Proof.
  induction patterns as [|pattern patterns IH]; [done|]. cbn.
  by destruct (Str.contains pattern endpoint).
Qed.

(** How the filters of [smart_invalidate] read an entry that [set] or
    [set_batch] wrote: the data type filter selects it when the data type
    detected for its endpoint and parameters is in the list, the pattern
    filter when a pattern occurs in its endpoint, the age filter by the time
    it was written; the first two never raise on such an entry. *)
Theorem filters_on_stored_entry (now cached_at : Z) (patterns data_types : option (list string))
    (older_than_minutes : option Z) (endpoint : string) (data : pyvalue)
    (params : option (list (string * json))) (ttl : Z) :
  entry_matches age_exceeds now patterns data_types older_than_minutes
    (cache_data cached_at endpoint data params ttl)
  = match (if int_given older_than_minutes
           then age_exceeds now (isoformat cached_at) (default 0%Z older_than_minutes)
           else Ok false) with
    | Ok by_age =>
        Ok ((list_given data_types
             && bool_decide (_detect_data_type endpoint params ∈ default [] data_types))
            || by_age
            || (list_given patterns
                && existsb (λ pattern, Str.contains pattern endpoint) (default [] patterns)))
    | Raise e => Raise e
    end.
Proof.
  unfold entry_matches, cache_data, get_field.
  cbn [dict_get_default dict_get String.eqb Ascii.eqb Bool.eqb].
  rewrite any_pattern_in_string.
  destruct (list_given data_types), (int_given older_than_minutes), (list_given patterns);
    cbn; try done; by destruct (age_exceeds _ _ _).
Qed.

End SmartInvalidation.

Lemma wrapper_memoises_witness :
  let func := λ n : nat, (Ok (PJson (JNum 7)) : outcome pyvalue, S n) in
  let first := wrapper (BE := InMemory.backend) "price" None None func
                 CacheProps.fresh_manager 0 [JStr "self"; JStr "BTC"] [] 0 in
  let second := wrapper (BE := InMemory.backend) "price" None None func first.1.1.2 29
                  [JStr "self"; JStr "BTC"] [] 1 in
  first = (Returned (PJson (JNum 7)), first.1.1.2, 1, true)
  ∧ second.1.1.1 = Returned (PJson (JNum 7))
  ∧ second.1.2 = 1
  ∧ second.2 = false.
Proof.
  refine (wrapper_memoises (BE := InMemory.backend) "price" None None
            (λ n : nat, (Ok (PJson (JNum 7)) : outcome pyvalue, S n))
            (λ n : nat, (Ok (PJson (JNum 7)) : outcome pyvalue, S n))
            CacheProps.fresh_manager 0 29 [JStr "self"; JStr "BTC"] [] 0 1 1 (PJson (JNum 7))
            CacheProps.in_memory_codec_round_trips CacheProps.in_memory_backend_keeps_entries
            _ _ _ _).
  - reflexivity.
  - reflexivity.
  - reflexivity.
  - split; [lia|]. vm_compute. reflexivity.
Defined.

End CacheOpsFacts.

(** ** Properties of the registry over sequences of calls *)

Module RegistryFacts.
Import DataProvider Fallback MetricRegistry RegistryOps.

(** What the registry can do to a provider object: invoke its loader and
    record a success, nothing or, when the loader raised, a failure; or
    reset its health. *)
Inductive evolves : DataProvider.t → DataProvider.t → Prop :=
| evolves_refl p : evolves p p
| evolves_success p p' now : evolves p p' → evolves p (record_success (invoked p') now)
| evolves_empty p p' : evolves p p' → evolves p (invoked p')
| evolves_failure p p' metric asset kwargs e :
    evolves p p' → loader_result p' metric asset kwargs = Raise e →
    evolves p (record_failure (invoked p'))
| evolves_reset p p' : evolves p p' → evolves p (reset_health p').

Lemma evolves_trans p q r : evolves p q → evolves q r → evolves p r.
Proof.
  intros Hpq Hqr. induction Hqr; [done|..].
  - by apply evolves_success, IHHqr.
  - by apply evolves_empty, IHHqr.
  - eapply evolves_failure; [by apply IHHqr|done].
  - by apply evolves_reset, IHHqr.
Qed.

Lemma evolves_fields p p' :
  evolves p p' →
  name p' = name p ∧ priority p' = priority p ∧ loader_func p' = loader_func p
  ∧ available_metrics p' = available_metrics p ∧ requires_api_key p' = requires_api_key p.
Proof. induction 1; cbn; tauto. Qed.

Lemma evolves_health_inv p p' :
  evolves p p' → HealthProps.health_inv p → HealthProps.health_inv p'.
Proof.
  intros Hev Hp. induction Hev; [done|..].
  - apply (HealthProps.health_inv_step (invoked p') (RecordSuccess now)). by apply IHHev.
  - by apply IHHev.
  - apply (HealthProps.health_inv_step (invoked p') RecordFailure). by apply IHHev.
  - apply (HealthProps.health_inv_step p' ResetHealth). by apply IHHev.
Qed.

Lemma evolves_never_raises p p' :
  evolves p p' →
  (∀ n metric asset kwargs, is_raise (loader_func p n metric asset kwargs) = false) →
  is_healthy p = true → is_healthy p' = true.
Proof.
  intros Hev Hloader Hp. induction Hev; cbn; try done; [by apply IHHev|].
  apply evolves_fields in Hev as (_ & _ & Hsame & _).
  unfold loader_result in *. rewrite Hsame in *.
  specialize (Hloader (calls p') metric asset kwargs). by rewrite H in Hloader.
Qed.

Lemma Forall2_evolves_refl ps : Forall2 evolves ps ps.
Proof. apply Forall_Forall2_diag, Forall_forall. intros p _. constructor. Qed.

Lemma Forall2_evolves_trans ps qs rs :
  Forall2 evolves ps qs → Forall2 evolves qs rs → Forall2 evolves ps rs.
Proof. apply Forall2_trans. intros p q r. apply evolves_trans. Qed.

Lemma Forall2_evolves_imap (f : nat → DataProvider.t → DataProvider.t) ps :
  (∀ j p, evolves p (f j p)) → Forall2 evolves ps (imap f ps).
Proof.
  revert f. induction ps as [|p ps IH]; intros f Hf; cbn; constructor; [done|].
  apply IH. intros j q. apply Hf.
Qed.

Lemma Forall2_evolves_insert ps i p p' :
  ps !! i = Some p → evolves p p' → Forall2 evolves ps (<[i := p']> ps).
Proof.
  intros Hp Hev. rewrite <- (list_insert_id ps i p) at 1 by done.
  apply Forall2_insert; [apply Forall2_evolves_refl|done].
Qed.

Lemma after_call_evolves metric asset kwargs now p :
  evolves p (FallbackProps.after_call metric asset kwargs now p).
Proof.
  unfold FallbackProps.after_call.
  destruct (loader_result p metric asset kwargs) as [v|e] eqn:Hres.
  - destruct (non_empty v); repeat constructor.
  - eapply evolves_failure; [constructor|done].
Qed.

Lemma get_metric_evolves ps metric asset kwargs now :
  Forall2 evolves ps (Fallback.get_metric ps metric asset kwargs now).1.2.
Proof.
  rewrite FallbackProps.get_metric_spec. cbn. unfold FallbackProps.settle.
  apply Forall2_evolves_imap. intros j p. case_bool_decide; [|constructor].
  apply after_call_evolves.
Qed.

Lemma _execute_provider_batch_evolves now i provider requests results :
  evolves provider (_execute_provider_batch now i provider requests results).1.2.
Proof.
  revert provider results.
  induction requests as [|[metric asset] requests IH]; intros provider results;
    [constructor|].
  cbn [_execute_provider_batch].
  destruct (loader_result provider metric asset []) as [v|e] eqn:Hres;
    [destruct (negb (is_none v))|].
  all: match goal with
       | |- context [_execute_provider_batch ?t ?j ?q ?rs ?r] =>
           specialize (IH q r);
           destruct (_execute_provider_batch t j q rs r) as [[results' q'] calls]
       end; cbn in *; eapply evolves_trans; [|exact IH].
  - repeat constructor.
  - repeat constructor.
  - eapply evolves_failure; [constructor|done].
Qed.

Lemma run_provider_groups_evolves now provider_groups ps results completed :
  Forall2 evolves ps (run_provider_groups now provider_groups ps results completed).1.1.2.
Proof.
  revert ps results completed.
  induction provider_groups as [|[provider_name provider_requests] groups IH];
    intros ps results completed; [apply Forall2_evolves_refl|].
  cbn [run_provider_groups].
  destruct (list_find _ ps) as [[i provider]|] eqn:Hfound; [|apply IH].
  apply list_find_Some in Hfound as (Hi & _).
  pose proof (_execute_provider_batch_evolves now i provider provider_requests []) as Hev.
  destruct (_execute_provider_batch now i provider provider_requests [])
    as [[provider_results provider'] calls].
  match goal with
  | |- context [run_provider_groups ?t ?gs ?qs ?r ?c] =>
      specialize (IH qs r c);
      destruct (run_provider_groups t gs qs r c) as [[[results' ps'] completed'] calls']
  end.
  cbn in *. eapply Forall2_evolves_trans; [|exact IH]. by eapply Forall2_evolves_insert.
Qed.

Lemma _execute_provider_batches_evolves now provider_groups max_concurrent ps :
  Forall2 evolves ps
    (_execute_provider_batches now provider_groups max_concurrent ps).1.1.2.
Proof.
  unfold _execute_provider_batches.
  destruct (max_concurrent <=? 0)%Z; [apply Forall2_evolves_refl|].
  pose proof (run_provider_groups_evolves now provider_groups ps [] 0) as Hev.
  by destruct (run_provider_groups now provider_groups ps [] 0)
    as [[[results ps'] completed] calls].
Qed.

Lemma Forall2_evolves_names ps ps' : Forall2 evolves ps ps' → name <$> ps' = name <$> ps.
Proof.
  induction 1 as [|p p' ps ps' Hev _ IH]; [done|]. cbn.
  apply evolves_fields in Hev as (-> & _). by rewrite IH.
Qed.

Lemma Forall2_evolves_health_inv ps ps' :
  Forall2 evolves ps ps' → Forall HealthProps.health_inv ps → Forall HealthProps.health_inv ps'.
Proof.
  induction 1 as [|p p' ps ps' Hev _ IH]; [done|].
  intros [Hp Hps]%Forall_cons. constructor; [by eapply evolves_health_inv|by apply IH].
Qed.

(** When the loader of some eligible provider delivers, [get_metric]
    returns a value that is not empty. *)
Lemma get_metric_answers ps metric asset kwargs now i p :
  ps !! i = Some p → can_provide p metric = true →
  is_Some (FallbackProps.delivered metric asset kwargs p) →
  ∃ v, (Fallback.get_metric ps metric asset kwargs now).1.1 = Ok v ∧ non_empty v = true.
Proof.
  intros Hp Hcan Hdel. rewrite FallbackProps.get_metric_spec. cbn.
  unfold FallbackProps.result_of.
  destruct (list_find _ _) as [[k j]|] eqn:Hfound.
  - apply list_find_Some in Hfound as (_ & [v Hv] & _). exists v. rewrite Hv. split; [done|].
    unfold FallbackProps.delivers in Hv. destruct (ps !! j) as [q|]; [|done]. cbn in Hv.
    unfold FallbackProps.delivered in Hv.
    destruct (loader_result q metric asset kwargs) as [w|e]; [|done].
    destruct (non_empty w) eqn:Hw; [|done]. by injection Hv as <-.
  - apply list_find_None in Hfound.
    assert (i ∈ (available_providers ps metric).*1) as Hin
      by (apply FallbackProps.available_providers_index; by exists p).
    eapply Forall_forall in Hfound; [|exact Hin]. exfalso. apply Hfound.
    unfold FallbackProps.delivers. by rewrite Hp.
Qed.

(** A provider that cannot supply the metric is left as it is. *)
Lemma get_metric_skips ps metric asset kwargs now i p :
  ps !! i = Some p → can_provide p metric = false →
  (Fallback.get_metric ps metric asset kwargs now).1.2 !! i = Some p
  ∧ ∀ c, c ∈ (Fallback.get_metric ps metric asset kwargs now).2 → call_provider c ≠ i.
Proof.
  intros Hp Hcan.
  assert (i ∉ FallbackProps.tried_of metric asset kwargs ps (available_providers ps metric).*1)
    as Hout.
  { intros Hin%FallbackProps.tried_of_subseteq.
    apply FallbackProps.available_providers_index in Hin as (q & Hq & Hcan').
    rewrite Hp in Hq. injection Hq as <-. congruence. }
  rewrite FallbackProps.get_metric_spec. cbn. split.
  - rewrite FallbackProps.settle_lookup. by rewrite bool_decide_eq_false_2.
  - intros c (j & -> & Hj)%list_elem_of_fmap. cbn. by intros ->.
Qed.

(** [get_metric] invokes no loader exactly when no provider is both healthy
    and a supplier of the metric, and then it returns [None] and leaves the
    providers untouched. *)
Theorem get_metric_without_provider (ps : list DataProvider.t) (metric asset : string)
    (kwargs : list (string * json)) (now : Z) :
  ((Fallback.get_metric ps metric asset kwargs now).2 = []
   ↔ ∀ p, p ∈ ps → can_provide p metric = false)
  ∧ ((Fallback.get_metric ps metric asset kwargs now).2 = [] →
     Fallback.get_metric ps metric asset kwargs now = (Ok PNone, ps, [])).
Proof.
  assert ((Fallback.get_metric ps metric asset kwargs now).2 = [] →
          available_providers ps metric = []) as Hcalls.
  { rewrite FallbackProps.get_metric_spec. cbn. intros Hnil%fmap_nil_inv.
    destruct (available_providers ps metric) as [|[i q] l]; [done|]. cbn in Hnil.
    unfold FallbackProps.tried_of in Hnil.
    destruct (list_find _ _) as [[k j]|]; [|done]. by rewrite firstn_cons in Hnil. }
  assert (available_providers ps metric = [] →
          Fallback.get_metric ps metric asset kwargs now = (Ok PNone, ps, [])) as Hnone
    by (unfold Fallback.get_metric; by intros ->).
  split; [split|].
  - intros Hnil%Hcalls p Hp. destruct (can_provide p metric) eqn:Hcan; [|done]. exfalso.
    by eapply (proj2 (BatchProps.available_providers_nonempty ps metric)); [exists p|].
  - intros Hno. rewrite Hnone; [done|].
    destruct (available_providers ps metric) as [|[i q] l] eqn:Hav; [done|]. exfalso.
    assert ((i, q) ∈ available_providers ps metric) as Hin by (rewrite Hav; left).
    apply FallbackProps.available_providers_elem in Hin as [Hq Hcan].
    rewrite (Hno q) in Hcan; [done|]. by eapply list_elem_of_lookup_2.
  - intros Hnil. by apply Hnone, Hcalls.
Qed.

Lemma unhealthy_cannot_provide p metric : is_healthy p = false → can_provide p metric = false.
Proof. unfold can_provide. intros ->. apply andb_false_r. Qed.

Lemma run_provider_groups_untouched now provider_groups ps results completed i p :
  ps !! i = Some p → Forall (λ g, g.1 ≠ name p) provider_groups →
  (run_provider_groups now provider_groups ps results completed).1.1.2 !! i = Some p.
Proof.
  revert ps results completed.
  induction provider_groups as [|[provider_name provider_requests] groups IH];
    intros ps results completed Hp Hnames; [done|].
  apply Forall_cons in Hnames as [Hname Hnames]. cbn in Hname.
  cbn [run_provider_groups].
  destruct (list_find _ ps) as [[j provider]|] eqn:Hfound; [|by apply IH].
  apply list_find_Some in Hfound as (Hj & Hjname & _).
  destruct (_execute_provider_batch now j provider provider_requests [])
    as [[provider_results provider'] calls].
  assert (<[j := provider']> ps !! i = Some p) as Hp'.
  { rewrite list_lookup_insert_ne; [done|]. intros ->. rewrite Hp in Hj.
    injection Hj as <-. done. }
  match goal with
  | |- context [run_provider_groups ?t ?gs ?qs ?r ?c] =>
      specialize (IH qs r c Hp' Hnames);
      destruct (run_provider_groups t gs qs r c) as [[[results' ps'] completed'] calls']
  end.
  done.
Qed.

(** Every group bears the name of a provider that is healthy when the
    groups are made. *)
Lemma group_by_provider_healthy requests ps :
  Forall (λ g, ∃ j q, ps !! j = Some q ∧ is_healthy q = true ∧ name q = g.1)
    (BatchOptimizer.group_by_provider requests ps).
Proof.
  unfold BatchOptimizer.group_by_provider.
  enough (∀ groups, Forall (λ n, ∃ j q, ps !! j = Some q ∧ is_healthy q = true ∧ name q = n)
                      groups.*1 →
    Forall (λ n, ∃ j q, ps !! j = Some q ∧ is_healthy q = true ∧ name q = n)
      (foldl (λ provider_groups request,
                match Fallback.available_providers ps request.1 with
                | [] => provider_groups
                | best_provider :: _ =>
                    BatchOptimizer.group_append (name best_provider.2) request provider_groups
                end) groups requests).*1) as Hgen.
  { apply (Forall_fmap fst
             (λ n, ∃ j q, ps !! j = Some q ∧ is_healthy q = true ∧ name q = n)).
    apply Hgen. constructor. }
  induction requests as [|r requests IH]; intros groups Hgroups; cbn [foldl]; [done|].
  apply IH. destruct (Fallback.available_providers ps r.1) as [|[i p] l] eqn:Hav; [done|].
  assert ((i, p) ∈ Fallback.available_providers ps r.1) as Hin by (rewrite Hav; left).
  apply FallbackProps.available_providers_elem in Hin as [Hp Hcan].
  apply Forall_forall. intros n Hn. apply BatchProps.group_append_names in Hn.
  apply elem_of_cons in Hn as [->|Hold].
  - exists i, p. split_and!; [done| |done]. unfold can_provide in Hcan.
    by apply andb_true_iff in Hcan as [_ ?].
  - by eapply Forall_forall in Hgroups.
Qed.

Lemma group_append_NoDup name' request groups :
  NoDup groups.*1 → NoDup (BatchOptimizer.group_append name' request groups).*1.
Proof.
  induction groups as [|[n rs] groups IH]; cbn; [intros _; apply NoDup_singleton|].
  intros [Hn Hgroups]%NoDup_cons.
  destruct (String.eqb_spec name' n) as [->|Hne]; cbn; [by apply NoDup_cons|].
  apply NoDup_cons. split; [|by apply IH].
  intros Hin%BatchProps.group_append_names. apply elem_of_cons in Hin as [->|Hin]; done.
Qed.

Lemma group_append_Forall (Q : string → string * string → Prop) name' request groups :
  Q name' request →
  Forall (λ g, g.2 ≠ [] ∧ Forall (Q g.1) g.2) groups →
  Forall (λ g, g.2 ≠ [] ∧ Forall (Q g.1) g.2)
    (BatchOptimizer.group_append name' request groups).
Proof.
  intros Hnew. induction groups as [|[n rs] groups IH]; cbn.
  { intros _. repeat constructor; done. }
  intros [[Hne Hrs] Hgroups]%Forall_cons. cbn in Hne, Hrs.
  destruct (String.eqb_spec name' n) as [->|Hdiff].
  - constructor; [|done]. cbn. split; [by destruct rs|].
    apply Forall_app. split; [done|]. by constructor.
  - constructor; [done|]. by apply IH.
Qed.

(** [group_by_provider] routes every request to the first provider of its
    sorted eligible list: the groups bear distinct names and are not empty,
    each request of a group has a best provider of that name, and together
    the groups hold exactly the requests for which some provider is
    eligible, each as often as it was given. *)
Theorem group_by_provider_routes (requests : list (string * string))
    (ps : list DataProvider.t) :
  let provider_groups := BatchOptimizer.group_by_provider requests ps in
  NoDup provider_groups.*1
  ∧ concat (provider_groups.*2) ≡ₚ filter (λ r, available_providers ps r.1 ≠ []) requests
  ∧ Forall (λ g, g.2 ≠ []
                 ∧ Forall (λ r, ∃ best, head (available_providers ps r.1) = Some best
                                        ∧ name best.2 = g.1) g.2)
      provider_groups.
Proof.
  intros provider_groups. subst provider_groups.
  split; [|split; [apply BatchProps.group_by_provider_perm|]].
  - unfold BatchOptimizer.group_by_provider.
    enough (∀ groups : list (string * list (string * string)), NoDup groups.*1 →
      NoDup (foldl (λ provider_groups request,
                      match available_providers ps request.1 with
                      | [] => provider_groups
                      | best_provider :: _ =>
                          BatchOptimizer.group_append (name best_provider.2) request
                            provider_groups
                      end) groups requests).*1) as Hgen by (apply Hgen; constructor).
    induction requests as [|r requests IH]; intros groups Hgroups; cbn [foldl]; [done|].
    apply IH. destruct (available_providers ps r.1) as [|best l]; [done|].
    by apply group_append_NoDup.
  - unfold BatchOptimizer.group_by_provider.
    set (Q := λ (n : string) (r : string * string),
                ∃ best, head (available_providers ps r.1) = Some best ∧ name best.2 = n).
    enough (∀ groups, Forall (λ g, g.2 ≠ [] ∧ Forall (Q g.1) g.2) groups →
      Forall (λ g, g.2 ≠ [] ∧ Forall (Q g.1) g.2)
        (foldl (λ provider_groups request,
                  match available_providers ps request.1 with
                  | [] => provider_groups
                  | best_provider :: _ =>
                      BatchOptimizer.group_append (name best_provider.2) request
                        provider_groups
                  end) groups requests)) as Hgen by (apply Hgen; constructor).
    induction requests as [|r requests IH]; intros groups Hgroups; cbn [foldl]; [done|].
    apply IH. destruct (available_providers ps r.1) as [|best l] eqn:Hav; [done|].
    apply group_append_Forall; [|done]. exists best. by rewrite Hav.
Qed.

Lemma batches_skip_unhealthy now requests max_concurrent ps i p :
  NoDup (name <$> ps) → ps !! i = Some p → is_healthy p = false →
  (_execute_provider_batches now (BatchOptimizer.group_by_provider requests ps)
     max_concurrent ps).1.1.2 !! i = Some p.
Proof.
  intros Hnodup Hp Hsick. unfold _execute_provider_batches.
  destruct (max_concurrent <=? 0)%Z; [done|].
  pose proof (run_provider_groups_untouched now (BatchOptimizer.group_by_provider requests ps)
                ps [] 0 i p Hp) as Hsame.
  destruct (run_provider_groups now _ ps [] 0) as [[[results ps'] completed] calls].
  apply Hsame. eapply Forall_impl; [apply group_by_provider_healthy|].
  intros g (j & q & Hq & Hhealthy & Hname) Hg. cbn in *.
  assert (j = i) as ->.
  { eapply NoDup_lookup; [exact Hnodup| |].
    - by rewrite list_lookup_fmap, Hq.
    - rewrite list_lookup_fmap, Hp. cbn. by rewrite Hname, Hg. }
  congruence.
Qed.

Section AnyBackend.
Context `{BE : Backend}.

(** The providers after a batch are those of the registry, or those that
    the execution of the provider groups leaves. *)
Lemma get_metrics_batch_providers (reg : MetricRegistry.t) now requests use_cache
    max_concurrent :
  providers (get_metrics_batch reg now requests use_cache max_concurrent).1.2 = providers reg
  ∨ ∃ remaining,
      remaining ≠ []
      ∧ providers (get_metrics_batch reg now requests use_cache max_concurrent).1.2
        = (_execute_provider_batches now
             (BatchOptimizer.group_by_provider
                (BatchOptimizer.detect_redundant_requests remaining).1 (providers reg))
             max_concurrent (providers reg)).1.1.2.
Proof.
  unfold get_metrics_batch. destruct requests as [|r requests]; [by left|].
  destruct (if use_cache then _ else _) as [[[[results remaining]|e] hits] cache1];
    [|by left].
  unfold fetch_remaining.
  destruct remaining as [|r' remaining]; [by left|]. right. exists (r' :: remaining).
  split; [done|].
  destruct (BatchOptimizer.detect_redundant_requests (r' :: remaining)) as [unique rmap].
  cbn [fst].
  destruct (_execute_provider_batches now _ max_concurrent (providers reg))
    as [[[[fresh|e] providers'] completed] calls]; [|done].
  by destruct (cache_fresh_results cache1 now use_cache fresh).
Qed.

Lemma get_metrics_batch_evolves (reg : MetricRegistry.t) now requests use_cache
    max_concurrent :
  Forall2 evolves (providers reg)
    (providers (get_metrics_batch reg now requests use_cache max_concurrent).1.2).
Proof.
  destruct (get_metrics_batch_providers reg now requests use_cache max_concurrent)
    as [->|(remaining & _ & ->)]; [apply Forall2_evolves_refl|].
  apply _execute_provider_batches_evolves.
Qed.

Lemma registry_get_metric_providers (reg : MetricRegistry.t) now metric asset kwargs :
  MetricRegistry.get_metric reg now metric asset kwargs
  = ((Fallback.get_metric (providers reg) metric asset kwargs now).1.1,
     {| providers := (Fallback.get_metric (providers reg) metric asset kwargs now).1.2;
        cache := cache reg; stats := stats reg |},
     (Fallback.get_metric (providers reg) metric asset kwargs now).2).
Proof.
  unfold MetricRegistry.get_metric.
  by destruct (Fallback.get_metric (providers reg) metric asset kwargs now) as [[? ?] ?].
Qed.

Lemma warm_function_evolves now w endpoint params :
  Forall2 evolves w.1 (warm_function now w endpoint params).2.1.
Proof.
  unfold warm_function. destruct params as [params|]; [|apply Forall2_evolves_refl].
  destruct (dict_get_default "metric" JNull params); try apply Forall2_evolves_refl.
  destruct (dict_get_default "asset" JNull params); try apply Forall2_evolves_refl.
  pose proof (get_metric_evolves w.1 s s0 [] now) as Hev.
  by destruct (Fallback.get_metric w.1 s s0 [] now) as [[? ?] ?].
Qed.

Lemma warm_critical_metrics_evolves (reg : MetricRegistry.t) now assets critical_metrics :
  Forall2 evolves (providers reg)
    (providers (warm_critical_metrics reg now assets critical_metrics).1.2).
Proof.
  unfold warm_critical_metrics.
  match goal with
  | |- context [CacheOps.warm_cache ?f ?m ?t ?eps ?w] =>
      pose proof (CacheOpsFacts.warm_cache_state f
                    (λ w', Forall2 evolves (providers reg) w'.1) m t eps w) as Hstate;
      destruct (CacheOps.warm_cache f m t eps w) as [[[warmed cache'] w'] fetched]
  end.
  cbn in *. apply Hstate; [|apply Forall2_evolves_refl].
  intros w0 endpoint params _ Hw0. eapply Forall2_evolves_trans; [exact Hw0|].
  apply warm_function_evolves.
Qed.

(** What one call does to the provider list: a custom provider is appended
    to it, every other call lets the providers evolve in place. *)
Lemma step_providers (reg : MetricRegistry.t) now (o : op) :
  match o with
  | AddCustomProvider name priority loader_func metrics requires_api_key =>
      providers (step reg now o).1
      = providers reg ++ [DataProvider.init name priority loader_func metrics requires_api_key]
  | _ => Forall2 evolves (providers reg) (providers (step reg now o).1)
  end.
Proof.
  destruct o as [metric asset kwargs|requests use_cache max_concurrent|assets critical_metrics| |];
    cbn [step].
  - rewrite registry_get_metric_providers. cbn. apply get_metric_evolves.
  - pose proof (get_metrics_batch_evolves reg now requests use_cache max_concurrent) as Hev.
    by destruct (get_metrics_batch reg now requests use_cache max_concurrent) as [[? ?] ?].
  - pose proof (warm_critical_metrics_evolves reg now assets critical_metrics) as Hev.
    by destruct (warm_critical_metrics reg now assets critical_metrics) as [[? ?] ?].
  - cbn. apply Forall2_fmap_r, Forall_Forall2_diag, Forall_forall. intros p _.
    repeat constructor.
  - done.
Qed.

Lemma run_cons (reg : MetricRegistry.t) o ops :
  run reg (o :: ops) = run (step reg o.1 o.2).1 ops.
Proof. done. Qed.

Lemma run_invariant (I : list DataProvider.t → Prop) (reg : MetricRegistry.t) ops :
  (∀ ps ps', Forall2 evolves ps ps' → I ps → I ps') →
  (∀ ps name priority loader_func metrics requires_api_key,
     I ps → I (ps ++ [DataProvider.init name priority loader_func metrics requires_api_key])) →
  I (providers reg) → I (providers (run reg ops)).
Proof.
  intros Hevolve Hadd. revert reg.
  induction ops as [|[now o] ops IH]; intros reg Hreg; [done|].
  rewrite run_cons. apply IH. cbn [fst snd].
  pose proof (step_providers reg now o) as Hstep.
  destruct o; try (by eapply Hevolve). rewrite Hstep. by apply Hadd.
Qed.

Lemma run_evolves (reg : MetricRegistry.t) ops i p :
  providers reg !! i = Some p →
  ∃ p', providers (run reg ops) !! i = Some p' ∧ evolves p p'.
Proof.
  intros Hp.
  apply (run_invariant (λ ps, ∃ p', ps !! i = Some p' ∧ evolves p p')).
  - intros ps ps' Hev (q & Hq & Hpq).
    destruct (Forall2_lookup_l _ _ _ _ _ Hev Hq) as (q' & Hq' & Hqq').
    exists q'. split; [done|]. by eapply evolves_trans.
  - intros ps ? ? ? ? ? (q & Hq & Hpq). exists q. split; [|done].
    by apply lookup_app_l_Some.
  - exists p. split; [done|constructor].
Qed.

(** In every state that a registry reaches from its construction, through
    any sequence of [get_metric], [get_metrics_batch],
    [warm_critical_metrics], [reset_all_providers] and
    [add_custom_provider] calls, each provider has a failure count that is
    not negative and is healthy exactly when that count is below three. *)
Theorem registry_health_invariant
    (get_active_addresses get_network_health : nat → string → outcome (list (string * json)))
    (cache : CryptoCacheManager.t) (ops : list (Z * op)) :
  Forall (λ p, (0 ≤ failure_count p)%Z ∧ is_healthy p = bool_decide (failure_count p < 3)%Z)
    (providers (run (init get_active_addresses get_network_health cache) ops)).
Proof.
  apply (run_invariant (Forall HealthProps.health_inv)).
  - apply Forall2_evolves_health_inv.
  - intros ps ? ? ? ? ? Hps. apply Forall_app. split; [done|].
    constructor; [apply HealthProps.health_inv_init|constructor].
  - cbn. repeat (apply Forall_cons; split; [apply HealthProps.health_inv_init|]).
    apply Forall_nil_2.
Qed.

Lemma mock_data_non_empty metric asset kwargs :
  metric ∈ mock_metrics → non_empty (_fetch_mock_data metric asset kwargs) = true.
Proof.
  unfold mock_metrics. rewrite !elem_of_cons, elem_of_nil.
  intros [->|[->|[->|[->|[->|[->|[->|[]]]]]]]]; reflexivity.
Qed.

(** The mock provider of a registry never fails: in every state reached
    from the construction of the registry, whatever the Glassnode loader and
    the custom providers do, [get_metric] for one of the seven mock metrics
    returns a value that is neither [None] nor an empty frame. *)
Theorem mock_provider_always_answers
    (get_active_addresses get_network_health : nat → string → outcome (list (string * json)))
    (cache : CryptoCacheManager.t) (ops : list (Z * op)) (now : Z) (metric asset : string)
    (kwargs : list (string * json)) :
  metric ∈ mock_metrics →
  ∃ v, (MetricRegistry.get_metric (run (init get_active_addresses get_network_health cache) ops)
          now metric asset kwargs).1.1 = Ok v
       ∧ non_empty v = true.
Proof.
  intros Hmetric. rewrite registry_get_metric_providers. cbn [fst snd].
  destruct (run_evolves (init get_active_addresses get_network_health cache) ops 3
              (DataProvider.init "MockProvider" 99
                 (λ _ metric asset kwargs, Ok (_fetch_mock_data metric asset kwargs))
                 mock_metrics false) eq_refl) as (mock & Hmock & Hev).
  pose proof (evolves_never_raises _ _ Hev (λ _ _ _ _, eq_refl) eq_refl) as Hhealthy.
  apply evolves_fields in Hev as (_ & _ & Hloader & Hmetrics & _). cbn in Hloader, Hmetrics.
  eapply get_metric_answers; [exact Hmock| |].
  - unfold can_provide. rewrite Hmetrics, Hhealthy. by rewrite bool_decide_eq_true_2.
  - unfold FallbackProps.delivered, loader_result. rewrite Hloader.
    rewrite mock_data_non_empty by done. by eexists.
Qed.

(** The calls that fetch data, as opposed to those that maintain the
    provider list. *)
Definition fetches (o : op) : bool :=
  match o with
  | GetMetric _ _ _ | GetMetricsBatch _ _ _ | WarmCriticalMetrics _ _ => true
  | ResetAllProviders | AddCustomProvider _ _ _ _ _ => false
  end.

Lemma step_skips_unhealthy (reg : MetricRegistry.t) now (o : op) i p :
  NoDup (name <$> providers reg) → providers reg !! i = Some p → is_healthy p = false →
  fetches o = true →
  providers (step reg now o).1 !! i = Some p.
Proof.
  intros Hnodup Hp Hsick Ho.
  destruct o as [metric asset kwargs|requests use_cache max_concurrent|assets critical_metrics| |];
    try done; cbn [step].
  - rewrite registry_get_metric_providers. cbn.
    by apply get_metric_skips, unhealthy_cannot_provide.
  - destruct (get_metrics_batch_providers reg now requests use_cache max_concurrent)
      as [Hsame|(remaining & _ & Hsame)];
      destruct (get_metrics_batch reg now requests use_cache max_concurrent) as [[? reg'] ?];
      cbn in *; rewrite Hsame; [done|].
    by apply batches_skip_unhealthy.
  - unfold warm_critical_metrics.
    match goal with
    | |- context [CacheOps.warm_cache ?f ?m ?t ?eps ?w] =>
        pose proof (CacheOpsFacts.warm_cache_state f (λ w', w'.1 !! i = Some p) m t eps w)
          as Hstate;
        destruct (CacheOps.warm_cache f m t eps w) as [[[warmed cache'] w'] fetched]
    end.
    cbn in *. apply Hstate; [|done].
    intros w0 endpoint params _ Hw0. unfold warm_function.
    destruct params as [params|]; [|done].
    destruct (dict_get_default "metric" JNull params) as [| | |metric| |]; try done.
    destruct (dict_get_default "asset" JNull params) as [| | |asset| |]; try done.
    pose proof (get_metric_skips w0.1 metric asset [] now i p Hw0
                  (unhealthy_cannot_provide p metric Hsick)) as [Hsame _].
    by destruct (Fallback.get_metric w0.1 metric asset [] now) as [[? ?] ?].
Qed.

(** In a registry whose providers bear distinct names, an unhealthy
    provider is out for good: whatever sequence of [get_metric],
    [get_metrics_batch] and [warm_critical_metrics] calls follows, it is
    never invoked and its state, invocation count included, stays what it
    was. *)
Theorem unhealthy_provider_stays_out (reg : MetricRegistry.t) (ops : list (Z * op)) (i : nat)
    (p : DataProvider.t) :
  NoDup (name <$> providers reg) → providers reg !! i = Some p → is_healthy p = false →
  Forall (λ o, fetches o.2 = true) ops →
  providers (run reg ops) !! i = Some p.
Proof.
  intros Hnodup Hp Hsick Hops. revert reg Hnodup Hp.
  induction Hops as [|[now o] ops Ho _ IH]; intros reg Hnodup Hp; [done|].
  rewrite run_cons. cbn [fst snd] in *. apply IH.
  - pose proof (step_providers reg now o) as Hstep.
    destruct o; try done; by rewrite (Forall2_evolves_names _ _ Hstep).
  - by apply step_skips_unhealthy.
Qed.

(** [reset_all_providers] makes every provider healthy with a failure count
    of zero, so that the providers eligible for a metric are again all those
    that list it; it keeps the time of the last success, the cache and the
    batch statistics, and a second reset changes nothing. *)
Theorem reset_all_providers_restores (reg : MetricRegistry.t) (metric : string) :
  let reg' := reset_all_providers reg in
  Forall (λ p, failure_count p = 0%Z ∧ is_healthy p = true) (providers reg')
  ∧ (∀ i, i ∈ (available_providers (providers reg') metric).*1
          ↔ ∃ p, providers reg !! i = Some p ∧ metric ∈ available_metrics p)
  ∧ last_success <$> providers reg' = last_success <$> providers reg
  ∧ MetricRegistry.cache reg' = MetricRegistry.cache reg
  ∧ MetricRegistry.stats reg' = MetricRegistry.stats reg
  ∧ reset_all_providers reg' = reg'.
Proof.
  intros reg'. subst reg'. unfold reset_all_providers.
  cbn [providers MetricRegistry.cache MetricRegistry.stats]. split_and!; try done.
  - apply Forall_fmap, Forall_forall. by intros p _.
  - intros i. rewrite FallbackProps.available_providers_index. split.
    + intros (p' & Hp' & Hcan). rewrite list_lookup_fmap in Hp'.
      destruct (providers reg !! i) as [p|]; [|done]. injection Hp' as <-.
      exists p. split; [done|]. unfold can_provide in Hcan. cbn in Hcan.
      apply andb_true_iff in Hcan as [Hin _]. by apply bool_decide_eq_true_1 in Hin.
    + intros (p & Hp & Hin). exists (reset_health p). rewrite list_lookup_fmap, Hp.
      split; [done|]. unfold can_provide. cbn. by rewrite bool_decide_eq_true_2.
  - rewrite <- list_fmap_compose. by apply list_fmap_ext.
  - unfold reset_all_providers. cbn. f_equal.
    rewrite <- list_fmap_compose. by apply list_fmap_ext.
Qed.

Lemma tried_of_head metric asset kwargs ps i l :
  ∃ rest, FallbackProps.tried_of metric asset kwargs ps (i :: l) = i :: rest.
Proof.
  destruct (FallbackProps.delivers metric asset kwargs ps i) as [v|] eqn:Hdel.
  - exists []. apply FallbackProps.tried_of_hit. by rewrite Hdel.
  - eexists. by apply FallbackProps.tried_of_miss.
Qed.

(** The provider at the head of the sorted list is the one with the least
    key. *)
Lemma available_providers_head ps metric i p :
  (i, p) ∈ available_providers ps metric →
  (∀ j q, (j, q) ∈ available_providers ps metric → j ≠ i →
          key_le (sort_key q) (sort_key p) = false) →
  ∃ l, available_providers ps metric = (i, p) :: l.
Proof.
  intros Hin Hleast.
  pose proof (FallbackProps.sort_by_key_sorted (λ ip : nat * DataProvider.t, sort_key ip.2)
                (filter (λ ip, can_provide ip.2 metric = true) (enumerate ps))) as Hsorted.
  fold (available_providers ps metric) in Hsorted.
  pose proof (FallbackProps.available_providers_elem ps metric) as Helem.
  pose proof (FallbackProps.available_providers_NoDup ps metric) as Hnodup.
  destruct (available_providers ps metric) as [|[j q] l]; [by apply elem_of_nil in Hin|].
  apply elem_of_cons in Hin as [<-|Hin]; [by exists l|]. exfalso.
  apply StronglySorted_inv in Hsorted as [_ Hall].
  eapply Forall_forall in Hall; [|exact Hin]. unfold FallbackProps.key_order in Hall.
  cbn in Hall. rewrite (Hleast j q) in Hall; [done|left|]. intros ->.
  cbn in Hnodup. apply NoDup_cons in Hnodup as [Hfresh _].
  apply Hfresh. apply list_elem_of_fmap. by exists (i, p).
Qed.

(** A custom provider that is added with a priority below that of every
    provider eligible for a metric it lists is the first that [get_metric]
    invokes for that metric, and when its loader delivers, no other provider
    is invoked and its value is the result. *)
Theorem custom_provider_goes_first (reg : MetricRegistry.t) (name : string) (priority : Z)
    (loader_func : nat → string → string → list (string * json) → outcome pyvalue)
    (metrics : list string) (requires_api_key : bool) (metric asset : string)
    (kwargs : list (string * json)) (now : Z) :
  metric ∈ metrics →
  Forall (λ p, can_provide p metric = true → (priority < DataProvider.priority p)%Z)
    (providers reg) →
  let reg' := add_custom_provider reg name priority loader_func metrics requires_api_key in
  let custom := {| call_provider := length (providers reg);
                   call_metric := metric; call_asset := asset |} in
  (∃ calls, (MetricRegistry.get_metric reg' now metric asset kwargs).2 = custom :: calls)
  ∧ (∀ v, loader_func 0%nat metric asset kwargs = Ok v → non_empty v = true →
          (MetricRegistry.get_metric reg' now metric asset kwargs).1.1 = Ok v
          ∧ (MetricRegistry.get_metric reg' now metric asset kwargs).2 = [custom]).
Proof.
  intros Hmetric Hprio reg' custom. subst reg' custom.
  rewrite registry_get_metric_providers. cbn [fst snd add_custom_provider providers].
  set (new := DataProvider.init name priority loader_func metrics requires_api_key).
  set (ps := providers reg) in *.
  assert ((ps ++ [new]) !! length ps = Some new) as Hnew
    by (by rewrite lookup_app_r, Nat.sub_diag by lia).
  destruct (available_providers_head (ps ++ [new]) metric (length ps) new) as [l Hav].
  { apply FallbackProps.available_providers_elem. split; [done|].
    unfold can_provide. cbn. by rewrite bool_decide_eq_true_2. }
  { intros j q [Hq Hcan]%FallbackProps.available_providers_elem Hj.
    assert (ps !! j = Some q) as Hq'.
    { apply lookup_app_Some in Hq as [?|[Hge Hq]]; [done|].
      destruct (j - length ps)%nat as [|k] eqn:Hk; [lia|done]. }
    eapply Forall_forall in Hprio; [|by eapply list_elem_of_lookup_2].
    specialize (Hprio Hcan). unfold key_le, sort_key. cbn.
    destruct (Z.ltb_spec (DataProvider.priority q) priority); [lia|].
    destruct (Z.eqb_spec (DataProvider.priority q) priority); [lia|done]. }
  rewrite FallbackProps.get_metric_spec, Hav. cbn [fst snd fmap list_fmap].
  split.
  - destruct (tried_of_head metric asset kwargs (ps ++ [new]) (length ps) (l.*1))
      as [rest ->].
    by eexists.
  - intros v Hv Hne.
    assert (FallbackProps.delivers metric asset kwargs (ps ++ [new]) (length ps) = Some v)
      as Hdel.
    { unfold FallbackProps.delivers. rewrite Hnew. cbn.
      unfold FallbackProps.delivered, loader_result. cbn. by rewrite Hv, Hne. }
    rewrite FallbackProps.tried_of_hit, FallbackProps.result_of_hit by (by rewrite Hdel).
    by rewrite Hdel.
Qed.

Lemma take_cache_hits_counts cached_results requests results hits remaining :
  let taken := take_cache_hits cached_results requests results hits remaining in
  (hits ≤ taken.2)%Z ∧ (taken.2 ≤ hits + Z.of_nat (length requests))%Z
  ∧ match taken.1 with
    | Ok (results', remaining') =>
        (Z.of_nat (length remaining') + (taken.2 - hits)
         = Z.of_nat (length remaining) + Z.of_nat (length requests))%Z
    | Raise _ => True
    end.
Proof.
  revert results hits remaining.
  induction requests as [|[metric asset] requests IH]; intros results hits remaining.
  { cbn [take_cache_hits fst snd length]. split_and!; lia. }
  cbn [take_cache_hits length].
  pose proof (IH results hits (remaining ++ [(metric, asset)])) as Hmiss.
  rewrite length_app in Hmiss. cbn [length] in Hmiss.
  assert (let taken := take_cache_hits cached_results requests results hits
                         (remaining ++ [(metric, asset)]) in
          (hits ≤ taken.2)%Z ∧ (taken.2 ≤ hits + Z.of_nat (S (length requests)))%Z
          ∧ match taken.1 with
            | Ok (results', remaining') =>
                (Z.of_nat (length remaining') + (taken.2 - hits)
                 = Z.of_nat (length remaining) + Z.of_nat (S (length requests)))%Z
            | Raise _ => True
            end) as Hmiss'.
  { cbn zeta in *.
    destruct (take_cache_hits cached_results requests results hits
                (remaining ++ [(metric, asset)])) as [[[results' remaining']|e] hits'];
      cbn [fst snd] in *; destruct Hmiss as (? & ? & Hlen); split_and!; lia || done. }
  destruct (cached_results !! batch_cache_key metric asset) as [entry|]; [|exact Hmiss'].
  destruct (json_null_dec entry) as [->|Hentry]; [exact Hmiss'|].
  assert (∀ data,
            let taken := take_cache_hits cached_results requests
                           (dict_set (BatchOptimizer.request_id metric asset) (PJson data)
                              results)
                           (hits + 1) remaining in
            (hits ≤ taken.2)%Z ∧ (taken.2 ≤ hits + Z.of_nat (S (length requests)))%Z
            ∧ match taken.1 with
              | Ok (results', remaining') =>
                  (Z.of_nat (length remaining') + (taken.2 - hits)
                   = Z.of_nat (length remaining) + Z.of_nat (S (length requests)))%Z
              | Raise _ => True
              end) as Hhit.
  { intros data. pose proof (IH (dict_set (BatchOptimizer.request_id metric asset)
                                   (PJson data) results) (hits + 1)%Z remaining) as Hh.
    cbn zeta in *.
    destruct (take_cache_hits cached_results requests
                (dict_set (BatchOptimizer.request_id metric asset) (PJson data) results)
                (hits + 1) remaining) as [[[results' remaining']|e] hits'];
      cbn [fst snd] in *; destruct Hh as (? & ? & Hlen); split_and!; lia || done. }
  destruct entry; try done;
    (destruct (subscript _ "data") as [data|e];
     [apply Hhit|cbn [fst snd]; split_and!; [lia|lia|done]]).
Qed.

Lemma _execute_provider_batches_completed now provider_groups max_concurrent ps :
  (0 ≤ (_execute_provider_batches now provider_groups max_concurrent ps).1.2)%Z.
Proof.
  unfold _execute_provider_batches. destruct (max_concurrent <=? 0)%Z; [done|].
  enough (∀ results completed,
            (completed ≤ (run_provider_groups now provider_groups ps results completed).1.2)%Z)
    as Hmono.
  { specialize (Hmono [] 0%Z).
    by destruct (run_provider_groups now provider_groups ps [] 0)
      as [[[results ps'] completed] calls]. }
  revert ps.
  induction provider_groups as [|[provider_name provider_requests] groups IH];
    intros ps results completed; [done|].
  cbn [run_provider_groups].
  destruct (list_find _ ps) as [[i provider]|]; [|apply IH].
  destruct (_execute_provider_batch now i provider provider_requests [])
    as [[provider_results provider'] calls].
  match goal with
  | |- context [run_provider_groups ?t ?gs ?qs ?r ?c] =>
      specialize (IH qs r c);
      destruct (run_provider_groups t gs qs r c) as [[[results' ps'] completed'] calls']
  end.
  cbn in *. lia.
Qed.

Lemma fetch_remaining_stats (reg : MetricRegistry.t) now use_cache max_concurrent stats1 hits
    saved_calls cache1 results remaining :
  let fetched := fetch_remaining reg now use_cache max_concurrent stats1 hits saved_calls
                   cache1 results remaining in
  let after := MetricRegistry.stats fetched.1.2 in
  total_batch_requests after = total_batch_requests stats1
  ∧ cache_hits_in_batch after = (cache_hits_in_batch stats1 + hits)%Z
  ∧ (concurrent_requests stats1 ≤ concurrent_requests after)%Z
  ∧ provider_calls_saved after
    = (provider_calls_saved stats1 + if is_raise fetched.1.1 then 0 else saved_calls)%Z.
Proof.
  unfold fetch_remaining. destruct remaining as [|r remaining].
  { cbn. split_and!; [done|done|lia|done]. }
  destruct (BatchOptimizer.detect_redundant_requests (r :: remaining)) as [unique rmap].
  pose proof (_execute_provider_batches_completed now
                (BatchOptimizer.group_by_provider unique (providers reg)) max_concurrent
                (providers reg)) as Hcompleted.
  destruct (_execute_provider_batches now _ max_concurrent (providers reg))
    as [[[[fresh|e] providers'] completed] calls]; cbn in Hcompleted.
  - destruct (cache_fresh_results cache1 now use_cache fresh); cbn;
      split_and!; done || lia.
  - cbn. split_and!; done || lia.
Qed.

(** The batch statistics after [get_metrics_batch]: a batch that is not
    empty counts once, also when it raises; the count of cache hits grows by
    at most the number of requests, and not at all without the cache; the
    count of saved provider calls grows by the number of cache hits of the
    batch when the batch returns, and is left alone when it raises. *)
Theorem batch_stats_accounting (reg : MetricRegistry.t) (now : Z)
    (requests : list (string * string)) (use_cache : bool) (max_concurrent : Z) :
  let result := get_metrics_batch reg now requests use_cache max_concurrent in
  let before := MetricRegistry.stats reg in
  let after := MetricRegistry.stats result.1.2 in
  let hits := (cache_hits_in_batch after - cache_hits_in_batch before)%Z in
  total_batch_requests after
  = (total_batch_requests before + match requests with [] => 0 | _ => 1 end)%Z
  ∧ (0 ≤ hits)%Z ∧ (hits ≤ Z.of_nat (length requests))%Z
  ∧ (if use_cache then True else hits = 0%Z)
  ∧ (concurrent_requests before ≤ concurrent_requests after)%Z
  ∧ (provider_calls_saved after - provider_calls_saved before)%Z
    = (if is_raise result.1.1 then 0%Z else hits).
Proof.
  intros result before after hits. subst result before after hits.
  unfold get_metrics_batch. destruct requests as [|r requests].
  { cbn. split_and!; try lia; destruct use_cache; done || lia. }
  set (requests' := r :: requests).
  set (stats1 := count_batch (MetricRegistry.stats reg) (length requests')).
  assert (total_batch_requests stats1 = (total_batch_requests (MetricRegistry.stats reg) + 1)%Z
          ∧ cache_hits_in_batch stats1 = cache_hits_in_batch (MetricRegistry.stats reg)
          ∧ concurrent_requests stats1 = concurrent_requests (MetricRegistry.stats reg)
          ∧ provider_calls_saved stats1 = provider_calls_saved (MetricRegistry.stats reg))
    as (Htotal & Hhits & Hconc & Hsaved) by done.
  destruct use_cache.
  - destruct (CryptoCacheManager.get_batch (cache reg) now
                (BatchOptimizer.optimize_cache_keys requests')) as [cached_results cache1].
    pose proof (take_cache_hits_counts cached_results requests' [] 0 []) as Hcount.
    destruct (take_cache_hits cached_results requests' [] 0 [])
      as [[[results remaining]|e] hits]; cbn in Hcount.
    + match goal with
      | |- context [fetch_remaining ?a ?b ?c ?d ?e ?f ?g ?h ?i ?j] =>
          pose proof (fetch_remaining_stats a b c d e f g h i j) as Hfetch;
          destruct (fetch_remaining a b c d e f g h i j) as [[fetched reg'] calls]
      end.
      cbn in Hfetch. destruct Hfetch as (Ht & Hh & Hc & Hs).
      cbn [fst snd]. rewrite Ht, Hh, Hs. subst requests'. cbn [length] in *.
      destruct Hcount as (? & ? & ?).
      split_and!; try lia; try done. destruct (is_raise fetched); lia.
    + subst requests'. cbn [length] in *. destruct Hcount as (? & ? & _).
      cbn. split_and!; try lia; done.
  - match goal with
    | |- context [fetch_remaining ?a ?b ?c ?d ?e ?f ?g ?h ?i ?j] =>
        pose proof (fetch_remaining_stats a b c d e f g h i j) as Hfetch;
        destruct (fetch_remaining a b c d e f g h i j) as [[fetched reg'] calls]
    end.
    cbn in Hfetch. destruct Hfetch as (Ht & Hh & Hc & Hs).
    cbn [fst snd]. rewrite Ht, Hh, Hs. subst requests'. cbn [length] in *.
    split_and!; try lia. destruct (is_raise fetched); lia.
Qed.

Lemma available_providers_singleton p metric :
  can_provide p metric = true → available_providers [p] metric = [(0%nat, p)].
Proof.
  intros Hcan. unfold available_providers, enumerate. cbn [imap].
  by rewrite filter_cons_True, filter_nil by done.
Qed.

(** An empty data frame is a result for [get_metrics_batch] and nothing for
    [get_metric]: with one provider whose loader returns an empty frame, the
    batch returns the frame under the request's identifier and records a
    success, where [get_metric] returns [None] and records nothing. *)
Theorem empty_frame_counts_in_batch_only (reg : MetricRegistry.t) (now : Z)
    (p : DataProvider.t) (metric asset : string) (columns : list string)
    (rows : list (list json)) :
  providers reg = [p] →
  can_provide p metric = true →
  loader_result p metric asset [] = Ok (PFrame columns rows) →
  is_empty_frame (PFrame columns rows) = true →
  let call := {| call_provider := 0; call_metric := metric; call_asset := asset |} in
  let single := MetricRegistry.get_metric reg now metric asset [] in
  let batch := get_metrics_batch reg now [(metric, asset)] false 5 in
  single.1.1 = Ok PNone
  ∧ providers single.1.2 = [invoked p]
  ∧ single.2 = [call]
  ∧ batch.1.1 = Ok [(BatchOptimizer.request_id metric asset, PFrame columns rows)]
  ∧ providers batch.1.2 = [record_success (invoked p) now]
  ∧ batch.2 = [call].
Proof.
  intros Hps Hcan Hres Hempty call single batch. subst call single batch.
  rewrite registry_get_metric_providers. cbn [fst snd providers].
  unfold get_metrics_batch, fetch_remaining, BatchOptimizer.detect_redundant_requests.
  cbn [BatchOptimizer.detect_loop app].
  rewrite bool_decide_eq_false_2 by set_solver.
  unfold _execute_provider_batches, BatchOptimizer.group_by_provider. cbn [foldl fst snd].
  rewrite Hps. unfold Fallback.get_metric.
  rewrite available_providers_singleton by done.
  cbn [fmap list_fmap fst snd try_providers lookup list_lookup BatchOptimizer.group_append
       run_provider_groups list_find].
  rewrite decide_True by done. cbn [fmap option_fmap option_map prod_map fst snd id].
  cbn [_execute_provider_batch]. rewrite Hres.
  assert (non_empty (PFrame columns rows) = false) as ->
    by (unfold non_empty; by rewrite Hempty, andb_false_r).
  by destruct columns, rows.
Qed.



End AnyBackend.

(** A registry whose Glassnode loader has raised three times in a row. *)
Definition glassnode_down : MetricRegistry.t (BE := InMemory.backend) :=
  run (init (λ _ _, Raise ConnectionError) (λ _ _, Raise ConnectionError)
         CacheProps.fresh_manager)
    [ (0%Z, GetMetric "hash_rate" "BTC" []); (1%Z, GetMetric "hash_rate" "BTC" []);
      (2%Z, GetMetric "hash_rate" "BTC" []) ].

Definition glassnode_after_three_failures : DataProvider.t :=
  record_failure (invoked (record_failure (invoked (record_failure (invoked
    (DataProvider.init "Glassnode" 1
       (_fetch_glassnode (λ _ _, Raise ConnectionError) (λ _ _, Raise ConnectionError))
       glassnode_metrics true)))))).

Lemma unhealthy_provider_stays_out_witness :
  providers (run glassnode_down
               [ (3%Z, GetMetric "hash_rate" "BTC" []);
                 (4%Z, GetMetricsBatch [("hash_rate", "BTC"); ("price", "ETH")] false 5);
                 (5%Z, WarmCriticalMetrics None None) ]) !! 0%nat
  = Some glassnode_after_three_failures.
Proof.
  apply (unhealthy_provider_stays_out (BE := InMemory.backend)).
  - apply (bool_decide_unpack _). vm_compute. reflexivity.
  - vm_compute. reflexivity.
  - reflexivity.
  - repeat constructor.
Defined.

(** A registry with one provider, whose loader returns a frame with a column
    and no row. *)
Definition frames_provider : DataProvider.t :=
  DataProvider.init "Frames" 1 (λ _ _ _ _, Ok (PFrame ["value"] [])) ["price"] false.

Definition frames_registry : MetricRegistry.t (BE := InMemory.backend) :=
  {| providers := [frames_provider];
     cache := CacheProps.fresh_manager;
     stats := {| total_batch_requests := 0; cache_hits_in_batch := 0;
                 provider_calls_saved := 0; average_batch_size := Qc_of_Z 0;
                 concurrent_requests := 0 |} |}.

Lemma empty_frame_counts_in_batch_only_witness :
  let single := MetricRegistry.get_metric frames_registry 0 "price" "BTC" [] in
  let batch := get_metrics_batch frames_registry 0 [("price", "BTC")] false 5 in
  single.1.1 = Ok PNone
  ∧ providers single.1.2 = [invoked frames_provider]
  ∧ single.2 = [{| call_provider := 0; call_metric := "price"; call_asset := "BTC" |}]
  ∧ batch.1.1 = Ok [("price:BTC", PFrame ["value"] [])]
  ∧ providers batch.1.2 = [record_success (invoked frames_provider) 0]
  ∧ batch.2 = [{| call_provider := 0; call_metric := "price"; call_asset := "BTC" |}].
Proof.
  apply (empty_frame_counts_in_batch_only (BE := InMemory.backend) frames_registry 0
           frames_provider "price" "BTC" ["value"] []).
  - reflexivity.
  - reflexivity.
  - reflexivity.
  - reflexivity.
Defined.

Lemma custom_provider_goes_first_witness :
  let reg := init (BE := InMemory.backend)
               (λ _ _, Raise ConnectionError) (λ _ _, Raise ConnectionError)
               CacheProps.fresh_manager in
  let reg' := add_custom_provider reg "Desk" 0 (λ _ _ _ _, Ok (PJson (JStr "$1.00")))
                ["price"] false in
  (MetricRegistry.get_metric reg' 0 "price" "BTC" []).1.1 = Ok (PJson (JStr "$1.00"))
  ∧ (MetricRegistry.get_metric reg' 0 "price" "BTC" []).2
    = [{| call_provider := 4; call_metric := "price"; call_asset := "BTC" |}].
Proof.
  refine (proj2 (custom_provider_goes_first (BE := InMemory.backend)
                   (init (λ _ _, Raise ConnectionError) (λ _ _, Raise ConnectionError)
                      CacheProps.fresh_manager)
                   "Desk" 0 (λ _ _ _ _, Ok (PJson (JStr "$1.00"))) ["price"] false
                   "price" "BTC" [] 0 _ _)
            (PJson (JStr "$1.00")) eq_refl eq_refl).
  - left.
  - repeat (apply Forall_cons; split; [intros _; reflexivity|]). apply Forall_nil_2.
Defined.

Lemma mock_provider_always_answers_witness :
  ∃ v, (MetricRegistry.get_metric
          (run (BE := InMemory.backend)
             (init (λ _ _, Raise ConnectionError) (λ _ _, Raise ConnectionError)
                CacheProps.fresh_manager)
             [(0%Z, GetMetric "hash_rate" "BTC" []); (1%Z, ResetAllProviders)])
          2 "price" "BTC" []).1.1 = Ok v
       ∧ non_empty v = true.
Proof.
  apply (mock_provider_always_answers (BE := InMemory.backend)).
  unfold mock_metrics. do 4 right. left.
Defined.

End RegistryFacts.

(** ** The embedding on concrete inputs *)

Module Examples.
Import InMemory.

Example split_two_parts : Str.split ":" "price:BTC" = ["price"; "BTC"].
Proof. reflexivity. Qed.

Example split_three_parts : Str.split ":" "a:b:c" = ["a"; "b"; "c"].
Proof. reflexivity. Qed.

Example split_no_separator : Str.split ":" "price" = ["price"].
Proof. reflexivity. Qed.

Example contains_inside : Str.contains "book" "l2_order_book_btc" = true.
Proof. reflexivity. Qed.

Example lower_mixed : Str.lower "Order_Book/BTC" = "order_book/btc".
Proof. reflexivity. Qed.

Example sorted_items_by_key :
  Str.sorted_items [("metric", JStr "price"); ("asset", JStr "BTC")]
  = [("asset", JStr "BTC"); ("metric", JStr "price")].
Proof. reflexivity. Qed.

Example ttl_order_book_active : SmartTTLStrategy.get_ttl "order_book" true false = 10%Z.
Proof. reflexivity. Qed.

Example ttl_order_book_volatile : SmartTTLStrategy.get_ttl "order_book" true true = 5%Z.
Proof. reflexivity. Qed.

Example ttl_market_cap_off_hours_volatile :
  SmartTTLStrategy.get_ttl "market_cap" false true = 900%Z.
Proof. reflexivity. Qed.

Example ttl_unknown_tag : SmartTTLStrategy.get_ttl "no_such_tag" true false = 60%Z.
Proof. reflexivity. Qed.

Example detect_known_tag :
  CryptoCacheManager._detect_data_type "metric_active_addresses" None = "active_addresses".
Proof. reflexivity. Qed.

Example detect_candles :
  CryptoCacheManager._detect_data_type "ccxt_candles" (Some [("timeframe", JStr "4h")])
  = "ohlcv_4h".
Proof. reflexivity. Qed.

Example detect_default :
  CryptoCacheManager._detect_data_type "coin_info" None = "medium_volatility_default".
Proof. reflexivity. Qed.

Example market_hours_at_noon : CryptoCacheManager._is_market_hours (12 * 3600) = true.
Proof. reflexivity. Qed.

Example high_volatility_at_seven :
  CryptoCacheManager._is_high_volatility_period (7 * 3600 + 59) = true.
Proof. reflexivity. Qed.

Example sort_is_stable :
  Fallback.sort_by_key (λ x : string * Z, (x.2, 0%Z)) [("c", 2%Z); ("a", 1%Z); ("b", 1%Z)]
  = [("a", 1%Z); ("b", 1%Z); ("c", 2%Z)].
Proof. reflexivity. Qed.

Example dedup_keeps_first :
  BatchOptimizer.detect_redundant_requests
    [("price", "BTC"); ("hash_rate", "BTC"); ("price", "BTC")]
  = ([("price", "BTC"); ("hash_rate", "BTC")], {["price:BTC" := "price:BTC"]}).
Proof. vm_compute. reflexivity. Qed.

Example colon_in_name_raises :
  (MetricRegistry.get_metrics_batch
     {| MetricRegistry.providers :=
          [ DataProvider.init "A" 1 (λ _ _ _ _, Ok (PJson (JNum 1))) ["a:b"] false ];
        MetricRegistry.cache := CacheProps.fresh_manager;
        MetricRegistry.stats := MetricRegistry.stats BatchProps.price_registry |}
     0 [("a:b", "BTC")] true 5).1.1
  = Raise ValueError.
Proof. vm_compute. reflexivity. Qed.

Example upper_mixed : RegistryOps.upper "eth-Usd" = "ETH-USD".
Proof. reflexivity. Qed.

(** The default registry with a Glassnode loader whose two methods raise. *)
Definition offline_registry : MetricRegistry.t :=
  RegistryOps.init (λ _ _, Raise ConnectionError) (λ _ _, Raise ConnectionError)
    CacheProps.fresh_manager.

Example whale_activity_falls_to_intotheblock :
  let got := MetricRegistry.get_metric offline_registry 0 "whale_activity" "BTC" [] in
  got.1.1 = Ok (RegistryOps._fetch_intotheblock "whale_activity" "BTC" [])
  ∧ call_provider <$> got.2 = [0%nat; 1%nat].
Proof. vm_compute. done. Qed.

Example defi_tvl_for_ether_only :
  (MetricRegistry.get_metric offline_registry 0 "defi_tvl" "eth" []).1.1
  = Ok (RegistryOps._fetch_dune "defi_tvl" "ETH" [])
  ∧ (MetricRegistry.get_metric offline_registry 0 "defi_tvl" "BTC" []).1.1 = Ok PNone.
Proof. vm_compute. done. Qed.

Example warm_default_metrics :
  (RegistryOps.warm_critical_metrics offline_registry 0 None None).1.1
  = [ ("total_requests", JNum 24); ("successfully_warmed", JNum 20);
      ("cache_coverage", JStr "20/24") ].
Proof. vm_compute. reflexivity. Qed.

Example invalidate_one_metric :
  let warmed := (RegistryOps.warm_critical_metrics offline_registry 0 None None).1.2 in
  (CacheOps.invalidate_pattern (BK := InMemoryKeys.backend_keys)
     (MetricRegistry.cache warmed) 1 "metric_price").1 = 4%Z
  ∧ (CacheOps.invalidate_pattern (BK := InMemoryKeys.backend_keys)
       (MetricRegistry.cache warmed) 1 "").1 = 20%Z
  ∧ (CacheOps.clear_all_cache (BK := InMemoryKeys.backend_keys)
       CacheProps.lost_manager 1).1 = true.
Proof. vm_compute. done. Qed.

Example smart_invalidate_by_type_and_pattern :
  let warmed := (RegistryOps.warm_critical_metrics offline_registry 0 None None).1.2 in
  let never := λ (_ : Z) (_ : string) (_ : Z), Ok false in
  (CacheOps.smart_invalidate (BK := InMemoryKeys.backend_keys) never
     (MetricRegistry.cache warmed) 1 None (Some ["price_data"]) None).1.1 = 4%Z
  ∧ (CacheOps.smart_invalidate (BK := InMemoryKeys.backend_keys) never
       (MetricRegistry.cache warmed) 1 (Some ["hash"; "whale"]) None None).1.1 = 8%Z
  ∧ (CacheOps.smart_invalidate (BK := InMemoryKeys.backend_keys) never
       (MetricRegistry.cache warmed) 1 (Some []) None (Some 0%Z)).1.1 = 20%Z.
Proof. vm_compute. done. Qed.

(** Two providers of one name: the batch groups the request under the name
    of the healthy one and runs it on the first provider of that name, which
    is the unhealthy one. *)
Example same_name_reaches_unhealthy_provider :
  let sick := DataProvider.run
                (DataProvider.init "X" 1 (λ _ _ _ _, Raise (LoaderError "down")) ["price"] false)
                [DataProvider.RecordFailure; DataProvider.RecordFailure;
                 DataProvider.RecordFailure] in
  let sound := DataProvider.init "X" 2 (λ _ _ _ _, Ok (PJson (JNum 1))) ["price"] false in
  let reg := {| MetricRegistry.providers := [sick; sound];
                MetricRegistry.cache := CacheProps.fresh_manager;
                MetricRegistry.stats := MetricRegistry.stats BatchProps.price_registry |} in
  DataProvider.is_healthy sick = false
  ∧ call_provider <$> (MetricRegistry.get_metric reg 0 "price" "BTC" []).2 = [1%nat]
  ∧ call_provider <$> (MetricRegistry.get_metrics_batch reg 0 [("price", "BTC")] false 5).2
    = [0%nat].
Proof. vm_compute. done. Qed.

End Examples.
